(** * erd-viewer: the schema model, the metadata import and the generators

    A shallow embedding of [erd-viewer.py]: the identifier formatter
    [getName], the classes [Table] and [Column], [importMetadata], the
    statements of the DDL generator ([getCreateColumn], [getCreateTable],
    [getFKs]) and the edges of the diagram generator ([getDotLinks]).

    Python strings are modelled as [string] (a name is its UTF-8 byte
    sequence), Python integers as [Z], insertion-ordered dictionaries as
    association lists, and the object graph of [Table] and [Column]
    instances as an explicit store: columns live in a heap and are referred
    to by their address, tables are referred to by their key in the
    [tables] dictionary.  An exception is a result of its own: nothing
    catches it, and the run ends there. *)

From Stdlib Require Import ZArith List Bool Lia.
From Stdlib Require Import Ascii String.
From Stdlib Require Import DecimalString DecimalZ.
Import ListNotations.

Local Open Scope string_scope.
Local Open Scope Z_scope.

(** ** Exceptions *)

(** The faults the modelled code can raise.  An exception aborts the run:
    [main] catches nothing. *)
Inductive exn : Type :=
| KeyError (key : string)
| AttributeError (attr : string)
| IndexError
| OverflowError.

Inductive result (A : Type) : Type :=
| Ok (a : A)
| Raise (e : exn).
Arguments Ok {A} a.
Arguments Raise {A} e.

Definition bind {A B : Type} (r : result A) (f : A -> result B) : result B :=
  match r with
  | Ok a => f a
  | Raise e => Raise e
  end.

Notation "x <- r ;; k" := (bind r (fun x => k))
  (at level 61, r at next level, right associativity).

(** A loop whose body may raise: [for x in l: st = body(st, x)]. *)
Fixpoint for_each {S A : Type} (body : S -> A -> result S) (l : list A) (st : S)
  : result S :=
  match l with
  | [] => Ok st
  | x :: r => st' <- body st x ;; for_each body r st'
  end.

(** ** Characters and strings *)

Module Py.

(** The double quote and the line feed, which have no literal spelling. *)
Definition dquote : ascii := "034"%char.
Definition newline : ascii := "010"%char.
Definition dq : string := String dquote EmptyString.
Definition nl : string := String newline EmptyString.

(** [str.lower] on one character of an ASCII text: only the letters A to Z
    are mapped.  The program lowers matched identifiers, which are ASCII,
    and data types; on a type name with letters beyond ASCII Python lowers
    those too, which is not modelled. *)
Definition lower_char (c : ascii) : ascii :=
  let n := nat_of_ascii c in
  if (Nat.leb 65 n && Nat.leb n 90)%bool then ascii_of_nat (n + 32) else c.

Fixpoint lower (s : string) : string :=
  match s with
  | EmptyString => EmptyString
  | String c r => String (lower_char c) (lower r)
  end.

(** [str(n)] for an integer. *)
Definition str (z : Z) : string := NilEmpty.string_of_int (Z.to_int z).

(** [s.startswith(p)] *)
Definition startswith (p s : string) : bool := String.prefix p s.

(** [sep.join(l)] *)
Fixpoint join (sep : string) (l : list string) : string :=
  match l with
  | [] => ""
  | [x] => x
  | x :: r => x ++ sep ++ join sep r
  end.

(** [s.replace("'", "''")] *)
Fixpoint double_quotes (s : string) : string :=
  match s with
  | EmptyString => EmptyString
  | String c r =>
      if Ascii.eqb c "'"%char then String c (String c (double_quotes r))
      else String c (double_quotes r)
  end.

(** The indexes that [list.insert] takes: those of a C [ssize_t], of 64
    bits here. *)
Definition fits_ssize_t (i : Z) : bool := ((- 2 ^ 63 <=? i) && (i <=? 2 ^ 63 - 1))%bool.

(** Where [l.insert(i, x)] puts [x]: a negative index counts from the end,
    and an index out of range is clamped to the nearest end. *)
Definition insert_at {A : Type} (l : list A) (i : Z) (x : A) : list A :=
  let n := Z.of_nat (List.length l) in
  let k := if i <? 0 then Z.max 0 (i + n) else Z.min i n in
  firstn (Z.to_nat k) l ++ x :: skipn (Z.to_nat k) l.

(** [l.insert(i, x)], which raises [OverflowError] on an index that does
    not fit. *)
Definition insert {A : Type} (l : list A) (i : Z) (x : A) : result (list A) :=
  if fits_ssize_t i then Ok (insert_at l i x) else Raise OverflowError.

End Py.

(** ** The identifier formatter *)

(** The character class [[A-Z_0-9]]. *)
Definition ident_char (c : ascii) : bool :=
  let n := nat_of_ascii c in
  ((Nat.leb 65 n && Nat.leb n 90) || Nat.eqb n 95
   || (Nat.leb 48 n && Nat.leb n 57))%bool.

(** [re.match("^[A-Z_0-9]*$", s) != None].  The matcher is the backtracking
    one: at each position the star either takes one more character of the
    class, or stops and leaves the rest to [$].  Without the MULTILINE flag
    [$] holds at the end of the string and also just before a line feed that
    is the last character of the string. *)
Definition at_dollar (s : string) : bool :=
  match s with
  | EmptyString => true
  | String c EmptyString => Ascii.eqb c Py.newline
  | String _ (String _ _) => false
  end.

Fixpoint match_star_dollar (s : string) : bool :=
  match s with
  | EmptyString => at_dollar s
  | String c r => ((ident_char c && match_star_dollar r) || at_dollar s)%bool
  end.

Definition re_match_ident (s : string) : bool := match_star_dollar s.

Definition getName (name : string) : string :=
  if re_match_ident name then Py.lower name
  else Py.dq ++ name ++ Py.dq.

(** The property the pattern is meant to decide: every character is an
    uppercase letter, a digit or an underscore. *)
Fixpoint all_ident (s : string) : bool :=
  match s with
  | EmptyString => true
  | String c r => (ident_char c && all_ident r)%bool
  end.

(** ** Insertion-ordered dictionaries *)

Section Dict.
Context {V : Type}.

Definition dict : Type := list (string * V).

Fixpoint dict_get (d : dict) (k : string) : option V :=
  match d with
  | [] => None
  | (k', v) :: r => if String.eqb k' k then Some v else dict_get r k
  end.

(** [d[k] = v]: an existing key keeps its place, a new one goes last. *)
Fixpoint dict_set (d : dict) (k : string) (v : V) : dict :=
  match d with
  | [] => [(k, v)]
  | (k', v') :: r =>
      if String.eqb k' k then (k', v) :: r else (k', v') :: dict_set r k v
  end.

Definition dict_mem (d : dict) (k : string) : bool :=
  match dict_get d k with Some _ => true | None => false end.

(** [d[k]], which raises [KeyError] on a missing key. *)
Definition dict_index (d : dict) (k : string) : result V :=
  match dict_get d k with
  | Some v => Ok v
  | None => Raise (KeyError k)
  end.
End Dict.
Arguments dict V : clear implicits.

(** ** The schema model *)

(** The address of a [Column] object in the heap. *)
Definition addr : Type := nat.

Record Column : Type := mkColumn {
  c_table : string;          (* the owning table, by its key in [tables] *)
  c_name : string;
  c_comment : string;
  nullable : bool;
  datatype : string;
  identity : bool;
  isunique : bool;
  ispk : bool;
  fkof : option addr         (* the column on the other side, or None *)
}.

Record Table : Type := mkTable {
  t_name : string;
  t_comment : string;
  label : string;
  columns : list addr;
  uniques : dict (list addr);
  pks : list addr;
  fks : dict (list addr)
}.

(** The program state: the [tables] dictionary, the heap of columns and the
    lines printed so far. *)
Record Model : Type := mkModel {
  tables : dict Table;
  heap : list Column;
  stdout : list string
}.

Definition empty_model : Model := mkModel [] [] [].

(** [Column(table, name, comment)] *)
Definition Column_init (table name comment : string) : Column :=
  mkColumn table name comment true "" false false false None.

(** [Table(name, comment)]; the label is assigned right after. *)
Definition Table_init (name comment : string) : Table :=
  mkTable name comment "" [] [] [] [].

(** Reading through a reference.  Python references never dangle; the
    default is returned only at an address or key that was never
    allocated, which [wf_model] below excludes. *)
Definition deref (m : Model) (a : addr) : Column :=
  nth a (heap m) (Column_init "" "" "").

Definition table_at (m : Model) (k : string) : Table :=
  match dict_get (tables m) k with
  | Some t => t
  | None => Table_init "" ""
  end.

(** [column.table] *)
Definition table_of (m : Model) (c : Column) : Table := table_at m (c_table c).

(** Assignment to an attribute of the object at an address. *)
Fixpoint list_update {A : Type} (l : list A) (i : nat) (f : A -> A) : list A :=
  match l, i with
  | [], _ => []
  | x :: r, O => f x :: r
  | x :: r, S j => x :: list_update r j f
  end.

Definition update_column (m : Model) (a : addr) (f : Column -> Column) : Model :=
  mkModel (tables m) (list_update (heap m) a f) (stdout m).

Definition update_table (m : Model) (k : string) (t : Table) : Model :=
  mkModel (dict_set (tables m) k t) (heap m) (stdout m).

Definition print (m : Model) (line : string) : Model :=
  mkModel (tables m) (heap m) (stdout m ++ [line]).

Definition set_label (t : Table) (l : string) : Table :=
  mkTable (t_name t) (t_comment t) l (columns t) (uniques t) (pks t) (fks t).
Definition set_columns (t : Table) (l : list addr) : Table :=
  mkTable (t_name t) (t_comment t) (label t) l (uniques t) (pks t) (fks t).
Definition set_uniques (t : Table) (u : dict (list addr)) : Table :=
  mkTable (t_name t) (t_comment t) (label t) (columns t) u (pks t) (fks t).
Definition set_pks (t : Table) (l : list addr) : Table :=
  mkTable (t_name t) (t_comment t) (label t) (columns t) (uniques t) l (fks t).
Definition set_fks (t : Table) (f : dict (list addr)) : Table :=
  mkTable (t_name t) (t_comment t) (label t) (columns t) (uniques t) (pks t) f.

Definition set_type (c : Column) (ty : string) (nu idt : bool) : Column :=
  mkColumn (c_table c) (c_name c) (c_comment c) nu ty idt
           (isunique c) (ispk c) (fkof c).
Definition set_isunique (c : Column) : Column :=
  mkColumn (c_table c) (c_name c) (c_comment c) (nullable c) (datatype c)
           (identity c) true (ispk c) (fkof c).
Definition set_ispk (c : Column) : Column :=
  mkColumn (c_table c) (c_name c) (c_comment c) (nullable c) (datatype c)
           (identity c) (isunique c) true (fkof c).
Definition set_fkof (p : option addr) (c : Column) : Column :=
  mkColumn (c_table c) (c_name c) (c_comment c) (nullable c) (datatype c)
           (identity c) (isunique c) (ispk c) p.

(** [Table.getColumn]: the first column of the table with that name, or
    None. *)
Fixpoint find_column (m : Model) (l : list addr) (name : string) : option addr :=
  match l with
  | [] => None
  | a :: r => if String.eqb (c_name (deref m a)) name then Some a
              else find_column m r name
  end.

Definition getColumn (m : Model) (t : Table) (name : string) : option addr :=
  find_column m (columns t) name.

(** ** The catalog *)

(** The type descriptor of a column, [json.loads(str(row[3]))], as the
    catalog writes it: an object with a [type] that is a string, a
    [nullable] that is a boolean, and optionally a boolean [fixed] and the
    integers [length], [precision] and [scale].  A text that is no such
    object (no JSON, no [type] or [nullable], a size that is no integer)
    is outside the model: the code raises on it exceptions that are not
    modelled, or prints a size as Python prints its value. *)
Record TypeDesc : Type := mkTypeDesc {
  td_type : string;
  td_nullable : bool;
  td_fixed : option bool;
  td_length : option Z;
  td_precision : option Z;
  td_scale : option Z
}.

(** Rows of the five SHOW statements, reduced to the positions read, with
    the types that the connector gives them: names and comments are
    strings, and the position of a key column is an integer. *)
Record TableRow : Type := mkTableRow {
  tr_name : string;                (* row[1] *)
  tr_comment : string              (* row[5] *)
}.

Record ColumnRow : Type := mkColumnRow {
  cr_table : string;               (* row[0] *)
  cr_name : string;                (* row[2] *)
  cr_type : TypeDesc;              (* row[3] *)
  cr_comment : string;             (* row[8] *)
  cr_autoincrement : string        (* row[10] *)
}.

Record UniqueRow : Type := mkUniqueRow {
  ur_table : string;               (* row[3] *)
  ur_column : string;              (* row[4] *)
  ur_constraint : string           (* row[6] *)
}.

Record PkRow : Type := mkPkRow {
  pr_table : string;               (* row[3] *)
  pr_column : string;              (* row[4] *)
  pr_key_sequence : Z              (* row[5] *)
}.

Record FkRow : Type := mkFkRow {
  fr_pk_schema : string;           (* row[2] *)
  fr_pk_table : string;            (* row[3] *)
  fr_pk_column : string;           (* row[4] *)
  fr_fk_schema : string;           (* row[6] *)
  fr_fk_table : string;            (* row[7] *)
  fr_fk_column : string;           (* row[8] *)
  fr_constraint : string           (* row[12] *)
}.

(** What the cursor answers to each statement. *)
Record Cursor : Type := mkCursor {
  show_tables : list TableRow;
  show_columns : list ColumnRow;
  show_unique_keys : list UniqueRow;
  show_primary_keys : list PkRow;
  show_imported_keys : list FkRow
}.

(** ** The metadata importer *)

(** The conversion of a type descriptor to the column's data type. *)
Definition rename_type (d : TypeDesc) : string :=
  let ty := td_type d in
  if String.eqb ty "FIXED" then "NUMBER"
  else match td_fixed d with
       | Some fixed =>
           if String.eqb ty "TEXT" then (if fixed then "CHAR" else "VARCHAR")
           else ty
       | None => ty
       end.

Definition size_type (d : TypeDesc) (ty : string) : result string :=
  match td_length d with
  | Some len => Ok (ty ++ "(" ++ Py.str len ++ ")")
  | None =>
      match td_scale d with
      | None => Ok ty
      | Some scale =>
          match td_precision d with
          | None => Raise (KeyError "precision")
          | Some precision =>
              if precision =? 0 then
                let ty := ty ++ "(" ++ Py.str scale ++ ")" in
                Ok (if String.eqb ty "TIMESTAMP_NTZ(9)" then "TIMESTAMP" else ty)
              else if scale =? 0 then
                let ty := ty ++ "(" ++ Py.str precision ++ ")" in
                Ok (if String.eqb ty "NUMBER(38)" then "INT"
                    else if Py.startswith "NUMBER(" ty
                         then "INT(" ++ Py.str precision ++ ")"
                         else ty)
              else
                Ok (ty ++ "(" ++ Py.str precision ++ "," ++ Py.str scale ++ ")")
          end
      end
  end.

Definition convert_type (d : TypeDesc) : result string :=
  ty <- size_type d (rename_type d) ;;
  Ok (Py.lower ty).

(** One pass of the loop over [show tables]. *)
Definition import_table (m : Model) (row : TableRow) : result Model :=
  let name := tr_name row in
  let ts := dict_set (tables m) name (Table_init name (tr_comment row)) in
  let lbl := "n" ++ Py.str (Z.of_nat (List.length ts)) in
  Ok (mkModel (dict_set ts name (set_label (Table_init name (tr_comment row)) lbl))
              (heap m) (stdout m)).

(** One pass of the loop over [show columns]. *)
Definition import_column (m : Model) (row : ColumnRow) : result Model :=
  let name := cr_name row in
  table <- dict_index (tables m) (cr_table row) ;;
  let a := List.length (heap m) in
  let column := Column_init (cr_table row) name (cr_comment row) in
  let m1 := mkModel (dict_set (tables m) (cr_table row)
                              (set_columns table (columns table ++ [a])%list))
                    (heap m ++ [column]) (stdout m) in
  let idt := negb (String.eqb (cr_autoincrement row) "") in
  ty <- convert_type (cr_type row) ;;
  Ok (update_column m1 a (fun c => set_type c ty (td_nullable (cr_type row)) idt)).

(** [if constraint not in d: d[constraint] = []] followed by
    [d[constraint].append(a)]. *)
Definition constraint_append (d : dict (list addr)) (constraint : string) (a : addr)
  : dict (list addr) :=
  let d1 := if dict_mem d constraint then d else dict_set d constraint [] in
  match dict_get d1 constraint with
  | Some l => dict_set d1 constraint (l ++ [a])%list
  | None => d1
  end.

(** One pass of the loop over [show unique keys]. *)
Definition import_unique (m : Model) (row : UniqueRow) : result Model :=
  table <- dict_index (tables m) (ur_table row) ;;
  match getColumn m table (ur_column row) with
  | None => Raise (AttributeError "isunique")
  | Some a =>
      let table' :=
        set_uniques table (constraint_append (uniques table) (ur_constraint row) a) in
      Ok (update_column (update_table m (ur_table row) table') a set_isunique)
  end.

(** One pass of the loop over [show primary keys]. *)
Definition import_pk (m : Model) (row : PkRow) : result Model :=
  table <- dict_index (tables m) (pr_table row) ;;
  match getColumn m table (pr_column row) with
  | None => Raise (AttributeError "ispk")
  | Some a =>
      let pos := pr_key_sequence row - 1 in
      l <- Py.insert (pks table) pos a ;;
      Ok (update_table (update_column m a set_ispk) (pr_table row) (set_pks table l))
  end.

Definition cross_schema_warning (m : Model) (fktable : Table) (fkcolumn : addr)
  : string :=
  "??? Relationship accross schemas, for " ++ t_name fktable ++ "."
    ++ c_name (deref m fkcolumn) ++ "!".

(** One pass of the loop over [show imported keys]. *)
Definition import_fk (m : Model) (row : FkRow) : result Model :=
  pktable <- dict_index (tables m) (fr_pk_table row) ;;
  let pkcolumn := getColumn m pktable (fr_pk_column row) in
  fktable <- dict_index (tables m) (fr_fk_table row) ;;
  let fkcolumn := getColumn m fktable (fr_fk_column row) in
  if negb (String.eqb (fr_pk_schema row) (fr_fk_schema row)) then
    match fkcolumn with
    | None => Raise (AttributeError "name")
    | Some a => Ok (print m (cross_schema_warning m fktable a))
    end
  else
    match fkcolumn with
    | None => Raise (AttributeError "fkof")
    | Some a =>
        let fktable' :=
          set_fks fktable (constraint_append (fks fktable) (fr_constraint row) a) in
        Ok (update_column (update_table m (fr_fk_table row) fktable') a
                          (set_fkof pkcolumn))
    end.

(** [importMetadata(tables, cur)].  [main] calls it on the empty
    dictionary; a table is referred to by its key, which identifies the
    [Table] object as long as no column exists when [show tables] is read. *)
Definition importMetadata (m : Model) (cur : Cursor) : result Model :=
  m <- for_each import_table (show_tables cur) m ;;
  m <- for_each import_column (show_columns cur) m ;;
  m <- for_each import_unique (show_unique_keys cur) m ;;
  m <- for_each import_pk (show_primary_keys cur) m ;;
  for_each import_fk (show_imported_keys cur) m.

(** ** The DDL generator *)

(** The four optional parts of a column definition, named after the local
    variables of [Column.getCreateColumn]. *)
Definition nullable_clause (m : Model) (c : Column) : string :=
  if (nullable c
      || (ispk c && Nat.eqb (List.length (pks (table_of m c))) 1))%bool
  then "" else " not null".

Definition identity_clause (c : Column) : string :=
  if negb (identity c) then "" else " identity".

Definition pk_clause (m : Model) (c : Column) : string :=
  if (negb (ispk c) || Nat.leb 2 (List.length (pks (table_of m c))))%bool
  then "" else " primary key".

Definition comment_clause (c : Column) : string :=
  let comment := Py.double_quotes (c_comment c) in
  if negb (String.eqb comment "") then " comment '" ++ comment ++ "'"
  else comment.

(** [Column.getCreateColumn] *)
Definition getCreateColumn (m : Model) (a : addr) : string :=
  let self := deref m a in
  Py.nl ++ "  " ++ getName (c_name self) ++ " " ++ datatype self
    ++ nullable_clause m self ++ identity_clause self ++ pk_clause m self
    ++ comment_clause self.

Definition column_names (m : Model) (l : list addr) : list string :=
  map (fun a => getName (c_name (deref m a))) l.

(** [Table.getUniques], on the member list of the constraint. *)
Definition getUniques (m : Model) (constraint : list addr) : string :=
  "," ++ Py.nl ++ "  unique (" ++ Py.join ", " (column_names m constraint) ++ ")".

(** [Table.getPKs] *)
Definition getPKs (m : Model) (self : Table) : string :=
  "," ++ Py.nl ++ "  primary key (" ++ Py.join ", " (column_names m (pks self)) ++ ")".

(** The loop over the columns of [Table.getCreateTable]: a comma before
    every definition but the first. *)
Fixpoint create_columns (m : Model) (first : bool) (l : list addr) (s : string)
  : string :=
  match l with
  | [] => s
  | a :: r =>
      let s := if first then s else s ++ "," in
      create_columns m false r (s ++ getCreateColumn m a)
  end.

Fixpoint create_uniques (m : Model) (u : dict (list addr)) (s : string) : string :=
  match u with
  | [] => s
  | (_, constraint) :: r => create_uniques m r (s ++ getUniques m constraint)
  end.

(** [Table.getCreateTable].  A dictionary is read through its items, which
    is what a loop over its keys followed by an indexing yields. *)
Definition getCreateTable (m : Model) (self : Table) : string :=
  let s := "create or replace table " ++ getName (t_name self) ++ " (" in
  let s := create_columns m true (columns self) s in
  let s := if Nat.ltb 0 (List.length (uniques self))
           then create_uniques m (uniques self) s else s in
  let s := if Nat.leb 2 (List.length (pks self)) then s ++ getPKs m self else s in
  let s := s ++ Py.nl ++ ")" in
  let s := if negb (String.eqb (t_comment self) "")
           then s ++ " comment = '" ++ Py.double_quotes (t_comment self) ++ "'"
           else s in
  s ++ ";" ++ Py.nl ++ Py.nl.

(** [x.fkof.name] and the like: the attribute of None is an error. *)
Definition fkof_column (m : Model) (a : addr) (attr : string) : result Column :=
  match fkof (deref m a) with
  | Some p => Ok (deref m p)
  | None => Raise (AttributeError attr)
  end.

Fixpoint fkof_names (m : Model) (l : list addr) : result (list string) :=
  match l with
  | [] => Ok []
  | a :: r =>
      p <- fkof_column m a "name" ;;
      ns <- fkof_names m r ;;
      Ok (getName (c_name p) :: ns)
  end.

(** [Table.getFKs], on the member list of the constraint. *)
Definition getFKs (m : Model) (self : Table) (constraint : list addr)
  : result string :=
  match constraint with
  | [] => Raise IndexError
  | fk1 :: _ =>
      pk1 <- fkof_column m fk1 "table" ;;
      let pktable := table_of m pk1 in
      let fklist := Py.join ", " (column_names m constraint) in
      pks <- fkof_names m constraint ;;
      let pklist := Py.join ", " pks in
      Ok ("alter table " ++ getName (t_name self) ++ Py.nl
          ++ "  add foreign key (" ++ fklist ++ ") references "
          ++ getName (t_name pktable) ++ " (" ++ pklist ++ ");" ++ Py.nl ++ Py.nl)
  end.

(** ** The diagram generator *)

Definition pencolor (theme : string) : string :=
  if String.eqb theme "Blue Navy" then "#0078d7" else "#696969".

Definition penwidth (theme : string) : string :=
  if String.eqb theme "Blue Navy" then "2" else "1".

Definition dashed_attr (fk1 : Column) : string :=
  if negb (nullable fk1) then "" else " style=" ++ Py.dq ++ "dashed" ++ Py.dq.

Definition arrow_attr (m : Model) (self : Table) (fk1 pk1 : Column) : string :=
  if (ispk fk1
      && Nat.eqb (List.length (pks self)) (List.length (pks (table_of m pk1))))%bool
  then "" else " arrowtail=" ++ Py.dq ++ "crow" ++ Py.dq.

(** The line written for an edge from [src] to [dst]. *)
Definition edge_line (theme src dst dashed arrow : string) : string :=
  "  " ++ src ++ " -> " ++ dst ++ " [ penwidth=" ++ Py.dq ++ penwidth theme ++ Py.dq
    ++ " color=" ++ Py.dq ++ pencolor theme ++ Py.dq ++ dashed ++ arrow ++ " ]" ++ Py.nl.

(** One pass of the loop of [Table.getDotLinks]. *)
Definition dot_link (m : Model) (theme : string) (self : Table)
    (s : string) (item : string * list addr) : result string :=
  match snd item with
  | [] => Raise IndexError
  | a :: _ =>
      let fk1 := deref m a in
      pk1 <- fkof_column m a "table" ;;
      Ok (s ++ edge_line theme (label self) (label (table_of m pk1))
                         (dashed_attr fk1) (arrow_attr m self fk1 pk1))
  end.

(** [Table.getDotLinks] *)
Definition getDotLinks (m : Model) (theme : string) (self : Table) : result string :=
  for_each (dot_link m theme self) (fks self) "".

(** ** Reading the generated text *)

(** The lines of a text, put one after the other. *)
Definition concat_lines (lines : list string) : string :=
  fold_right String.append "" lines.

(** What a column definition starts with: the name and the data type. *)
Definition column_head (m : Model) (a : addr) : string :=
  Py.nl ++ "  " ++ getName (c_name (deref m a)) ++ " " ++ datatype (deref m a).







(** The first member of a constraint refers to a column. *)
Definition fk_linked (m : Model) (members : list addr) : bool :=
  match members with
  | a :: _ => match fkof (deref m a) with Some _ => true | None => false end
  | [] => false
  end.

(** ** Well-formed models *)

(** The columns of the table at key [k] are allocated and have [k] as
    their table; its primary key columns are among them and are marked. *)
Definition wf_table (m : Model) (k : string) (t : Table) : Prop :=
  (forall a, In a (columns t) ->
     (a < List.length (heap m))%nat /\ c_table (deref m a) = k) /\
  (forall a, In a (pks t) -> In a (columns t) /\ ispk (deref m a) = true).

Definition wf_model (m : Model) : Prop :=
  forall k t, dict_get (tables m) k = Some t -> wf_table m k t.

(** Every foreign key row that is linked names, as its parent column, a
    column that a primary key row names too. *)
Definition names_pk (rows : list PkRow) (r : FkRow) : bool :=
  existsb (fun r' => (String.eqb (pr_table r') (fr_pk_table r)
                      && String.eqb (pr_column r') (fr_pk_column r))%bool) rows.

Definition fk_parents_are_pks (cur : Cursor) : bool :=
  forallb (fun r => (negb (String.eqb (fr_pk_schema r) (fr_fk_schema r))
                     || names_pk (show_primary_keys cur) r)%bool)
          (show_imported_keys cur).

(** What the loops over the keys keep of a model: the columns of every
    table, the name of every column, and the primary key marks set so
    far. *)
Definition same_columns (m m' : Model) : Prop :=
  (forall k, option_map columns (dict_get (tables m') k)
             = option_map columns (dict_get (tables m) k)) /\
  (forall a, c_name (deref m' a) = c_name (deref m a)) /\
  (forall a, ispk (deref m a) = true -> ispk (deref m' a) = true).

(** What the loops before the last keep: every [fkof], and the primary key
    marks set so far. *)
Definition keeps_fkof (m m' : Model) : Prop :=
  (forall a, fkof (deref m' a) = fkof (deref m a)) /\
  (forall a, ispk (deref m a) = true -> ispk (deref m' a) = true).

(** The column that each of the rows names is marked. *)
Definition pk_rows_marked (rows : list PkRow) (m : Model) : Prop :=
  forall r t a,
    In r rows -> dict_get (tables m) (pr_table r) = Some t ->
    getColumn m t (pr_column r) = Some a -> ispk (deref m a) = true.

(** The invariant of the data model: [fkof] refers to marked columns. *)
Definition fkof_is_pk (m : Model) : Prop :=
  forall a p, fkof (deref m a) = Some p -> ispk (deref m p) = true.

(** ** Sample catalogs *)

Definition number (precision scale : Z) (nullable : bool) : TypeDesc :=
  mkTypeDesc "FIXED" nullable None None (Some precision) (Some scale).

Definition text (length : Z) (nullable : bool) : TypeDesc :=
  mkTypeDesc "TEXT" nullable (Some false) (Some length) None None.

(** Three tables of one schema, with a single and a composite primary key
    and two foreign keys. *)
Definition shop_cursor : Cursor :=
  mkCursor
    [mkTableRow "CUSTOMERS" ""; mkTableRow "ORDERS" "";
     mkTableRow "ORDER_LINES" "one per item"]
    [mkColumnRow "CUSTOMERS" "ID" (number 38 0 false) "" "IDENTITY START 1";
     mkColumnRow "CUSTOMERS" "NAME" (text 100 true) "" "";
     mkColumnRow "ORDERS" "ID" (number 38 0 false) "" "";
     mkColumnRow "ORDERS" "CUSTOMER_ID" (number 38 0 true) "" "";
     mkColumnRow "ORDER_LINES" "ORDER_ID" (number 38 0 false) "" "";
     mkColumnRow "ORDER_LINES" "LINE_NO" (number 5 0 false) "" "";
     mkColumnRow "ORDER_LINES" "PRICE" (number 10 2 false) "" ""]
    [mkUniqueRow "CUSTOMERS" "NAME" "UQ_NAME"]
    [mkPkRow "CUSTOMERS" "ID" 1; mkPkRow "ORDERS" "ID" 1;
     mkPkRow "ORDER_LINES" "ORDER_ID" 1; mkPkRow "ORDER_LINES" "LINE_NO" 2]
    [mkFkRow "SHOP" "CUSTOMERS" "ID" "SHOP" "ORDERS" "CUSTOMER_ID" "FK_CUSTOMER";
     mkFkRow "SHOP" "ORDERS" "ID" "SHOP" "ORDER_LINES" "ORDER_ID" "FK_ORDER"].

Definition result_or {A : Type} (r : result A) (default : A) : A :=
  match r with Ok a => a | Raise _ => default end.

Definition shop_model : Model :=
  Eval vm_compute in result_or (importMetadata empty_model shop_cursor) empty_model.

(** A foreign key of ORDERS whose parent, in the schema CRM, has the name
    of the table CUSTOMERS of the schema read. *)
Definition crm_row : FkRow :=
  mkFkRow "CRM" "CUSTOMERS" "ID" "SHOP" "ORDERS" "CUSTOMER_ID" "FK_CRM".

(** The same, for a parent whose name is that of no table of the schema. *)
Definition crm_cursor : Cursor :=
  mkCursor
    [mkTableRow "ORDERS" ""]
    [mkColumnRow "ORDERS" "ID" (number 38 0 false) "" "";
     mkColumnRow "ORDERS" "ACCOUNT_ID" (number 38 0 true) "" ""]
    []
    [mkPkRow "ORDERS" "ID" 1]
    [mkFkRow "CRM" "ACCOUNTS" "ID" "SHOP" "ORDERS" "ACCOUNT_ID" "FK_ACCOUNT"].

(** A foreign key on a column that no primary key row names: the parent
    column is the target of a unique key. *)
Definition unique_parent_cursor : Cursor :=
  mkCursor
    [mkTableRow "COUNTRIES" ""; mkTableRow "CITIES" ""]
    [mkColumnRow "COUNTRIES" "CODE" (text 2 false) "" "";
     mkColumnRow "CITIES" "COUNTRY" (text 2 false) "" ""]
    [mkUniqueRow "COUNTRIES" "CODE" "UQ_CODE"]
    []
    [mkFkRow "GEO" "COUNTRIES" "CODE" "GEO" "CITIES" "COUNTRY" "FK_COUNTRY"].

(** A primary key of three columns whose rows arrive last position
    first. *)
Definition descending_cursor : Cursor :=
  mkCursor
    [mkTableRow "T" ""]
    [mkColumnRow "T" "A" (number 38 0 false) "" "";
     mkColumnRow "T" "B" (number 38 0 false) "" "";
     mkColumnRow "T" "C" (number 38 0 false) "" ""]
    []
    [mkPkRow "T" "C" 3; mkPkRow "T" "B" 2; mkPkRow "T" "A" 1]
    [].

(** Shipments of order lines: a foreign key of two columns on the
    primary key of the lines, which the shipments share, and a foreign key
    of one nullable column. *)
Definition depot_cursor : Cursor :=
  mkCursor
    [mkTableRow "ORDER_LINES" ""; mkTableRow "CARRIERS" ""; mkTableRow "SHIPMENTS" ""]
    [mkColumnRow "ORDER_LINES" "ORDER_ID" (number 38 0 false) "" "";
     mkColumnRow "ORDER_LINES" "LINE_NO" (number 5 0 false) "" "";
     mkColumnRow "CARRIERS" "ID" (number 38 0 false) "" "";
     mkColumnRow "SHIPMENTS" "ORDER_ID" (number 38 0 false) "" "";
     mkColumnRow "SHIPMENTS" "LINE_NO" (number 5 0 false) "" "";
     mkColumnRow "SHIPMENTS" "CARRIER_ID" (number 38 0 true) "" ""]
    []
    [mkPkRow "ORDER_LINES" "ORDER_ID" 1; mkPkRow "ORDER_LINES" "LINE_NO" 2;
     mkPkRow "CARRIERS" "ID" 1;
     mkPkRow "SHIPMENTS" "ORDER_ID" 1; mkPkRow "SHIPMENTS" "LINE_NO" 2]
    [mkFkRow "DEPOT" "ORDER_LINES" "ORDER_ID" "DEPOT" "SHIPMENTS" "ORDER_ID" "FK_LINE";
     mkFkRow "DEPOT" "ORDER_LINES" "LINE_NO" "DEPOT" "SHIPMENTS" "LINE_NO" "FK_LINE";
     mkFkRow "DEPOT" "CARRIERS" "ID" "DEPOT" "SHIPMENTS" "CARRIER_ID" "FK_CARRIER"].

Definition depot_model : Model :=
  Eval vm_compute in result_or (importMetadata empty_model depot_cursor) empty_model.


(** Two foreign keys on one column, to two parents. *)
Definition two_parents_cursor : Cursor :=
  mkCursor
    [mkTableRow "P1" ""; mkTableRow "P2" ""; mkTableRow "CHILD" ""]
    [mkColumnRow "P1" "ID" (number 38 0 false) "" "";
     mkColumnRow "P2" "ID" (number 38 0 false) "" "";
     mkColumnRow "CHILD" "REF" (number 38 0 false) "" ""]
    []
    [mkPkRow "P1" "ID" 1; mkPkRow "P2" "ID" 1]
    [mkFkRow "S" "P1" "ID" "S" "CHILD" "REF" "FK_1";
     mkFkRow "S" "P2" "ID" "S" "CHILD" "REF" "FK_2"].

(** The shop with one more foreign key, of ORDERS to the table CUSTOMERS
    of the schema CRM, that has the name of a table of the shop. *)
Definition shop_crm_cursor : Cursor :=
  mkCursor (show_tables shop_cursor) (show_columns shop_cursor)
           (show_unique_keys shop_cursor) (show_primary_keys shop_cursor)
           (show_imported_keys shop_cursor ++ [crm_row]).

Definition shop_crm_model : Model :=
  Eval vm_compute in result_or (importMetadata empty_model shop_crm_cursor) empty_model.

(** A primary key row whose position is beyond the indexes of a list. *)
Definition overflow_cursor : Cursor :=
  mkCursor
    [mkTableRow "T" ""]
    [mkColumnRow "T" "A" (number 38 0 false) "" ""]
    []
    [mkPkRow "T" "A" (2 ^ 63 + 1)]
    [].

(** ** More of the diagram generator *)

(** [f'="{v}"']: an attribute value between double quotes. *)
Definition quoted (v : string) : string := Py.dq ++ v ++ Py.dq.

(** [sub in s] *)
Fixpoint contains (sub s : string) : bool :=
  (String.prefix sub s
   || match s with
      | EmptyString => false
      | String _ r => contains sub r
      end)%bool.

(** [s.endswith(suffix)] *)
Fixpoint endswith (suffix s : string) : bool :=
  (String.eqb s suffix
   || match s with
      | EmptyString => false
      | String _ r => endswith suffix r
      end)%bool.

(** The colours that [Table.getDotShape] takes from the theme. *)
Record Palette : Type := mkPalette {
  p_color : string;
  p_fillcolor : string;
  p_bgcolor : string;
  p_tcolor : string
}.

Definition palette (theme : string) (isCollapsed : bool) : Palette :=
  if (String.eqb theme "Common Gray" || String.eqb theme "Common Gray Box")%bool then
    mkPalette "#6c6c6c" (if negb isCollapsed then "#f5f5f5" else "#e0e0e0")
              "#e0e0e0" "#000000"
  else if String.eqb theme "Blue Navy" then
    mkPalette "#1a5282" (if negb isCollapsed then "#ffffff" else "#1a5282")
              "#1a5282" "#ffffff"
  else if String.eqb theme "Gradient Green" then
    mkPalette "#716f64" "#008080:#ffffff" "transparent" "#000000"
  else if String.eqb theme "Blue Sky" then
    mkPalette "#716f64" "#d3dcef:#ffffff" "transparent" "#000000"
  else
    mkPalette "transparent" "transparent" "transparent" "#000000".

(** The name of a column as the node shows it, with its marks. *)
Definition decorated_name (c : Column) : string :=
  let name := c_name c in
  let name := if ispk c then "<u>" ++ name ++ "</u>" else name in
  let name := match fkof c with
              | Some _ => "<i>" ++ name ++ "</i>"
              | None => name
              end in
  let name := if nullable c then name ++ "*" else name in
  let name := if identity c then name ++ " I" else name in
  if isunique c then name ++ " U" else name.

(** The row of a column in the node of its table. *)
Definition shape_row (isFull : bool) (c : Column) : string :=
  let icolor := "#000000" in
  if isFull then
    "      <tr><td align=" ++ quoted "left" ++ "><font color=" ++ quoted icolor
      ++ ">" ++ decorated_name c ++ "&nbsp;</font></td>" ++ Py.nl
      ++ "        <td align=" ++ quoted "left" ++ "><font color=" ++ quoted icolor
      ++ ">" ++ datatype c ++ "</font></td></tr>" ++ Py.nl
  else
    "      <tr><td align=" ++ quoted "left" ++ "><font color=" ++ quoted icolor
      ++ ">" ++ decorated_name c ++ "</font></td></tr>" ++ Py.nl.

Fixpoint shape_rows (m : Model) (isFull : bool) (l : list addr) (s : string)
  : string :=
  match l with
  | [] => s
  | a :: r => shape_rows m isFull r (s ++ shape_row isFull (deref m a))
  end.

(** [Table.getDotShape] *)
Definition getDotShape (m : Model) (self : Table) (theme : string)
    (isFull isCollapsed : bool) : string :=
  let p := palette theme isCollapsed in
  let style := "rounded" in
  let colspan := if isFull then "2" else "1" in
  let s :=
    "  " ++ label self ++ " [" ++ Py.nl
      ++ "    fillcolor=" ++ quoted (p_fillcolor p) ++ " color=" ++ quoted (p_color p)
      ++ " penwidth=" ++ quoted "1" ++ Py.nl
      ++ "    label=<<table style=" ++ quoted style ++ " border=" ++ quoted "0"
      ++ " cellborder=" ++ quoted "0" ++ " cellspacing=" ++ quoted "0"
      ++ " cellpadding=" ++ quoted "1" ++ ">" ++ Py.nl
      ++ "      <tr><td bgcolor=" ++ quoted (p_bgcolor p) ++ " align=" ++ quoted "center"
      ++ " colspan=" ++ quoted colspan ++ "><font color=" ++ quoted (p_tcolor p)
      ++ "><b>" ++ t_name self ++ "</b></font></td></tr>" ++ Py.nl in
  let s := if (isFull || negb isCollapsed)%bool
           then shape_rows m isFull (columns self) s else s in
  s ++ "    </table>>" ++ Py.nl ++ "  ]" ++ Py.nl.

(** ** The two dumps *)

(** What a dump leaves behind: the text printed and the files written, in
    the order of the writes. *)
Record Output : Type := mkOutput {
  printed : string;
  files : list (string * string)
}.

Fixpoint dump_creates (m : Model) (ts : dict Table) (s : string) : string :=
  match ts with
  | [] => s
  | (_, t) :: r => dump_creates m r (s ++ getCreateTable m t)
  end.

(** The inner loop of [dumpCreateScript], over the constraints of one
    table. *)
Definition dump_table_fks (m : Model) (s : string) (item : string * Table)
  : result string :=
  for_each (fun s c => x <- getFKs m (snd item) (snd c) ;; Ok (s ++ x))
           (fks (snd item)) s.

(** The text of [dumpCreateScript]. *)
Definition create_script (s : string) (m : Model) : result string :=
  let s := s ++ ";" ++ Py.nl ++ Py.nl in
  let s := dump_creates m (tables m) s in
  for_each (dump_table_fks m) (tables m) s.

(** [dumpCreateScript(s, tables, filename)] *)
Definition dumpCreateScript (s : string) (m : Model) (filename : string)
  : result Output :=
  s <- create_script s m ;;
  Ok (mkOutput s [(filename, s)]).

Definition dot_banner (theme : string) : string :=
  let shape := if contains " Box" theme then "record" else "Mrecord" in
  "# You may copy and paste all this to http://viz-js.com/" ++ Py.nl ++ Py.nl
    ++ "digraph G {" ++ Py.nl
    ++ "  graph [ rankdir=" ++ quoted "LR" ++ " bgcolor=" ++ quoted "#ffffff" ++ " ]" ++ Py.nl
    ++ "  node [ style=" ++ quoted "filled" ++ " shape=" ++ quoted shape
    ++ " gradientangle=" ++ quoted "180" ++ " ]" ++ Py.nl
    ++ "  edge [ arrowhead=" ++ quoted "none" ++ " arrowtail=" ++ quoted "none"
    ++ " dir=" ++ quoted "both" ++ " ]" ++ Py.nl ++ Py.nl.

Fixpoint dump_shapes (m : Model) (theme : string) (isFull isCollapsed : bool)
    (ts : dict Table) (s : string) : string :=
  match ts with
  | [] => s
  | (_, t) :: r =>
      dump_shapes m theme isFull isCollapsed r
                  (s ++ getDotShape m t theme isFull isCollapsed)
  end.

(** The text of the graph in [dumpDotERD]. *)
Definition dot_text (m : Model) (theme filename : string) : result string :=
  let isCollapsed := endswith "-relationships" filename in
  let isFull := endswith "-full" filename in
  let s := dot_banner theme in
  let s := dump_shapes m theme isFull isCollapsed (tables m) s in
  let s := s ++ Py.nl in
  s <- for_each (fun s item => x <- getDotLinks m theme (snd item) ;; Ok (s ++ x))
                (tables m) s ;;
  Ok (s ++ "}" ++ Py.nl).

(** The page around the graph. *)
Definition html_text (s : string) : string :=
  "<!DOCTYPE html><html>" ++ Py.nl
    ++ "<head><meta charset=" ++ quoted "utf-8" ++ "></head>" ++ Py.nl
    ++ "<body>"
    ++ "<script src=" ++ quoted "https://d3js.org/d3.v5.min.js" ++ "></script>" ++ Py.nl
    ++ "<script src=" ++ quoted "https://unpkg.com/@hpcc-js/wasm@0.3.11/dist/index.min.js"
    ++ "></script>" ++ Py.nl
    ++ "<script src=" ++ quoted "https://unpkg.com/d3-graphviz@3.0.5/build/d3-graphviz.js"
    ++ "></script>" ++ Py.nl
    ++ "<div id=" ++ quoted "graph" ++ " style=" ++ quoted "text-align: center;"
    ++ "></div>" ++ Py.nl
    ++ "<script>" ++ Py.nl
    ++ "var graphviz = d3.select(" ++ quoted "#graph" ++ ").graphviz()" ++ Py.nl
    ++ "   .on(" ++ quoted "initEnd" ++ ", () => { graphviz.renderDot(d3.select("
    ++ quoted "#digraph" ++ ").text()); });" ++ Py.nl
    ++ "</script>" ++ Py.nl
    ++ "<textarea id=" ++ quoted "digraph" ++ " style="
    ++ quoted "display:none; height:0px;" ++ ">" ++ Py.nl
    ++ s
    ++ "</textarea></body></html>".

(** [dumpDotERD(tables, theme, filename)] *)
Definition dumpDotERD (m : Model) (theme filename : string) : result Output :=
  s <- dot_text m theme filename ;;
  Ok (mkOutput s [(filename ++ ".dot", s); (filename ++ ".html", html_text s)]).

(** ** The entry point *)

Definition themes : list string :=
  ["Common Gray"; "Blue Navy"; "Gradient Green"; "Blue Sky"; "Common Gray Box"].

(** The theme [main] works with: the one of the profile, when there is one
    and it is known, and "Common Gray" otherwise. *)
Definition main_theme (configured : option string) : string :=
  let theme := match configured with Some t => t | None => "Common Gray" end in
  if negb (existsb (String.eqb theme) themes) then "Common Gray" else theme.

(** The dumps of a run, one after the other until one raises: what was
    written before a fault stays written. *)
Fixpoint until_raise (steps : list (result Output)) : list Output * option exn :=
  match steps with
  | [] => ([], None)
  | Ok o :: r => let (os, e) := until_raise r in (o :: os, e)
  | Raise e :: _ => ([], Some e)
  end.

(** What [main] does once connected, from the answers of the cursor and
    the database, schema and theme of the profile: the import, then the
    script and the three diagrams.  The result is what was dumped and the
    exception that ended the run, if any. *)
Definition main (cur : Cursor) (database schema : string) (configured : option string)
  : list Output * option exn :=
  let theme := main_theme configured in
  let s := "use schema " ++ getName database ++ "." ++ getName schema in
  match importMetadata empty_model cur with
  | Raise e => ([], Some e)
  | Ok m =>
      let base := "output/" ++ database ++ "." ++ schema in
      until_raise [dumpCreateScript s m (base ++ ".sql");
                   dumpDotERD m theme (base ++ "-relationships");
                   dumpDotERD m theme (base ++ "-full");
                   dumpDotERD m theme (base ++ "-columns")]
  end.

(** ** Reading the generated text, continued *)

(** In a text between single quotes, every single quote is followed by a
    second one. *)
Fixpoint quotes_paired (s : string) : bool :=
  match s with
  | EmptyString => true
  | String c r =>
      if Ascii.eqb c "'"%char then
        match r with
        | String c' r' => (Ascii.eqb c' "'"%char && quotes_paired r')%bool
        | EmptyString => false
        end
      else quotes_paired r
  end.

(** The characters of a name that the pattern accepts. *)
Definition bare_char (c : ascii) : bool :=
  (ident_char c || Ascii.eqb c Py.newline)%bool.

Fixpoint all_bare (s : string) : bool :=
  match s with
  | EmptyString => true
  | String c r => (bare_char c && all_bare r)%bool
  end.

(** ** What the loops of the import keep *)

(** The tables keep their keys, their order and the attribute [proj]. *)
Definition table_fields_kept {X : Type} (proj : Table -> X) (m m' : Model) : Prop :=
  map (fun kt => (fst kt, proj (snd kt))) (tables m')
  = map (fun kt => (fst kt, proj (snd kt))) (tables m).

(** Every column keeps the attribute [proj]. *)
Definition column_fields_kept {X : Type} (proj : Column -> X) (m m' : Model) : Prop :=
  forall a, proj (deref m' a) = proj (deref m a).

(** The attributes of a table that are set when it is created and when
    its columns are read. *)
Definition table_static (t : Table) : string * string * string * list addr :=
  (t_name t, t_comment t, label t, columns t).

(** The attributes of a column that are set when it is created. *)
Definition column_static (c : Column)
  : string * string * string * bool * string * bool :=
  (c_table c, c_name c, c_comment c, nullable c, datatype c, identity c).

(** The table at [k] has a column named [n]. *)
Definition resolves (m : Model) (k n : string) : bool :=
  match dict_get (tables m) k with
  | Some t => match getColumn m t n with Some _ => true | None => false end
  | None => false
  end.

(** ** Consistent catalogs *)

Definition convertible (d : TypeDesc) : bool :=
  match convert_type d with Ok _ => true | Raise _ => false end.

Definition has_table (cur : Cursor) (k : string) : bool :=
  existsb (fun r => String.eqb (tr_name r) k) (show_tables cur).

Definition has_column (cur : Cursor) (k n : string) : bool :=
  existsb (fun r => (String.eqb (cr_table r) k && String.eqb (cr_name r) n)%bool)
          (show_columns cur).

(** The tables that the rows name are listed, the columns that the key rows
    name are listed for their table, the data types can be converted, and
    the positions of the primary key rows are indexes that [list.insert]
    takes.  The parent column of a foreign key is not looked at. *)
Definition catalog_consistent (cur : Cursor) : bool :=
  (forallb (fun r => (has_table cur (cr_table r) && convertible (cr_type r))%bool)
           (show_columns cur)
   && forallb (fun r => has_column cur (ur_table r) (ur_column r))
              (show_unique_keys cur)
   && forallb (fun r => (has_column cur (pr_table r) (pr_column r)
                         && Py.fits_ssize_t (pr_key_sequence r - 1))%bool)
              (show_primary_keys cur)
   && forallb (fun r => (has_table cur (fr_pk_table r)
                         && has_column cur (fr_fk_table r) (fr_fk_column r))%bool)
              (show_imported_keys cur))%bool.

(** The parent column of every foreign key row that is linked is listed. *)
Definition fk_parents_exist (cur : Cursor) : bool :=
  forallb (fun r => (negb (String.eqb (fr_pk_schema r) (fr_fk_schema r))
                     || has_column cur (fr_pk_table r) (fr_pk_column r))%bool)
          (show_imported_keys cur).

(** The primary key rows of every table arrive first position first: the
    position of a row is one more than the number of rows of its table
    that came before. *)
Fixpoint in_sequence (seen rows : list PkRow) : bool :=
  match rows with
  | [] => true
  | r :: rest =>
      (Z.eqb (pr_key_sequence r)
             (Z.of_nat (S (List.length
                             (filter (fun r' => String.eqb (pr_table r') (pr_table r))
                                     seen))))
       && in_sequence (seen ++ [r]) rest)%bool
  end.

(** A table as [show tables] leaves it. *)
Definition fresh_table (k : string) (t : Table) : Prop :=
  t_name t = k /\ columns t = [] /\ uniques t = [] /\ pks t = [] /\ fks t = [].

(** The column at [a] is the one that the row [r] describes. *)
Definition column_of_row (m : Model) (r : ColumnRow) (a : addr) : Prop :=
  c_table (deref m a) = cr_table r /\
  c_name (deref m a) = cr_name r /\
  c_comment (deref m a) = cr_comment r /\
  convert_type (cr_type r) = Ok (datatype (deref m a)) /\
  nullable (deref m a) = td_nullable (cr_type r) /\
  identity (deref m a) = negb (String.eqb (cr_autoincrement r) "").

(** The attributes of a table that [show tables] sets. *)
Definition table_header (t : Table) : string * string * string :=
  (t_name t, t_comment t, label t).

(** The table of the [i]-th row of [show tables]. *)
Definition numbered_table (ir : nat * TableRow) : string * Table :=
  (tr_name (snd ir),
   mkTable (tr_name (snd ir)) (tr_comment (snd ir))
           ("n" ++ Py.str (Z.of_nat (fst ir))) [] [] [] []).

(** Every allocated column is listed by its table. *)
Definition columns_listed (m : Model) : Prop :=
  forall a, (a < List.length (heap m))%nat ->
    exists t, dict_get (tables m) (c_table (deref m a)) = Some t /\ In a (columns t).

(** Every marked column is in the primary key of its table. *)
Definition pks_listed (m : Model) : Prop :=
  forall a, ispk (deref m a) = true ->
    exists t, dict_get (tables m) (c_table (deref m a)) = Some t /\ In a (pks t).

(** ** Complete constraints *)

Definition is_linked (m : Model) (a : addr) : bool :=
  match fkof (deref m a) with Some _ => true | None => false end.

(** A foreign key constraint that [getFKs] can write: it has a member, and
    every member refers to a column. *)
Definition constraint_complete (m : Model) (members : list addr) : bool :=
  match members with
  | [] => false
  | _ :: _ => forallb (is_linked m) members
  end.

(** Every foreign key constraint of every table is complete. *)
Definition model_complete (m : Model) : bool :=
  forallb (fun item => forallb (fun c => constraint_complete m (snd c))
                               (fks (snd item)))
          (tables m).

(** The first member of every foreign key constraint of every table
    refers to a column. *)
Definition model_linked (m : Model) : bool :=
  forallb (fun item => forallb (fun c => fk_linked m (snd c)) (fks (snd item)))
          (tables m).

(** The names of the files of a run that ends well. *)
Definition main_files (database schema : string) : list string :=
  let base := "output/" ++ database ++ "." ++ schema in
  [base ++ ".sql";
   (base ++ "-relationships") ++ ".dot"; (base ++ "-relationships") ++ ".html";
   (base ++ "-full") ++ ".dot"; (base ++ "-full") ++ ".html";
   (base ++ "-columns") ++ ".dot"; (base ++ "-columns") ++ ".html"].

(** The column that a member of a constraint refers to; the member itself
    stands for it when it refers to nothing. *)
Definition fkof_target (m : Model) (a : addr) : Column :=
  match fkof (deref m a) with
  | Some p => deref m p
  | None => deref m a
  end.

(** The ALTER TABLE statement of a constraint: the members on the side of
    the table, and on the other side the column that each of them refers
    to, in the same order. *)
Definition alter_statement (m : Model) (t : Table) (members : list addr) : string :=
  "alter table " ++ getName (t_name t) ++ Py.nl
    ++ "  add foreign key ("
    ++ Py.join ", " (map (fun a => getName (c_name (deref m a))) members)
    ++ ") references "
    ++ getName (t_name (table_of m (fkof_target m (hd 0%nat members))))
    ++ " ("
    ++ Py.join ", " (map (fun a => getName (c_name (fkof_target m a))) members)
    ++ ");" ++ Py.nl ++ Py.nl.

(** The exceptions of a failed lookup. *)
Definition lookup_error (e : exn) : Prop :=
  (exists k, e = KeyError k) \/ (exists attr, e = AttributeError attr).

(** The exceptions of a failed import: those of a failed lookup, and the
    one of a position that [list.insert] does not take. *)
Definition import_error (e : exn) : Prop := lookup_error e \/ e = OverflowError.

(** The constraints of all the tables, table after table. *)
Definition all_fks (m : Model) : list (Table * list addr) :=
  flat_map (fun item => map (fun c => (snd item, snd c)) (fks (snd item))) (tables m).

(** The warning that import prints for a foreign key row across schemas. *)
Definition warning_of (r : FkRow) : string :=
  "??? Relationship accross schemas, for " ++ fr_fk_table r ++ "."
    ++ fr_fk_column r ++ "!".

Definition across_schemas (r : FkRow) : bool :=
  negb (String.eqb (fr_pk_schema r) (fr_fk_schema r)).

(** A string read from its end. *)
Fixpoint string_rev (s : string) : string :=
  match s with
  | EmptyString => EmptyString
  | String c r => string_rev r ++ String c EmptyString
  end.

(** The script of a model: the heading, then the CREATE TABLE statement of
    every table, then the ALTER TABLE statement of every constraint, table
    after table. *)
Definition script_text (s : string) (m : Model) : string :=
  (s ++ ";" ++ Py.nl ++ Py.nl)
    ++ concat_lines (map (fun item => getCreateTable m (snd item)) (tables m))
    ++ concat_lines (map (fun c => alter_statement m (fst c) (snd c)) (all_fks m)).

(** ** Unique constraints *)

(** The column at [a] is a member of one of the constraints of [d]. *)
Definition constrained (d : dict (list addr)) (a : addr) : Prop :=
  exists c members, In (c, members) d /\ In a members.

(** The unique constraints and the marks agree: a member of a unique
    constraint of a table is a marked column of that table, and a marked
    column is a member of a unique constraint of its table. *)
Definition uniques_marked (m : Model) : Prop :=
  (forall k t a, dict_get (tables m) k = Some t -> constrained (uniques t) a ->
     In a (columns t) /\ isunique (deref m a) = true) /\
  (forall a, isunique (deref m a) = true ->
     exists t, dict_get (tables m) (c_table (deref m a)) = Some t /\
               constrained (uniques t) a).

(** ** The rows of a node *)

(** The two lines that close the node of a table. *)
Definition shape_close : string := "    </table>>" ++ Py.nl ++ "  ]" ++ Py.nl.

(** The columns that the node of a table shows. *)
Definition shown_columns (t : Table) (isFull isCollapsed : bool) : list addr :=
  if (isFull || negb isCollapsed)%bool then columns t else [].

(** ** Lowercase data types *)

Definition ascii_char (c : ascii) : bool := Nat.ltb (nat_of_ascii c) 128.

Fixpoint all_ascii (s : string) : bool :=
  match s with
  | EmptyString => true
  | String c r => (ascii_char c && all_ascii r)%bool
  end.

(** A text of ASCII characters none of which is a capital letter: the
    texts of the ASCII range that [str.lower] leaves as they are. *)
Definition plain_char (c : ascii) : bool :=
  let n := nat_of_ascii c in
  (Nat.ltb n 128 && negb (Nat.leb 65 n && Nat.leb n 90))%bool.

Fixpoint lowercase_ascii (s : string) : bool :=
  match s with
  | EmptyString => true
  | String c r => (plain_char c && lowercase_ascii r)%bool
  end.

(** The type names of the catalog are ASCII. *)
Definition ascii_types (cur : Cursor) : bool :=
  forallb (fun r => all_ascii (td_type (cr_type r))) (show_columns cur).

(** * Properties *)

(** ** Strings *)

Lemma append_assoc (s t u : string) : (s ++ t) ++ u = s ++ t ++ u.
Proof. induction s as [|c s IH]; simpl; [reflexivity | now rewrite IH]. Qed.

Lemma append_nil_r (s : string) : s ++ "" = s.
Proof. induction s as [|c s IH]; simpl; [reflexivity | now rewrite IH]. Qed.

Lemma length_append (s t : string) :
  String.length (s ++ t) = (String.length s + String.length t)%nat.
Proof. induction s as [|c s IH]; simpl; [reflexivity | now rewrite IH]. Qed.

(** Cancellation of a common suffix. *)
Lemma append_cancel_r (u s t : string) : s ++ u = t ++ u -> s = t.
Proof.
  revert t; induction s as [|c s IH]; intros [|d t] H; simpl in H.
  - reflexivity.
  - apply (f_equal String.length) in H; simpl in H.
    rewrite length_append in H; lia.
  - apply (f_equal String.length) in H; simpl in H.
    rewrite length_append in H; lia.
  - injection H as -> H. f_equal. now apply IH.
Qed.

Lemma lower_append (s t : string) : Py.lower (s ++ t) = Py.lower s ++ Py.lower t.
Proof. induction s as [|c s IH]; simpl; [reflexivity | now rewrite IH]. Qed.

Lemma lower_string_of_uint (d : Decimal.uint) :
  Py.lower (NilEmpty.string_of_uint d) = NilEmpty.string_of_uint d.
Proof. induction d; simpl; try rewrite IHd; reflexivity. Qed.

(** A number in decimal has no letter to lower. *)
Lemma lower_str (z : Z) : Py.lower (Py.str z) = Py.str z.
Proof.
  unfold Py.str. destruct (Z.to_int z) as [d|d]; simpl.
  - apply lower_string_of_uint.
  - f_equal. apply lower_string_of_uint.
Qed.

Ltac lower_digits :=
  repeat (simpl; rewrite ?lower_append, ?lower_str); reflexivity.

Lemma str_inj (p q : Z) : Py.str p = Py.str q -> p = q.
Proof.
  unfold Py.str. intros H. apply DecimalZ.to_int_inj.
  apply (f_equal NilEmpty.int_of_string) in H.
  rewrite !NilEmpty.isi in H. now injection H.
Qed.

(** ** The identifier formatter *)

Lemma all_ident_match (s : string) : all_ident s = true -> re_match_ident s = true.
Proof.
  unfold re_match_ident. induction s as [|c s IH]; simpl; [reflexivity|].
  intros H. apply andb_prop in H as [Hc Hs]. now rewrite Hc, IH.
Qed.

(** What the pattern accepts: the intended names, and those followed by one
    line feed. *)
Lemma re_match_ident_iff (s : string) :
  re_match_ident s = true <->
  all_ident s = true \/ exists t, s = t ++ Py.nl /\ all_ident t = true.
Proof.
  unfold re_match_ident. induction s as [|c s IH].
  - simpl. split; [now left | reflexivity].
  - change (match_star_dollar (String c s))
      with ((ident_char c && match_star_dollar s) || at_dollar (String c s))%bool.
    change (all_ident (String c s)) with (ident_char c && all_ident s)%bool.
    split.
    + intros H. apply orb_prop in H as [H|H].
      * apply andb_prop in H as [Hc Hs]. apply IH in Hs as [Hs|[t [-> Ht]]].
        -- left. now rewrite Hc, Hs.
        -- right. exists (String c t). split; [reflexivity|].
           simpl. now rewrite Hc, Ht.
      * right. exists "". destruct s; simpl in H; [|discriminate].
        apply Ascii.eqb_eq in H. now subst c.
    + intros [H|[t [Ht Hall]]].
      * apply andb_prop in H as [Hc Hs].
        rewrite Hc. simpl. rewrite (proj2 IH (or_introl Hs)). reflexivity.
      * destruct t as [|d t]; simpl in Ht.
        -- injection Ht as -> ->. reflexivity.
        -- injection Ht as -> ->. simpl in Hall.
           apply andb_prop in Hall as [Hc Ht]. rewrite Hc. simpl.
           rewrite (proj2 IH); [reflexivity|]. right. now exists t.
Qed.

(** A name of uppercase letters, digits and underscores is written bare and
    lowercased. *)
Lemma getName_bare (s : string) : all_ident s = true -> getName s = Py.lower s.
Proof. intros H. unfold getName. now rewrite (all_ident_match s H). Qed.

(** A name the pattern rejects is written between double quotes, as it is. *)
Lemma getName_quoted (s : string) :
  re_match_ident s = false -> getName s = Py.dq ++ s ++ Py.dq.
Proof. intros H. unfold getName. now rewrite H. Qed.

Example getName_TABLE_1 : getName "TABLE_1" = "table_1".
Proof. reflexivity. Qed.

Example getName_My_Table : getName "My Table" = Py.dq ++ "My Table" ++ Py.dq.
Proof. reflexivity. Qed.

(** C5, at the input on which the code departs from the claim: the name made
    of the letter A and a line feed does not consist of uppercase letters,
    digits and underscores only, and yet it is written bare and lowercased,
    not between double quotes. *)
Theorem getName_trailing_newline :
  all_ident ("A" ++ Py.nl) = false /\
  getName ("A" ++ Py.nl) = "a" ++ Py.nl /\
  getName ("A" ++ Py.nl) <> Py.dq ++ ("A" ++ Py.nl) ++ Py.dq.
Proof. split; [reflexivity | split; [reflexivity | discriminate]]. Qed.

(** C10: the empty identifier is written as the empty string, bare: the
    pattern accepts it, and nothing is put around it. *)
Theorem getName_empty : re_match_ident "" = true /\ getName "" = "".
Proof. split; reflexivity. Qed.

(** ** The conversion of data types *)

(** [NUMBER] is neither [FIXED] nor [TEXT]: it keeps its name. *)
Lemma rename_type_NUMBER (d : TypeDesc) :
  td_type d = "NUMBER" -> rename_type d = "NUMBER".
Proof.
  intros H. unfold rename_type. rewrite H. simpl. now destruct (td_fixed d).
Qed.

Lemma rename_type_FIXED (d : TypeDesc) :
  td_type d = "FIXED" -> rename_type d = "NUMBER".
Proof. intros H. unfold rename_type. now rewrite H. Qed.

Lemma rename_type_TIMESTAMP_NTZ (d : TypeDesc) :
  td_type d = "TIMESTAMP_NTZ" -> rename_type d = "TIMESTAMP_NTZ".
Proof.
  intros H. unfold rename_type. rewrite H. simpl. now destruct (td_fixed d).
Qed.

Lemma NUMBER_38_eqb (p : Z) :
  String.eqb ("NUMBER" ++ "(" ++ Py.str p ++ ")") "NUMBER(38)" = (p =? 38).
Proof.
  destruct (Z.eqb_spec p 38) as [->|Hne].
  - reflexivity.
  - apply String.eqb_neq. intros H. apply Hne.
    simpl in H. injection H as H.
    apply (append_cancel_r ")" (Py.str p) "38") in H.
    now apply str_inj.
Qed.

Lemma startswith_NUMBER (x : string) :
  Py.startswith "NUMBER(" ("NUMBER" ++ "(" ++ x) = true.
Proof. unfold Py.startswith. simpl. destruct x; reflexivity. Qed.

(** The sizes of a type that is [NUMBER] after renaming. *)
Lemma size_type_NUMBER (d : TypeDesc) (p s : Z) :
  td_length d = None -> td_scale d = Some s -> td_precision d = Some p ->
  p <> 0 ->
  size_type d "NUMBER" =
  Ok (if s =? 0 then (if p =? 38 then "INT" else "INT(" ++ Py.str p ++ ")")
      else "NUMBER(" ++ Py.str p ++ "," ++ Py.str s ++ ")").
Proof.
  intros Hl Hs Hp Hnz. unfold size_type. rewrite Hl, Hs, Hp.
  destruct (Z.eqb_spec p 0) as [|_]; [contradiction|].
  destruct (s =? 0); [|reflexivity].
  rewrite NUMBER_38_eqb. destruct (p =? 38); [reflexivity|].
  now rewrite startswith_NUMBER.
Qed.

Lemma convert_type_renamed_NUMBER (d : TypeDesc) (p s : Z) :
  rename_type d = "NUMBER" -> td_length d = None ->
  td_scale d = Some s -> td_precision d = Some p -> p <> 0 ->
  convert_type d =
  Ok (if s =? 0 then (if p =? 38 then "int" else "int(" ++ Py.str p ++ ")")
      else "number(" ++ Py.str p ++ "," ++ Py.str s ++ ")").
Proof.
  intros Ht Hl Hs Hp Hnz. unfold convert_type.
  rewrite Ht, (size_type_NUMBER d p s Hl Hs Hp Hnz).
  simpl. f_equal. destruct (s =? 0); [destruct (p =? 38)|]; lower_digits.
Qed.

(** C6, amended: a [NUMBER] descriptor with a scale, a precision other than
    0 and no length becomes [int] at scale 0 and precision 38, [int(p)] at
    scale 0 and another precision [p], and [number(p,s)] at a scale [s] other
    than 0, in lowercase. *)
Theorem convert_type_NUMBER (d : TypeDesc) (p s : Z) :
  td_type d = "NUMBER" -> td_length d = None ->
  td_scale d = Some s -> td_precision d = Some p -> p <> 0 ->
  convert_type d =
  Ok (if s =? 0 then (if p =? 38 then "int" else "int(" ++ Py.str p ++ ")")
      else "number(" ++ Py.str p ++ "," ++ Py.str s ++ ")").
Proof.
  intros Ht. apply convert_type_renamed_NUMBER. now apply rename_type_NUMBER.
Qed.

Lemma convert_type_NUMBER_witness :
  convert_type (mkTypeDesc "NUMBER" false None None (Some 38) (Some 0)) = Ok "int" /\
  convert_type (mkTypeDesc "NUMBER" false None None (Some 5) (Some 0)) = Ok "int(5)" /\
  convert_type (mkTypeDesc "NUMBER" true None None (Some 10) (Some 2))
    = Ok "number(10,2)".
Proof.
  split; [|split].
  - apply (convert_type_NUMBER
             (mkTypeDesc "NUMBER" false None None (Some 38) (Some 0)) 38 0);
      [reflexivity | reflexivity | reflexivity | reflexivity | lia].
  - apply (convert_type_NUMBER
             (mkTypeDesc "NUMBER" false None None (Some 5) (Some 0)) 5 0);
      [reflexivity | reflexivity | reflexivity | reflexivity | lia].
  - apply (convert_type_NUMBER
             (mkTypeDesc "NUMBER" true None None (Some 10) (Some 2)) 10 2);
      [reflexivity | reflexivity | reflexivity | reflexivity | lia].
Defined.

(** C6 as stated fails on a descriptor that also carries a length: the
    length is read first, and precision and scale are not looked at. *)
Lemma convert_type_NUMBER_with_length :
  td_type (mkTypeDesc "NUMBER" false None (Some 5) (Some 10) (Some 2)) = "NUMBER" /\
  td_scale (mkTypeDesc "NUMBER" false None (Some 5) (Some 10) (Some 2)) = Some 2 /\
  td_precision (mkTypeDesc "NUMBER" false None (Some 5) (Some 10) (Some 2)) = Some 10 /\
  convert_type (mkTypeDesc "NUMBER" false None (Some 5) (Some 10) (Some 2))
    = Ok "number(5)" /\
  convert_type (mkTypeDesc "NUMBER" false None (Some 5) (Some 10) (Some 2))
    <> Ok "number(10,2)".
Proof. repeat split. discriminate. Qed.

(** The same conversion for the name the catalog gives to numbers. *)
Lemma convert_type_FIXED (d : TypeDesc) (p s : Z) :
  td_type d = "FIXED" -> td_length d = None ->
  td_scale d = Some s -> td_precision d = Some p -> p <> 0 ->
  convert_type d =
  Ok (if s =? 0 then (if p =? 38 then "int" else "int(" ++ Py.str p ++ ")")
      else "number(" ++ Py.str p ++ "," ++ Py.str s ++ ")").
Proof.
  intros Ht. apply convert_type_renamed_NUMBER. now apply rename_type_FIXED.
Qed.

(** C3, amended: with a scale, precision 0 and no length, [NUMBER] becomes
    [number(scale)], at scale 9 as at every other; [timestamp] is what
    [TIMESTAMP_NTZ] becomes at scale 9. *)
Theorem convert_type_precision_0 (d : TypeDesc) (s : Z) :
  td_length d = None -> td_scale d = Some s -> td_precision d = Some 0 ->
  (td_type d = "NUMBER" -> convert_type d = Ok ("number(" ++ Py.str s ++ ")")) /\
  (td_type d = "TIMESTAMP_NTZ" -> s = 9 -> convert_type d = Ok "timestamp").
Proof.
  intros Hl Hs Hp. split.
  - intros Ht. unfold convert_type, size_type.
    rewrite (rename_type_NUMBER d Ht), Hl, Hs, Hp. simpl. f_equal.
    lower_digits.
  - intros Ht ->. unfold convert_type, size_type.
    rewrite (rename_type_TIMESTAMP_NTZ d Ht), Hl, Hs, Hp. reflexivity.
Qed.

Lemma convert_type_precision_0_witness :
  convert_type (mkTypeDesc "NUMBER" true None None (Some 0) (Some 4)) = Ok "number(4)" /\
  convert_type (mkTypeDesc "TIMESTAMP_NTZ" true None None (Some 0) (Some 9))
    = Ok "timestamp".
Proof.
  split.
  - apply (convert_type_precision_0
             (mkTypeDesc "NUMBER" true None None (Some 0) (Some 4)) 4
             eq_refl eq_refl eq_refl). reflexivity.
  - apply (convert_type_precision_0
             (mkTypeDesc "TIMESTAMP_NTZ" true None None (Some 0) (Some 9)) 9
             eq_refl eq_refl eq_refl); reflexivity.
Defined.

(** C3 as stated fails twice: a [NUMBER] of scale 9 and precision 0 becomes
    [number(9)], not [timestamp], and a descriptor that also carries a
    length becomes [number(length)]. *)
Lemma convert_type_precision_0_counterexample :
  convert_type (mkTypeDesc "NUMBER" true None None (Some 0) (Some 9)) = Ok "number(9)" /\
  convert_type (mkTypeDesc "NUMBER" true None None (Some 0) (Some 9)) <> Ok "timestamp" /\
  convert_type (mkTypeDesc "NUMBER" true None (Some 5) (Some 0) (Some 2)) = Ok "number(5)" /\
  convert_type (mkTypeDesc "NUMBER" true None (Some 5) (Some 0) (Some 2)) <> Ok "number(2)".
Proof. repeat split; discriminate. Qed.

(** ** Column definitions *)

(** C4: in a column definition, what stands between the data type and the
    identity clause is empty exactly when the column is nullable or is a
    primary key column of a table whose [pks] has one element, and it is
    [ not null] otherwise. *)
Theorem getCreateColumn_not_null (m : Model) (a : addr) :
  exists suffix,
    getCreateColumn m a =
      column_head m a ++ suffix ++ identity_clause (deref m a)
        ++ pk_clause m (deref m a) ++ comment_clause (deref m a) /\
    (suffix = "" <->
     nullable (deref m a) = true \/
     (ispk (deref m a) = true /\
      List.length (pks (table_of m (deref m a))) = 1%nat)) /\
    (suffix <> "" -> suffix = " not null").
Proof.
  exists (nullable_clause m (deref m a)). split; [|split].
  - unfold getCreateColumn, column_head. now rewrite !append_assoc.
  - unfold nullable_clause.
    destruct (nullable (deref m a)); simpl.
    + split; [now left | reflexivity].
    + destruct (ispk (deref m a)); simpl.
      * destruct (Nat.eqb_spec (List.length (pks (table_of m (deref m a)))) 1)
          as [He|Hne].
        -- split; [now right | reflexivity].
        -- split; [discriminate | intros [H|[_ H]]; [discriminate | contradiction]].
      * split; [discriminate | intros [H|[H _]]; discriminate].
  - unfold nullable_clause.
    destruct (nullable (deref m a)
              || ispk (deref m a)
                 && Nat.eqb (List.length (pks (table_of m (deref m a)))) 1)%bool.
    + intros H. now contradiction H.
    + reflexivity.
Qed.

(** ** Edges of the diagram *)

Lemma dashed_attr_spec (c : Column) :
  dashed_attr c = if nullable c then " style=" ++ Py.dq ++ "dashed" ++ Py.dq else "".
Proof. unfold dashed_attr. now destruct (nullable c). Qed.

Lemma arrow_attr_spec (m : Model) (t : Table) (fk1 pk1 : Column) :
  (arrow_attr m t fk1 pk1 = "" \/
   arrow_attr m t fk1 pk1 = " arrowtail=" ++ Py.dq ++ "crow" ++ Py.dq) /\
  (arrow_attr m t fk1 pk1 = "" <->
   ispk fk1 = true /\
   List.length (pks t) = List.length (pks (table_of m pk1))).
Proof.
  unfold arrow_attr. destruct (ispk fk1); simpl.
  - destruct (Nat.eqb_spec (List.length (pks t))
                           (List.length (pks (table_of m pk1)))) as [He|Hne].
    + split; [now left | split; [now split | reflexivity]].
    + split; [now right | split; [discriminate | now intros [_ H]]].
  - split; [now right | split; [discriminate | now intros [H _]]].
Qed.




(** ** Dictionaries, the heap and loops *)

Section DictFacts.
Context {V : Type}.
Implicit Types (d : dict V) (k : string) (v : V).

Lemma dict_get_set_same d k v : dict_get (dict_set d k v) k = Some v.
Proof.
  induction d as [|[k' v'] d IH]; simpl.
  - now rewrite String.eqb_refl.
  - destruct (String.eqb k' k) eqn:E; simpl; now rewrite E.
Qed.

Lemma dict_get_set_other d k k' v :
  k <> k' -> dict_get (dict_set d k v) k' = dict_get d k'.
Proof.
  intros Hne. induction d as [|[k0 v0] d IH]; simpl.
  - destruct (String.eqb_spec k k'); [contradiction | reflexivity].
  - destruct (String.eqb_spec k0 k) as [->|Hk]; simpl.
    + destruct (String.eqb_spec k k'); [contradiction | reflexivity].
    + now rewrite IH.
Qed.

(** Reading after writing, in one statement. *)
Lemma dict_get_set d k k' v :
  dict_get (dict_set d k v) k' = if String.eqb k k' then Some v else dict_get d k'.
Proof.
  destruct (String.eqb_spec k k') as [->|Hne].
  - apply dict_get_set_same.
  - now apply dict_get_set_other.
Qed.

Lemma dict_index_Ok d k v : dict_index d k = Ok v <-> dict_get d k = Some v.
Proof.
  unfold dict_index. destruct (dict_get d k); split; intros H;
    try discriminate; now injection H as ->.
Qed.
End DictFacts.

Lemma list_update_length {A : Type} (l : list A) (i : nat) (f : A -> A) :
  List.length (list_update l i f) = List.length l.
Proof.
  revert i; induction l as [|x l IH]; intros [|i]; simpl; auto.
Qed.

Lemma nth_list_update {A : Type} (l : list A) (i j : nat) (f : A -> A) (x0 : A) :
  nth j (list_update l i f) x0 =
  if (Nat.eqb j i && Nat.ltb i (List.length l))%bool then f (nth i l x0)
  else nth j l x0.
Proof.
  revert i j; induction l as [|x l IH]; intros i j.
  - simpl. rewrite andb_false_r. now destruct i.
  - destruct i as [|i], j as [|j]; simpl; try reflexivity.
    rewrite IH. reflexivity.
Qed.

(** Reading a column after an assignment to the column at [a]. *)
Lemma deref_update_column (m : Model) (a b : addr) (f : Column -> Column) :
  deref (update_column m a f) b =
  if (Nat.eqb b a && Nat.ltb a (List.length (heap m)))%bool then f (deref m a)
  else deref m b.
Proof. unfold deref, update_column. simpl. apply nth_list_update. Qed.

Lemma deref_update_column_cases (m : Model) (a b : addr) (f : Column -> Column) :
  deref (update_column m a f) b = deref m b \/
  deref (update_column m a f) b = f (deref m b).
Proof.
  rewrite deref_update_column.
  destruct (Nat.eqb_spec b a) as [->|]; simpl; [|now left].
  destruct (Nat.ltb a (List.length (heap m))); [now right | now left].
Qed.

Lemma deref_update_table (m : Model) (k : string) (t : Table) (a : addr) :
  deref (update_table m k t) a = deref m a.
Proof. reflexivity. Qed.

Lemma find_column_In (m : Model) (l : list addr) (n : string) (a : addr) :
  find_column m l n = Some a -> In a l /\ c_name (deref m a) = n.
Proof.
  induction l as [|b l IH]; simpl; [discriminate|].
  destruct (String.eqb_spec (c_name (deref m b)) n) as [He|Hne].
  - intros [= ->]. split; [now left | exact He].
  - intros H. destruct (IH H) as [Hin Hn]. split; [now right | exact Hn].
Qed.

(** A loop keeps what each of its passes keeps. *)
Lemma for_each_invariant {S A : Type} (body : S -> A -> result S) (P : S -> Prop) :
  (forall st x st', body st x = Ok st' -> P st -> P st') ->
  forall l st st', for_each body l st = Ok st' -> P st -> P st'.
Proof.
  intros Hstep l. induction l as [|x l IH]; intros st st' Hrun HP; simpl in Hrun.
  - now injection Hrun as <-.
  - destruct (body st x) as [st1|e] eqn:E; simpl in Hrun; [|discriminate].
    eapply IH; [exact Hrun|]. eapply Hstep; eassumption.
Qed.

(** The same for a relation between the state before and the state after. *)
Lemma for_each_relation {S A : Type} (body : S -> A -> result S)
    (R : S -> S -> Prop) :
  (forall st, R st st) ->
  (forall s1 s2 s3, R s1 s2 -> R s2 s3 -> R s1 s3) ->
  (forall st x st', body st x = Ok st' -> R st st') ->
  forall l st st', for_each body l st = Ok st' -> R st st'.
Proof.
  intros Hrefl Htrans Hstep l st st' Hrun.
  apply (for_each_invariant body (R st) (fun s x s' H HR => Htrans _ _ _ HR (Hstep _ _ _ H))
           l st st' Hrun (Hrefl st)).
Qed.

Lemma bind_Ok {A B : Type} (r : result A) (f : A -> result B) (b : B) :
  bind r f = Ok b -> exists a, r = Ok a /\ f a = Ok b.
Proof. destruct r as [a|e]; simpl; [now exists a | discriminate]. Qed.

(** ** What one pass of each import loop does *)

Lemma import_table_inv (m m' : Model) (row : TableRow) :
  import_table m row = Ok m' ->
  heap m' = heap m /\ stdout m' = stdout m /\
  exists t, columns t = [] /\ pks t = [] /\ fks t = [] /\
    forall k, dict_get (tables m') k =
              if String.eqb (tr_name row) k then Some t else dict_get (tables m) k.
Proof.
  unfold import_table. intros [= <-]. simpl. repeat split.
  eexists. repeat split; [..|intros k; rewrite !dict_get_set;
    destruct (String.eqb (tr_name row) k); reflexivity]; reflexivity.
Qed.

Lemma list_update_last {A : Type} (l : list A) (x : A) (f : A -> A) :
  list_update (l ++ [x]) (List.length l) f = (l ++ [f x])%list.
Proof. induction l as [|y l IH]; simpl; [reflexivity | now rewrite IH]. Qed.

Lemma import_column_inv (m m' : Model) (row : ColumnRow) :
  import_column m row = Ok m' ->
  exists table ty,
    dict_get (tables m) (cr_table row) = Some table /\
    convert_type (cr_type row) = Ok ty /\
    tables m' = dict_set (tables m) (cr_table row)
                  (set_columns table (columns table ++ [List.length (heap m)])) /\
    heap m' = (heap m ++ [set_type (Column_init (cr_table row) (cr_name row)
                                                (cr_comment row))
                            ty (td_nullable (cr_type row))
                            (negb (String.eqb (cr_autoincrement row) ""))])%list /\
    stdout m' = stdout m.
Proof.
  unfold import_column. intros H.
  apply bind_Ok in H as (table & Ht & H). apply dict_index_Ok in Ht.
  apply bind_Ok in H as (ty & Hty & H). injection H as <-.
  exists table, ty. unfold update_column. simpl. rewrite list_update_last.
  repeat split; assumption.
Qed.

Lemma import_unique_inv (m m' : Model) (row : UniqueRow) :
  import_unique m row = Ok m' ->
  exists table a,
    dict_get (tables m) (ur_table row) = Some table /\
    getColumn m table (ur_column row) = Some a /\
    m' = update_column
           (update_table m (ur_table row)
              (set_uniques table
                 (constraint_append (uniques table) (ur_constraint row) a)))
           a set_isunique.
Proof.
  unfold import_unique. intros H.
  apply bind_Ok in H as (table & Ht & H). apply dict_index_Ok in Ht.
  destruct (getColumn m table (ur_column row)) as [a|] eqn:Ha; [|discriminate].
  injection H as <-. now exists table, a.
Qed.

Lemma import_pk_inv (m m' : Model) (row : PkRow) :
  import_pk m row = Ok m' ->
  exists table a,
    dict_get (tables m) (pr_table row) = Some table /\
    getColumn m table (pr_column row) = Some a /\
    m' = update_table (update_column m a set_ispk) (pr_table row)
           (set_pks table (Py.insert_at (pks table) (pr_key_sequence row - 1) a)).
Proof.
  unfold import_pk. intros H.
  apply bind_Ok in H as (table & Ht & H). apply dict_index_Ok in Ht.
  destruct (getColumn m table (pr_column row)) as [a|] eqn:Ha; [|discriminate].
  unfold Py.insert in H.
  destruct (Py.fits_ssize_t (pr_key_sequence row - 1)); [|discriminate].
  injection H as <-. now exists table, a.
Qed.

Lemma import_fk_inv (m m' : Model) (row : FkRow) :
  import_fk m row = Ok m' ->
  exists pktable fktable a,
    dict_get (tables m) (fr_pk_table row) = Some pktable /\
    dict_get (tables m) (fr_fk_table row) = Some fktable /\
    getColumn m fktable (fr_fk_column row) = Some a /\
    ((fr_pk_schema row <> fr_fk_schema row /\
      m' = print m (cross_schema_warning m fktable a)) \/
     (fr_pk_schema row = fr_fk_schema row /\
      m' = update_column
             (update_table m (fr_fk_table row)
                (set_fks fktable
                   (constraint_append (fks fktable) (fr_constraint row) a)))
             a (set_fkof (getColumn m pktable (fr_pk_column row))))).
Proof.
  unfold import_fk. intros H.
  apply bind_Ok in H as (pktable & Hp & H). apply dict_index_Ok in Hp.
  apply bind_Ok in H as (fktable & Hf & H). apply dict_index_Ok in Hf.
  exists pktable, fktable.
  destruct (getColumn m fktable (fr_fk_column row)) as [a|] eqn:Ha.
  - exists a. repeat split; try assumption.
    destruct (String.eqb_spec (fr_pk_schema row) (fr_fk_schema row)) as [He|Hne];
      simpl in H; injection H as <-; [right | left]; now split.
  - destruct (negb (String.eqb (fr_pk_schema row) (fr_fk_schema row)));
      discriminate.
Qed.


(** The edges of the shipments: the constraint of two columns gives one
    edge, solid and without crow's foot, since its first member is a
    primary key column and both tables have two; the constraint on the
    nullable column gives a dashed edge with a crow's foot. *)
Example getDotLinks_depot_shipments :
  map (fun item => (fst item, List.length (snd item)))
      (fks (table_at depot_model "SHIPMENTS")) = [("FK_LINE", 2%nat); ("FK_CARRIER", 1%nat)] /\
  getDotLinks depot_model "Blue Navy" (table_at depot_model "SHIPMENTS") =
  Ok ("  n3 -> n1 [ penwidth=" ++ Py.dq ++ "2" ++ Py.dq
        ++ " color=" ++ Py.dq ++ "#0078d7" ++ Py.dq ++ " ]" ++ Py.nl
        ++ "  n3 -> n2 [ penwidth=" ++ Py.dq ++ "2" ++ Py.dq
        ++ " color=" ++ Py.dq ++ "#0078d7" ++ Py.dq
        ++ " style=" ++ Py.dq ++ "dashed" ++ Py.dq
        ++ " arrowtail=" ++ Py.dq ++ "crow" ++ Py.dq ++ " ]" ++ Py.nl).
Proof. split; reflexivity. Qed.


(** The parent of an edge is read from the first member of the constraint,
    which keeps the column of the last foreign key row only: of two
    constraints on one column, both edges go to the parent of the
    second. *)
Example getDotLinks_two_parents :
  map (fun r => (fr_constraint r, fr_pk_table r)) (show_imported_keys two_parents_cursor)
    = [("FK_1", "P1"); ("FK_2", "P2")] /\
  exists m t,
    importMetadata empty_model two_parents_cursor = Ok m /\
    dict_get (tables m) "CHILD" = Some t /\
    map (fun kt => (fst kt, label (snd kt))) (tables m)
      = [("P1", "n1"); ("P2", "n2"); ("CHILD", "n3")] /\
    getDotLinks m "Common Gray" t =
    Ok ("  n3 -> n2 [ penwidth=" ++ Py.dq ++ "1" ++ Py.dq
          ++ " color=" ++ Py.dq ++ "#696969" ++ Py.dq
          ++ " arrowtail=" ++ Py.dq ++ "crow" ++ Py.dq ++ " ]" ++ Py.nl
          ++ "  n3 -> n2 [ penwidth=" ++ Py.dq ++ "1" ++ Py.dq
          ++ " color=" ++ Py.dq ++ "#696969" ++ Py.dq
          ++ " arrowtail=" ++ Py.dq ++ "crow" ++ Py.dq ++ " ]" ++ Py.nl).
Proof.
  split; [reflexivity|]. eexists. eexists.
  split; [reflexivity|]. split; [reflexivity|]. split; reflexivity.
Qed.

(** The edge of the sample: ORDERS has one primary key column, as has
    CUSTOMERS, but CUSTOMER_ID is not it, and it is nullable. *)
Example getDotLinks_shop_orders :
  getDotLinks shop_model "Common Gray" (table_at shop_model "ORDERS") =
  Ok ("  n2 -> n1 [ penwidth=" ++ Py.dq ++ "1" ++ Py.dq
        ++ " color=" ++ Py.dq ++ "#696969" ++ Py.dq
        ++ " style=" ++ Py.dq ++ "dashed" ++ Py.dq
        ++ " arrowtail=" ++ Py.dq ++ "crow" ++ Py.dq ++ " ]" ++ Py.nl).
Proof. reflexivity. Qed.

(** ** Foreign keys across schemas *)

(** X26: on a foreign key row whose two schemas differ, and whose parent
    table name, child table name and child column are found among the
    tables read, the pass prints the warning and changes nothing else: no
    constraint is added, no [fkof] is set, nothing is raised, and the loop
    goes on with the rows that follow. *)
Theorem import_fk_cross_schema (m : Model) (row : FkRow) (rest : list FkRow)
    (pktable fktable : Table) (a : addr) :
  fr_pk_schema row <> fr_fk_schema row ->
  dict_get (tables m) (fr_pk_table row) = Some pktable ->
  dict_get (tables m) (fr_fk_table row) = Some fktable ->
  getColumn m fktable (fr_fk_column row) = Some a ->
  exists m',
    import_fk m row = Ok m' /\
    stdout m' = (stdout m ++ [cross_schema_warning m fktable a])%list /\
    tables m' = tables m /\
    heap m' = heap m /\
    for_each import_fk (row :: rest) m = for_each import_fk rest m'.
Proof.
  intros Hne Hpk Hfk Hcol.
  assert (Hrun : import_fk m row = Ok (print m (cross_schema_warning m fktable a))).
  { unfold import_fk, dict_index. rewrite Hpk, Hfk. simpl. rewrite Hcol.
    destruct (String.eqb_spec (fr_pk_schema row) (fr_fk_schema row));
      [contradiction | reflexivity]. }
  exists (print m (cross_schema_warning m fktable a)).
  repeat split; [exact Hrun|]. simpl. now rewrite Hrun.
Qed.

Lemma import_fk_cross_schema_witness :
  exists m',
    import_fk shop_model crm_row = Ok m' /\
    stdout m' = (stdout shop_model
                 ++ [cross_schema_warning shop_model (table_at shop_model "ORDERS") 3%nat])%list /\
    tables m' = tables shop_model /\
    heap m' = heap shop_model /\
    for_each import_fk [crm_row] shop_model = for_each import_fk [] m'.
Proof.
  apply (import_fk_cross_schema shop_model crm_row []
           (table_at shop_model "CUSTOMERS") (table_at shop_model "ORDERS") 3%nat).
  - discriminate.
  - reflexivity.
  - reflexivity.
  - reflexivity.
Defined.

(** The tables of a row are looked up before its schemas are compared: a
    row whose parent table is not among the tables read aborts the import,
    whatever its schemas. *)
Lemma import_fk_unknown_parent (m : Model) (row : FkRow) :
  dict_get (tables m) (fr_pk_table row) = None ->
  import_fk m row = Raise (KeyError (fr_pk_table row)).
Proof. intros H. unfold import_fk, dict_index. now rewrite H. Qed.

(** C1, at the input on which the code departs from the claim: the one
    foreign key row of the catalog has its parent, ACCOUNTS, in the schema
    CRM, which was not read, and its child in the schema SHOP.  No warning
    is printed and the row is not skipped: the import ends on
    [KeyError]. *)
Theorem import_fk_cross_schema_unknown_parent :
  map (fun r => (fr_pk_schema r, fr_pk_table r, fr_fk_schema r, fr_fk_table r))
      (show_imported_keys crm_cursor) = [("CRM", "ACCOUNTS", "SHOP", "ORDERS")] /\
  map tr_name (show_tables crm_cursor) = ["ORDERS"] /\
  importMetadata empty_model crm_cursor = Raise (KeyError "ACCOUNTS").
Proof. split; [reflexivity|]. split; reflexivity. Qed.

(** ** The order of primary key columns *)

(** Rows that arrive first position first are put one after the other. *)
Lemma insert_at_end {A : Type} (l : list A) (x : A) :
  Py.insert_at l (Z.of_nat (List.length l)) x = (l ++ [x])%list.
Proof.
  unfold Py.insert_at.
  destruct (Z.ltb_spec (Z.of_nat (List.length l)) 0) as [H|_]; [lia|].
  rewrite Z.min_id, Nat2Z.id, firstn_all, skipn_all. reflexivity.
Qed.

(** C8, at the input on which the code departs from the claim: the rows of
    the key (A, B, C) arrive in the order C, B, A, and the list ends as
    A, C, B.  The column of position 2 is at index 2, that of position 3 at
    index 1. *)
Theorem import_pk_descending_arrival :
  map (fun r => (pr_column r, pr_key_sequence r)) (show_primary_keys descending_cursor)
    = [("C", 3); ("B", 2); ("A", 1)] /\
  exists m t,
    importMetadata empty_model descending_cursor = Ok m /\
    dict_get (tables m) "T" = Some t /\
    map (fun a => c_name (deref m a)) (pks t) = ["A"; "C"; "B"].
Proof.
  split; [reflexivity|].
  eexists. eexists. split; [reflexivity|]. split; reflexivity.
Qed.

(** ** Import yields well-formed models *)

(** A table stays well-formed when the heap grows and the cells already
    there keep their table and their primary key mark. *)
Lemma wf_table_frame (m m' : Model) (k : string) (t t' : Table) :
  (List.length (heap m) <= List.length (heap m'))%nat ->
  (forall a, (a < List.length (heap m))%nat ->
     c_table (deref m' a) = c_table (deref m a) /\
     (ispk (deref m a) = true -> ispk (deref m' a) = true)) ->
  columns t' = columns t -> pks t' = pks t ->
  wf_table m k t -> wf_table m' k t'.
Proof.
  intros Hlen Hcell Hc Hp [Hcols Hpks]. split.
  - rewrite Hc. intros a Ha. destruct (Hcols a Ha) as [Hlt Ht].
    split; [lia|]. destruct (Hcell a Hlt) as [-> _]. exact Ht.
  - rewrite Hp, Hc. intros a Ha. destruct (Hpks a Ha) as [Hin Hpk].
    split; [exact Hin|]. destruct (Hcols a Hin) as [Hlt _].
    now apply (Hcell a Hlt).
Qed.

Lemma wf_empty_model : wf_model empty_model.
Proof. intros k t H. discriminate. Qed.

Lemma wf_import_table (m m' : Model) (row : TableRow) :
  import_table m row = Ok m' -> wf_model m -> wf_model m'.
Proof.
  intros H Hwf. apply import_table_inv in H as (Hheap & _ & t0 & Hc & Hp & _ & Hget).
  intros k t Hk. rewrite Hget in Hk.
  destruct (String.eqb (tr_name row) k).
  - injection Hk as <-. split; intros a Ha.
    + rewrite Hc in Ha. contradiction.
    + rewrite Hp in Ha. contradiction.
  - apply (wf_table_frame m m' k t t); try reflexivity.
    + rewrite Hheap. lia.
    + intros a _. unfold deref. rewrite Hheap. now split.
    + now apply Hwf.
Qed.

Lemma wf_import_column (m m' : Model) (row : ColumnRow) :
  import_column m row = Ok m' -> wf_model m -> wf_model m'.
Proof.
  intros H Hwf.
  apply import_column_inv in H as (table & ty & Ht & _ & Htabs & Hheap & _).
  assert (Hold : forall a, (a < List.length (heap m))%nat -> deref m' a = deref m a).
  { intros a Ha. unfold deref. rewrite Hheap. now apply app_nth1. }
  assert (Hlen : List.length (heap m') = S (List.length (heap m))).
  { rewrite Hheap, length_app. simpl. lia. }
  intros k t Hk. rewrite Htabs, dict_get_set in Hk.
  destruct (String.eqb_spec (cr_table row) k) as [<-|Hne].
  - injection Hk as <-. destruct (Hwf _ _ Ht) as [Hcols Hpks]. split.
    + simpl. intros a Ha. apply in_app_or in Ha as [Ha|[<-|[]]].
      * destruct (Hcols a Ha) as [Hlt Hc]. split; [lia|]. now rewrite Hold.
      * split; [lia|]. unfold deref. rewrite Hheap, app_nth2, Nat.sub_diag by lia.
        reflexivity.
    + simpl. intros a Ha. destruct (Hpks a Ha) as [Hin Hpk]. split.
      * apply in_or_app. now left.
      * rewrite Hold; [exact Hpk|]. now apply (Hcols a Hin).
  - apply (wf_table_frame m m' k t t); try reflexivity.
    + lia.
    + intros a Ha. rewrite (Hold a Ha). now split.
    + now apply Hwf.
Qed.

(** The assignments of the last three loops keep the table of a cell and
    never take a primary key mark away. *)
Lemma update_column_frame (m : Model) (a : addr) (f : Column -> Column) :
  (forall c, c_table (f c) = c_table c) ->
  (forall c, ispk c = true -> ispk (f c) = true) ->
  forall b,
    c_table (deref (update_column m a f) b) = c_table (deref m b) /\
    (ispk (deref m b) = true -> ispk (deref (update_column m a f) b) = true).
Proof.
  intros Ht Hp b.
  destruct (deref_update_column_cases m a b f) as [->| ->]; [now split|].
  split; [apply Ht | apply Hp].
Qed.

(** An assignment to a cell together with an assignment to a table that
    keeps its columns and adds only marked columns to its primary key. *)
Lemma wf_update (m : Model) (k0 : string) (t0 t0' : Table) (a : addr)
    (f : Column -> Column) :
  dict_get (tables m) k0 = Some t0 ->
  columns t0' = columns t0 ->
  (forall c, c_table (f c) = c_table c) ->
  (forall c, ispk c = true -> ispk (f c) = true) ->
  (forall b, In b (pks t0') ->
     In b (pks t0) \/
     (In b (columns t0) /\ ispk (deref (update_column m a f) b) = true)) ->
  wf_model m -> wf_model (update_column (update_table m k0 t0') a f).
Proof.
  intros Ht0 Hc Hft Hfp Hpks Hwf k t Hk. simpl in Hk. rewrite dict_get_set in Hk.
  assert (Hcell : forall b,
            c_table (deref (update_column (update_table m k0 t0') a f) b)
              = c_table (deref m b) /\
            (ispk (deref m b) = true ->
             ispk (deref (update_column (update_table m k0 t0') a f) b) = true)).
  { intros b. now apply (update_column_frame (update_table m k0 t0')). }
  assert (Hlen : (List.length (heap m)
                  <= List.length (heap (update_column (update_table m k0 t0') a f)))%nat).
  { simpl. rewrite list_update_length. lia. }
  destruct (String.eqb_spec k0 k) as [<-|Hne].
  - injection Hk as <-. destruct (Hwf _ _ Ht0) as [Hcols Hpk0]. split.
    + rewrite Hc. intros b Hb. destruct (Hcols b Hb) as [Hlt Htb].
      split; [lia|]. now rewrite (proj1 (Hcell b)).
    + rewrite Hc. intros b Hb. destruct (Hpks b Hb) as [Hold|[Hin Hpk]].
      * destruct (Hpk0 b Hold) as [Hin Hpk]. split; [exact Hin|].
        now apply (Hcell b).
      * split; [exact Hin | exact Hpk].
  - apply (wf_table_frame m _ k t t); try reflexivity;
      [exact Hlen | intros b _; apply Hcell | now apply Hwf].
Qed.

Lemma wf_import_unique (m m' : Model) (row : UniqueRow) :
  import_unique m row = Ok m' -> wf_model m -> wf_model m'.
Proof.
  intros H Hwf. apply import_unique_inv in H as (table & a & Ht & _ & ->).
  apply (wf_update m (ur_table row) table); try assumption; try reflexivity.
  - intros c H. exact H.
  - intros b Hb. now left.
Qed.

Lemma in_insert {A : Type} (l : list A) (i : Z) (x y : A) :
  In y (Py.insert_at l i x) -> y = x \/ In y l.
Proof.
  unfold Py.insert_at.
  set (n := Z.to_nat (if i <? 0 then Z.max 0 (i + Z.of_nat (List.length l))
                      else Z.min i (Z.of_nat (List.length l)))).
  intros H. apply in_app_or in H as [H|[H|H]].
  - right. rewrite <- (firstn_skipn n l). apply in_or_app. now left.
  - now left.
  - right. rewrite <- (firstn_skipn n l). apply in_or_app. now right.
Qed.

Lemma wf_import_pk (m m' : Model) (row : PkRow) :
  import_pk m row = Ok m' -> wf_model m -> wf_model m'.
Proof.
  intros H Hwf. apply import_pk_inv in H as (table & a & Ht & Ha & ->).
  change (wf_model (update_column
                      (update_table m (pr_table row)
                         (set_pks table
                            (Py.insert_at (pks table) (pr_key_sequence row - 1) a)))
                      a set_ispk)).
  apply find_column_In in Ha as [Hin _].
  apply (wf_update m (pr_table row) table); try assumption; try reflexivity.
  intros b Hb. simpl in Hb. apply in_insert in Hb as [->|Hb]; [right | now left].
  split; [exact Hin|]. rewrite deref_update_column, Nat.eqb_refl. simpl.
  destruct (Hwf _ _ Ht) as [Hcols _]. destruct (Hcols a Hin) as [Hlt _].
  apply Nat.ltb_lt in Hlt. now rewrite Hlt.
Qed.

Lemma wf_import_fk (m m' : Model) (row : FkRow) :
  import_fk m row = Ok m' -> wf_model m -> wf_model m'.
Proof.
  intros H Hwf.
  apply import_fk_inv in H as (pkt & fkt & a & _ & Hf & _ & [[_ ->]|[_ ->]]).
  - exact Hwf.
  - apply (wf_update m (fr_fk_table row) fkt); try assumption; try reflexivity.
    + intros c H. exact H.
    + intros b Hb. now left.
Qed.

(** What [main] hands to the generators is well-formed. *)
Lemma wf_importMetadata (m m' : Model) (cur : Cursor) :
  importMetadata m cur = Ok m' -> wf_model m -> wf_model m'.
Proof.
  unfold importMetadata. intros H Hwf.
  apply bind_Ok in H as (m1 & H1 & H). apply bind_Ok in H as (m2 & H2 & H).
  apply bind_Ok in H as (m3 & H3 & H). apply bind_Ok in H as (m4 & H4 & H5).
  apply (for_each_invariant _ wf_model (fun s x s' => wf_import_table s s' x)) in H1; [|exact Hwf].
  apply (for_each_invariant _ wf_model (fun s x s' => wf_import_column s s' x)) in H2; [|exact H1].
  apply (for_each_invariant _ wf_model (fun s x s' => wf_import_unique s s' x)) in H3; [|exact H2].
  apply (for_each_invariant _ wf_model (fun s x s' => wf_import_pk s s' x)) in H4; [|exact H3].
  apply (for_each_invariant _ wf_model (fun s x s' => wf_import_fk s s' x)) in H5; [|exact H4].
  exact H5.
Qed.

(** ** CREATE TABLE statements *)

Lemma concat_lines_cons (x : string) (l : list string) :
  concat_lines (x :: l) = x ++ concat_lines l.
Proof. reflexivity. Qed.









(** C2, at the input on which the code departs from the claim: the rows
    of the key of T arrive in the order C (position 3), B (position 2), A
    (position 1), and the composite clause lists a, c, b, not a, b, c.  The
    clause follows [pks], which [list.insert] has left out of order. *)
Theorem create_table_descending_arrival :
  map (fun r => (pr_column r, pr_key_sequence r)) (show_primary_keys descending_cursor)
    = [("C", 3); ("B", 2); ("A", 1)] /\
  exists m t,
    importMetadata empty_model descending_cursor = Ok m /\
    dict_get (tables m) "T" = Some t /\
    getCreateTable m t =
      "create or replace table t (" ++ Py.nl
        ++ "  a int not null," ++ Py.nl
        ++ "  b int not null," ++ Py.nl
        ++ "  c int not null," ++ Py.nl
        ++ "  primary key (a, c, b)" ++ Py.nl
        ++ ");" ++ Py.nl ++ Py.nl.
Proof.
  split; [reflexivity|].
  eexists. eexists. split; [reflexivity|]. split; reflexivity.
Qed.

(** The statements of the sample. *)
Example getCreateTable_shop :
  getCreateTable shop_model (table_at shop_model "ORDERS") =
    "create or replace table orders (" ++ Py.nl
      ++ "  id int primary key," ++ Py.nl
      ++ "  customer_id int" ++ Py.nl
      ++ ");" ++ Py.nl ++ Py.nl /\
  getCreateTable shop_model (table_at shop_model "ORDER_LINES") =
    "create or replace table order_lines (" ++ Py.nl
      ++ "  order_id int not null," ++ Py.nl
      ++ "  line_no int(5) not null," ++ Py.nl
      ++ "  price number(10,2) not null," ++ Py.nl
      ++ "  primary key (order_id, line_no)" ++ Py.nl
      ++ ") comment = 'one per item';" ++ Py.nl ++ Py.nl.
Proof. split; reflexivity. Qed.

(** ** Foreign keys refer to primary key columns *)

Lemma same_columns_refl (m : Model) : same_columns m m.
Proof. repeat split; auto. Qed.

Lemma same_columns_trans (m1 m2 m3 : Model) :
  same_columns m1 m2 -> same_columns m2 m3 -> same_columns m1 m3.
Proof.
  intros (Ht & Hn & Hp) (Ht' & Hn' & Hp'). repeat split.
  - intros k. now rewrite Ht', Ht.
  - intros a. now rewrite Hn', Hn.
  - intros a H. now apply Hp', Hp.
Qed.

Lemma same_columns_update (m : Model) (k0 : string) (t0 t0' : Table) (a : addr)
    (f : Column -> Column) :
  dict_get (tables m) k0 = Some t0 -> columns t0' = columns t0 ->
  (forall c, c_name (f c) = c_name c) ->
  (forall c, ispk c = true -> ispk (f c) = true) ->
  same_columns m (update_column (update_table m k0 t0') a f).
Proof.
  intros Ht0 Hc Hn Hp. repeat split.
  - intros k. simpl. rewrite dict_get_set.
    destruct (String.eqb_spec k0 k) as [<-|_]; [|reflexivity].
    rewrite Ht0. simpl. now rewrite Hc.
  - intros b.
    destruct (deref_update_column_cases (update_table m k0 t0') a b f) as [->| ->];
      [reflexivity | apply Hn].
  - intros b H.
    destruct (deref_update_column_cases (update_table m k0 t0') a b f) as [->| ->];
      [exact H | now apply Hp].
Qed.

Lemma import_pk_same_columns (m m' : Model) (row : PkRow) :
  import_pk m row = Ok m' -> same_columns m m'.
Proof.
  intros H. apply import_pk_inv in H as (table & a & Ht & _ & ->).
  apply (same_columns_update m (pr_table row) table
           (set_pks table (Py.insert_at (pks table) (pr_key_sequence row - 1) a))
           a set_ispk Ht); try reflexivity.
Qed.

Lemma import_fk_same_columns (m m' : Model) (row : FkRow) :
  import_fk m row = Ok m' -> same_columns m m'.
Proof.
  intros H.
  apply import_fk_inv in H as (pkt & fkt & a & _ & Hf & _ & [[_ ->]|[_ ->]]).
  - repeat split; auto.
  - apply (same_columns_update m (fr_fk_table row) fkt); try assumption;
      try reflexivity.
    intros c H. exact H.
Qed.

Lemma find_column_names (m m' : Model) (l : list addr) (n : string) :
  (forall a, c_name (deref m' a) = c_name (deref m a)) ->
  find_column m' l n = find_column m l n.
Proof.
  intros Hn. induction l as [|a l IH]; simpl; [reflexivity|].
  now rewrite Hn, IH.
Qed.

Lemma pk_rows_marked_same_columns (rows : list PkRow) (m m' : Model) :
  same_columns m m' -> pk_rows_marked rows m -> pk_rows_marked rows m'.
Proof.
  intros (Ht & Hn & Hp) Hm r t' a Hr Hk Ha.
  specialize (Ht (pr_table r)). rewrite Hk in Ht.
  destruct (dict_get (tables m) (pr_table r)) as [t|] eqn:E; [|discriminate].
  simpl in Ht. injection Ht as Hc.
  apply Hp. apply (Hm r t a Hr E).
  unfold getColumn in *. rewrite <- Hc, <- (find_column_names m m' _ _ Hn). exact Ha.
Qed.

Lemma pk_rows_marked_cons (r : PkRow) (rows : list PkRow) (m : Model) :
  pk_rows_marked [r] m -> pk_rows_marked rows m -> pk_rows_marked (r :: rows) m.
Proof.
  intros H1 H2 r' t a [<-|Hin] Hk Ha.
  - apply (H1 r t a); [now left | exact Hk | exact Ha].
  - apply (H2 r' t a); assumption.
Qed.

(** One pass of the loop over the primary keys marks the column its row
    names. *)
Lemma import_pk_marks (m m' : Model) (row : PkRow) :
  wf_model m -> import_pk m row = Ok m' -> pk_rows_marked [row] m'.
Proof.
  intros Hwf H. apply import_pk_inv in H as (table & a & Ht & Ha & ->).
  intros r t1 a1 [<-|[]] Hk Ha1.
  simpl in Hk. rewrite dict_get_set_same in Hk. injection Hk as <-.
  unfold getColumn in Ha1. simpl in Ha1.
  rewrite (find_column_names m) in Ha1.
  - unfold getColumn in Ha. rewrite Ha in Ha1. injection Ha1 as <-.
    apply find_column_In in Ha as [Hin _].
    destruct (Hwf _ _ Ht) as [Hcols _]. destruct (Hcols a Hin) as [Hlt _].
    rewrite deref_update_table, deref_update_column, Nat.eqb_refl.
    apply Nat.ltb_lt in Hlt. now rewrite Hlt.
  - intros b. rewrite deref_update_table.
    destruct (deref_update_column_cases m a b set_ispk) as [->| ->]; reflexivity.
Qed.

Lemma import_pks_marked (rows : list PkRow) (m m' : Model) :
  wf_model m -> for_each import_pk rows m = Ok m' -> pk_rows_marked rows m'.
Proof.
  revert m. induction rows as [|r rows IH]; intros m Hwf H.
  - intros r t a [].
  - simpl in H. apply bind_Ok in H as (m1 & H1 & H).
    apply pk_rows_marked_cons.
    + apply (pk_rows_marked_same_columns [r] m1 m').
      * apply (for_each_relation import_pk same_columns same_columns_refl
                 same_columns_trans
                 (fun s x s' => import_pk_same_columns s s' x) rows m1 m' H).
      * now apply (import_pk_marks m).
    + apply (IH m1); [|exact H]. now apply (wf_import_pk m m1 r).
Qed.

Lemma keeps_fkof_refl (m : Model) : keeps_fkof m m.
Proof. split; auto. Qed.

Lemma keeps_fkof_trans (m1 m2 m3 : Model) :
  keeps_fkof m1 m2 -> keeps_fkof m2 m3 -> keeps_fkof m1 m3.
Proof.
  intros [Hf Hp] [Hf' Hp']. split.
  - intros a. now rewrite Hf', Hf.
  - intros a H. now apply Hp', Hp.
Qed.

Lemma keeps_fkof_update (m : Model) (k0 : string) (t0 : Table) (a : addr)
    (f : Column -> Column) :
  (forall c, fkof (f c) = fkof c) ->
  (forall c, ispk c = true -> ispk (f c) = true) ->
  keeps_fkof m (update_column (update_table m k0 t0) a f).
Proof.
  intros Hf Hp. split; intros b.
  - destruct (deref_update_column_cases (update_table m k0 t0) a b f) as [->| ->];
      [reflexivity | apply Hf].
  - intros H.
    destruct (deref_update_column_cases (update_table m k0 t0) a b f) as [->| ->];
      [exact H | now apply Hp].
Qed.

Lemma import_table_keeps_fkof (m m' : Model) (row : TableRow) :
  import_table m row = Ok m' -> keeps_fkof m m'.
Proof.
  intros H. apply import_table_inv in H as (Hheap & _).
  unfold keeps_fkof, deref. rewrite Hheap. split; auto.
Qed.

(** A new column has no [fkof] and no mark, as has the default. *)
Lemma import_column_keeps_fkof (m m' : Model) (row : ColumnRow) :
  import_column m row = Ok m' -> keeps_fkof m m'.
Proof.
  intros H. apply import_column_inv in H as (table & ty & _ & _ & _ & Hheap & _).
  assert (Hcell : forall a, deref m' a = deref m a \/
                            (fkof (deref m' a) = None /\ fkof (deref m a) = None /\
                             ispk (deref m a) = false)).
  { intros a. unfold deref. rewrite Hheap.
    destruct (Nat.lt_ge_cases a (List.length (heap m))) as [Hlt|Hge].
    - left. now apply app_nth1.
    - right. rewrite (nth_overflow (heap m)) by exact Hge.
      rewrite app_nth2 by exact Hge.
      destruct (a - List.length (heap m))%nat as [|[|n]]; now repeat split. }
  split; intros a.
  - destruct (Hcell a) as [->|(H1 & H2 & _)]; [reflexivity | now rewrite H1, H2].
  - destruct (Hcell a) as [->|(_ & _ & H3)]; [auto | rewrite H3; discriminate].
Qed.

Lemma import_unique_keeps_fkof (m m' : Model) (row : UniqueRow) :
  import_unique m row = Ok m' -> keeps_fkof m m'.
Proof.
  intros H. apply import_unique_inv in H as (table & a & _ & _ & ->).
  apply keeps_fkof_update; [reflexivity | intros c H; exact H].
Qed.

Lemma import_pk_keeps_fkof (m m' : Model) (row : PkRow) :
  import_pk m row = Ok m' -> keeps_fkof m m'.
Proof.
  intros H. apply import_pk_inv in H as (table & a & _ & _ & ->).
  apply (keeps_fkof_update m (pr_table row)
           (set_pks table (Py.insert_at (pks table) (pr_key_sequence row - 1) a))
           a set_ispk); reflexivity.
Qed.

Lemma fkof_is_pk_kept (m m' : Model) :
  keeps_fkof m m' -> fkof_is_pk m -> fkof_is_pk m'.
Proof.
  intros [Hf Hp] H a p Ha. rewrite Hf in Ha. apply Hp. now apply (H a p).
Qed.

Lemma fkof_is_pk_empty : fkof_is_pk empty_model.
Proof. intros [|a] p H; discriminate. Qed.

Lemma names_pk_In (rows : list PkRow) (r : FkRow) :
  names_pk rows r = true ->
  exists r', In r' rows /\ pr_table r' = fr_pk_table r /\ pr_column r' = fr_pk_column r.
Proof.
  unfold names_pk. intros H. apply existsb_exists in H as (r' & Hin & H).
  apply andb_prop in H as [H1 H2].
  apply String.eqb_eq in H1. apply String.eqb_eq in H2. now exists r'.
Qed.

(** One pass of the loop over the foreign keys: the parent column is
    marked when a primary key row names it. *)
Lemma import_fk_fkof_is_pk (rows : list PkRow) (m m' : Model) (row : FkRow) :
  pk_rows_marked rows m ->
  (negb (String.eqb (fr_pk_schema row) (fr_fk_schema row)) || names_pk rows row)%bool
    = true ->
  import_fk m row = Ok m' -> fkof_is_pk m -> fkof_is_pk m'.
Proof.
  intros Hmarked Hrow H Hinv.
  apply import_fk_inv in H as (pkt & fkt & a & Hp & Hf & _ & [[_ ->]|[He ->]]).
  - exact Hinv.
  - apply String.eqb_eq in He. rewrite He in Hrow. simpl in Hrow.
    apply names_pk_In in Hrow as (r' & Hin & Ht & Hc).
    set (m1 := update_table m (fr_fk_table row)
                 (set_fks fkt (constraint_append (fks fkt) (fr_constraint row) a))).
    assert (Hmono : forall b, ispk (deref m b) = true ->
              ispk (deref (update_column m1 a
                             (set_fkof (getColumn m pkt (fr_pk_column row)))) b) = true).
    { intros b Hb.
      destruct (deref_update_column_cases m1 a b
                  (set_fkof (getColumn m pkt (fr_pk_column row)))) as [->| ->];
        exact Hb. }
    intros b p Hb. apply Hmono.
    destruct (deref_update_column_cases m1 a b
                (set_fkof (getColumn m pkt (fr_pk_column row)))) as [E|E];
      rewrite E in Hb.
    + now apply (Hinv b p).
    + simpl in Hb. apply (Hmarked r' pkt p Hin).
      * now rewrite Ht.
      * now rewrite Hc.
Qed.

Lemma import_fks_fkof_is_pk (pkrows : list PkRow) (rows : list FkRow) (m m' : Model) :
  forallb (fun r => (negb (String.eqb (fr_pk_schema r) (fr_fk_schema r))
                     || names_pk pkrows r)%bool) rows = true ->
  pk_rows_marked pkrows m ->
  for_each import_fk rows m = Ok m' -> fkof_is_pk m -> fkof_is_pk m'.
Proof.
  revert m. induction rows as [|r rows IH]; intros m Hrows Hmarked H Hinv.
  - simpl in H. now injection H as <-.
  - simpl in Hrows. apply andb_prop in Hrows as [Hr Hrows].
    simpl in H. apply bind_Ok in H as (m1 & H1 & H).
    apply (IH m1 Hrows); [| exact H |].
    + apply (pk_rows_marked_same_columns pkrows m m1); [|exact Hmarked].
      now apply (import_fk_same_columns m m1 r).
    + now apply (import_fk_fkof_is_pk pkrows m m1 r).
Qed.

(** C9, amended: when the parent column of every linked foreign key row is
    named by a primary key row, every [fkof] set by import refers to a
    column whose [ispk] is true. *)
Theorem import_fkof_is_pk (cur : Cursor) (m : Model) :
  fk_parents_are_pks cur = true ->
  importMetadata empty_model cur = Ok m ->
  forall a p, fkof (deref m a) = Some p -> ispk (deref m p) = true.
Proof.
  unfold importMetadata, fk_parents_are_pks. intros Hcur H.
  apply bind_Ok in H as (m1 & H1 & H). apply bind_Ok in H as (m2 & H2 & H).
  apply bind_Ok in H as (m3 & H3 & H). apply bind_Ok in H as (m4 & H4 & H5).
  assert (Hwf3 : wf_model m3).
  { apply (for_each_invariant _ wf_model (fun s x s' => wf_import_unique s s' x)
             _ _ _ H3).
    apply (for_each_invariant _ wf_model (fun s x s' => wf_import_column s s' x)
             _ _ _ H2).
    apply (for_each_invariant _ wf_model (fun s x s' => wf_import_table s s' x)
             _ _ _ H1).
    exact wf_empty_model. }
  assert (Hinv4 : fkof_is_pk m4).
  { apply (fkof_is_pk_kept m3);
      [exact (for_each_relation import_pk keeps_fkof keeps_fkof_refl keeps_fkof_trans
                (fun s x s' => import_pk_keeps_fkof s s' x) _ _ _ H4)|].
    apply (fkof_is_pk_kept m2);
      [exact (for_each_relation import_unique keeps_fkof keeps_fkof_refl keeps_fkof_trans
                (fun s x s' => import_unique_keeps_fkof s s' x) _ _ _ H3)|].
    apply (fkof_is_pk_kept m1);
      [exact (for_each_relation import_column keeps_fkof keeps_fkof_refl keeps_fkof_trans
                (fun s x s' => import_column_keeps_fkof s s' x) _ _ _ H2)|].
    apply (fkof_is_pk_kept empty_model);
      [exact (for_each_relation import_table keeps_fkof keeps_fkof_refl keeps_fkof_trans
                (fun s x s' => import_table_keeps_fkof s s' x) _ _ _ H1)|].
    exact fkof_is_pk_empty. }
  exact (import_fks_fkof_is_pk (show_primary_keys cur) (show_imported_keys cur) m4 m
           Hcur (import_pks_marked _ m3 m4 Hwf3 H4) H5 Hinv4).
Qed.

Lemma import_fkof_is_pk_witness :
  fkof (deref shop_model 3%nat) = Some 0%nat /\ ispk (deref shop_model 0%nat) = true.
Proof.
  split; [reflexivity|].
  apply (import_fkof_is_pk shop_cursor shop_model eq_refl eq_refl 3%nat 0%nat).
  reflexivity.
Defined.

(** C9 as stated fails when a foreign key row names a column that no
    primary key row names: nothing compares the one with the others. *)
Lemma import_fkof_unique_parent :
  exists m,
    importMetadata empty_model unique_parent_cursor = Ok m /\
    fkof (deref m 1%nat) = Some 0%nat /\
    ispk (deref m 0%nat) = false.
Proof. eexists. split; [reflexivity|]. split; reflexivity. Qed.

(** * Further properties *)

(** ** The identifier formatter, as a function *)

Lemma lower_char_code (c : ascii) :
  nat_of_ascii (Py.lower_char c) =
  if (Nat.leb 65 (nat_of_ascii c) && Nat.leb (nat_of_ascii c) 90)%bool
  then (nat_of_ascii c + 32)%nat else nat_of_ascii c.
Proof.
  unfold Py.lower_char.
  destruct (Nat.leb 65 (nat_of_ascii c) && Nat.leb (nat_of_ascii c) 90)%bool eqn:E;
    [|reflexivity].
  apply andb_prop in E as [_ E]. apply Nat.leb_le in E.
  apply nat_ascii_embedding. lia.
Qed.

Lemma bare_char_code (c : ascii) :
  bare_char c = true ->
  (65 <= nat_of_ascii c <= 90 \/ nat_of_ascii c = 95 \/
   48 <= nat_of_ascii c <= 57 \/ nat_of_ascii c = 10)%nat.
Proof.
  unfold bare_char, ident_char. intros H.
  apply orb_prop in H as [H|H].
  - apply orb_prop in H as [H|H]; [apply orb_prop in H as [H|H]|].
    + apply andb_prop in H as [H1 H2].
      apply Nat.leb_le in H1. apply Nat.leb_le in H2. left. lia.
    + apply Nat.eqb_eq in H. right. left. exact H.
    + apply andb_prop in H as [H1 H2].
      apply Nat.leb_le in H1. apply Nat.leb_le in H2. right. right. left. lia.
  - apply Ascii.eqb_eq in H. subst c. right. right. right. reflexivity.
Qed.

(** What lowering makes of an accepted character: a lowercase letter, or
    the character itself. *)
Lemma lower_bare_code (c : ascii) :
  bare_char c = true ->
  (65 <= nat_of_ascii c <= 90 /\
   nat_of_ascii (Py.lower_char c) = nat_of_ascii c + 32)%nat \/
  ((nat_of_ascii c = 95 \/ 48 <= nat_of_ascii c <= 57 \/ nat_of_ascii c = 10) /\
   nat_of_ascii (Py.lower_char c) = nat_of_ascii c)%nat.
Proof.
  intros H. apply bare_char_code in H. rewrite lower_char_code.
  generalize dependent (nat_of_ascii c). intros n H.
  destruct (Nat.leb_spec 65 n) as [E1|E1]; destruct (Nat.leb_spec n 90) as [E2|E2];
    cbn [andb].
  - left. lia.
  - right. lia.
  - right. lia.
  - right. lia.
Qed.

Lemma lower_char_bare_inj (c d : ascii) :
  bare_char c = true -> bare_char d = true ->
  Py.lower_char c = Py.lower_char d -> c = d.
Proof.
  intros Hc Hd H. apply (f_equal nat_of_ascii) in H.
  rewrite <- (ascii_nat_embedding c), <- (ascii_nat_embedding d). f_equal.
  destruct (lower_bare_code c Hc) as [[? Ec]|[? Ec]],
           (lower_bare_code d Hd) as [[? Ed]|[? Ed]]; lia.
Qed.

Lemma lower_bare_inj (s t : string) :
  all_bare s = true -> all_bare t = true -> Py.lower s = Py.lower t -> s = t.
Proof.
  revert t. induction s as [|c s IH]; intros [|d t] Hs Ht H; simpl in *;
    try discriminate; [reflexivity|].
  apply andb_prop in Hs as [Hc Hs]. apply andb_prop in Ht as [Hd Ht].
  injection H as Hcd H. f_equal.
  - now apply lower_char_bare_inj.
  - now apply IH.
Qed.

Lemma match_all_bare (s : string) : re_match_ident s = true -> all_bare s = true.
Proof.
  unfold re_match_ident. induction s as [|c s IH]; [reflexivity|].
  change (match_star_dollar (String c s))
    with ((ident_char c && match_star_dollar s) || at_dollar (String c s))%bool.
  intros H. apply orb_prop in H as [H|H].
  - apply andb_prop in H as [Hc Hs]. simpl. unfold bare_char.
    now rewrite Hc, (IH Hs).
  - destruct s; simpl in H; [|discriminate]. simpl. unfold bare_char.
    rewrite H. now rewrite orb_true_r.
Qed.

(** A name written bare does not start with a double quote. *)
Lemma lower_bare_not_quoted (s t : string) :
  all_bare s = true -> Py.lower s <> Py.dq ++ t.
Proof.
  intros Hs H. destruct s as [|c s]; simpl in H; [discriminate|].
  simpl in Hs. apply andb_prop in Hs as [Hc _].
  injection H as H _. apply (f_equal nat_of_ascii) in H.
  change (nat_of_ascii Py.dquote) with 34%nat in H.
  destruct (lower_bare_code c Hc) as [[? E]|[? E]]; lia.
Qed.

(** Two names that are written the same are the same. *)
Lemma getName_same_text (s t : string) : getName s = getName t -> s = t.
Proof.
  unfold getName.
  destruct (re_match_ident s) eqn:Es, (re_match_ident t) eqn:Et; intros H.
  - apply lower_bare_inj; [now apply match_all_bare | now apply match_all_bare | exact H].
  - exfalso. now apply (lower_bare_not_quoted s (t ++ Py.dq) (match_all_bare s Es)).
  - exfalso. symmetry in H.
    now apply (lower_bare_not_quoted t (s ++ Py.dq) (match_all_bare t Et)).
  - simpl in H. injection H as H. now apply (append_cancel_r Py.dq).
Qed.

(** X1: two different names are written as two different texts, character
    for character: the text that [getName] returns determines the name.
    What a database makes of two texts that differ is not said. *)
Theorem getName_injective (s t : string) : s <> t -> getName s <> getName t.
Proof. intros Hne H. apply Hne. now apply getName_same_text. Qed.

Lemma getName_injective_witness :
  getName "ORDERS" <> getName "orders".
Proof. apply (getName_injective "ORDERS" "orders"). discriminate. Defined.

(** X2: what [getName] computes.  A name of uppercase letters, digits and
    underscores, alone or followed by one line feed, is lowered; every
    other name is put between double quotes as it is. *)
Theorem getName_cases (s : string) :
  (getName s = Py.lower s /\
   (all_ident s = true \/ exists t, s = t ++ Py.nl /\ all_ident t = true)) \/
  (getName s = Py.dq ++ s ++ Py.dq /\
   all_ident s = false /\ forall t, s = t ++ Py.nl -> all_ident t = false).
Proof.
  destruct (re_match_ident s) eqn:E.
  - left. split; [unfold getName; now rewrite E | now apply re_match_ident_iff].
  - right. split; [now apply getName_quoted|].
    assert (Hno : ~ (all_ident s = true \/
                     exists t, s = t ++ Py.nl /\ all_ident t = true)).
    { intros H. apply re_match_ident_iff in H. congruence. }
    split.
    + destruct (all_ident s); [exfalso; apply Hno; now left | reflexivity].
    + intros t Ht. destruct (all_ident t) eqn:Et; [|reflexivity].
      exfalso. apply Hno. right. now exists t.
Qed.

(** ** Looking a column up *)

Lemma find_column_first (m : Model) (l : list addr) (n : string) :
  match find_column m l n with
  | Some a =>
      exists l1 l2, l = (l1 ++ a :: l2)%list /\ c_name (deref m a) = n /\
                    forall b, In b l1 -> c_name (deref m b) <> n
  | None => forall b, In b l -> c_name (deref m b) <> n
  end.
Proof.
  induction l as [|x l IH]; simpl.
  - intros b [].
  - destruct (String.eqb_spec (c_name (deref m x)) n) as [He|Hne].
    + exists [], l. repeat split; [exact He | intros b []].
    + destruct (find_column m l n) as [a|].
      * destruct IH as (l1 & l2 & -> & Hn & Hl1).
        exists (x :: l1), l2. repeat split; [exact Hn|].
        intros b [<-|Hb]; [exact Hne | now apply Hl1].
      * intros b [<-|Hb]; [exact Hne | now apply IH].
Qed.

(** X3: [getColumn] returns the first column of the table that has the
    name, and None exactly when no column of the table has it. *)
Theorem getColumn_first (m : Model) (t : Table) (n : string) :
  match getColumn m t n with
  | Some a =>
      exists l1 l2, columns t = (l1 ++ a :: l2)%list /\ c_name (deref m a) = n /\
                    forall b, In b l1 -> c_name (deref m b) <> n
  | None => forall b, In b (columns t) -> c_name (deref m b) <> n
  end.
Proof. apply find_column_first. Qed.

(** ** More on the conversion of data types *)

(** X4: a [TEXT] with a length is a [char] when the descriptor says it is
    fixed, a [varchar] when it says it is not, and stays a [text] when it
    does not say. *)
Theorem convert_type_TEXT (d : TypeDesc) (len : Z) :
  td_type d = "TEXT" -> td_length d = Some len ->
  convert_type d =
  Ok ((match td_fixed d with
       | Some true => "char"
       | Some false => "varchar"
       | None => "text"
       end) ++ "(" ++ Py.str len ++ ")").
Proof.
  intros Ht Hl. unfold convert_type, size_type, rename_type. rewrite Ht, Hl.
  destruct (td_fixed d) as [[|]|]; simpl; f_equal; lower_digits.
Qed.

Lemma convert_type_TEXT_witness :
  convert_type (mkTypeDesc "TEXT" true (Some false) (Some 100) None None)
    = Ok "varchar(100)" /\
  convert_type (mkTypeDesc "TEXT" true (Some true) (Some 2) None None) = Ok "char(2)".
Proof.
  split.
  - apply (convert_type_TEXT (mkTypeDesc "TEXT" true (Some false) (Some 100) None None)
             100 eq_refl eq_refl).
  - apply (convert_type_TEXT (mkTypeDesc "TEXT" true (Some true) (Some 2) None None)
             2 eq_refl eq_refl).
Defined.

(** X5: on a descriptor that has a type, a nullable flag and sizes that
    are integers, the conversion raises in one case only, [KeyError] on
    [precision]: a descriptor with a scale, without a length and without a
    precision. *)
Theorem convert_type_raises (d : TypeDesc) :
  (convert_type d = Raise (KeyError "precision") /\
   td_length d = None /\ td_scale d <> None /\ td_precision d = None) \/
  ((exists ty, convert_type d = Ok ty) /\
   ~ (td_length d = None /\ td_scale d <> None /\ td_precision d = None)).
Proof.
  unfold convert_type, size_type.
  destruct (td_length d) as [len|]; [right|].
  - split; [eexists; reflexivity | intros [H _]; discriminate].
  - destruct (td_scale d) as [s|]; [|right].
    + destruct (td_precision d) as [p|]; [right | left].
      * split; [|intros (_ & _ & H); discriminate].
        destruct (p =? 0); [|destruct (s =? 0)]; eexists; reflexivity.
      * repeat split. discriminate.
    + split; [eexists; reflexivity | intros (_ & H & _); now apply H].
Qed.

Lemma lower_char_idempotent (c : ascii) :
  Py.lower_char (Py.lower_char c) = Py.lower_char c.
Proof.
  unfold Py.lower_char at 1.
  rewrite lower_char_code.
  destruct (Nat.leb_spec 65 (nat_of_ascii c)) as [E1|E1];
    destruct (Nat.leb_spec (nat_of_ascii c) 90) as [E2|E2]; cbn [andb].
  - destruct (Nat.leb_spec (nat_of_ascii c + 32) 90) as [E3|E3]; [lia|].
    now rewrite andb_false_r.
  - destruct (Nat.leb_spec (nat_of_ascii c) 90) as [E3|E3]; [lia|].
    now rewrite andb_false_r.
  - destruct (Nat.leb_spec 65 (nat_of_ascii c)) as [E3|E3]; [lia|]. reflexivity.
  - destruct (Nat.leb_spec 65 (nat_of_ascii c)) as [E3|E3]; [lia|]. reflexivity.
Qed.

Lemma lower_idempotent (s : string) : Py.lower (Py.lower s) = Py.lower s.
Proof.
  induction s as [|c s IH]; simpl; [reflexivity|].
  now rewrite lower_char_idempotent, IH.
Qed.

(** ** Comments *)

(** After the doubling, no single quote stands alone. *)
Lemma double_quotes_paired (s : string) : quotes_paired (Py.double_quotes s) = true.
Proof.
  induction s as [|c s IH]; [reflexivity|].
  simpl. destruct (Ascii.eqb c "'"%char) eqn:E.
  - cbn [quotes_paired]. rewrite E. simpl. exact IH.
  - cbn [quotes_paired]. rewrite E. exact IH.
Qed.

Lemma double_quotes_empty (s : string) : Py.double_quotes s = "" -> s = "".
Proof.
  destruct s as [|c s]; [reflexivity|]. simpl.
  destruct (Ascii.eqb c "'"%char); discriminate.
Qed.

(** X7: the comment of a column is left out when it is empty, and is
    otherwise written between single quotes with every single quote of it
    doubled, so that none of them ends the literal. *)
Theorem comment_clause_escaped (c : Column) :
  (c_comment c = "" /\ comment_clause c = "") \/
  (c_comment c <> "" /\
   exists body, comment_clause c = " comment '" ++ body ++ "'" /\
                body = Py.double_quotes (c_comment c) /\
                quotes_paired body = true).
Proof.
  unfold comment_clause.
  destruct (String.eqb_spec (Py.double_quotes (c_comment c)) "") as [He|Hne].
  - left. apply double_quotes_empty in He. rewrite He. now split.
  - right. split.
    + intros H. apply Hne. now rewrite H.
    + exists (Py.double_quotes (c_comment c)). simpl.
      repeat split. apply double_quotes_paired.
Qed.

(** ** What the loops of the import keep *)

Lemma dict_set_kept {V X : Type} (proj : V -> X) (d : dict V) (k : string) (v v' : V) :
  dict_get d k = Some v -> proj v' = proj v ->
  map (fun kt => (fst kt, proj (snd kt))) (dict_set d k v')
  = map (fun kt => (fst kt, proj (snd kt))) d.
Proof.
  intros Hget Hp. induction d as [|[k0 v0] d IH]; simpl in *; [discriminate|].
  destruct (String.eqb_spec k0 k) as [->|Hne]; simpl.
  - injection Hget as ->. now rewrite Hp.
  - now rewrite IH.
Qed.

Lemma dict_get_kept {V X : Type} (proj : V -> X) (d d' : dict V) (k : string) :
  map (fun kt => (fst kt, proj (snd kt))) d'
  = map (fun kt => (fst kt, proj (snd kt))) d ->
  option_map proj (dict_get d' k) = option_map proj (dict_get d k).
Proof.
  revert d'. induction d as [|[k0 v0] d IH]; intros [|[k1 v1] d'] H; simpl in *;
    try discriminate; [reflexivity|].
  injection H as Hk Hp H. subst k1.
  destruct (String.eqb k0 k); simpl; [now rewrite Hp | now apply IH].
Qed.

Lemma table_fields_kept_refl {X : Type} (proj : Table -> X) (m : Model) :
  table_fields_kept proj m m.
Proof. reflexivity. Qed.

Lemma table_fields_kept_trans {X : Type} (proj : Table -> X) (m1 m2 m3 : Model) :
  table_fields_kept proj m1 m2 -> table_fields_kept proj m2 m3 ->
  table_fields_kept proj m1 m3.
Proof. unfold table_fields_kept. intros H1 H2. now rewrite H2. Qed.

Lemma column_fields_kept_refl {X : Type} (proj : Column -> X) (m : Model) :
  column_fields_kept proj m m.
Proof. intros a. reflexivity. Qed.

Lemma column_fields_kept_trans {X : Type} (proj : Column -> X) (m1 m2 m3 : Model) :
  column_fields_kept proj m1 m2 -> column_fields_kept proj m2 m3 ->
  column_fields_kept proj m1 m3.
Proof. intros H1 H2 a. now rewrite H2. Qed.

Lemma table_fields_kept_get {X : Type} (proj : Table -> X) (m m' : Model) (k : string) :
  table_fields_kept proj m m' ->
  option_map proj (dict_get (tables m') k) = option_map proj (dict_get (tables m) k).
Proof. intros H. now apply dict_get_kept. Qed.

(** An assignment to a table and to a column keep what neither changes. *)
Lemma update_table_kept {X : Type} (proj : Table -> X) (m : Model) (k : string)
    (t t' : Table) (a : addr) (f : Column -> Column) :
  dict_get (tables m) k = Some t -> proj t' = proj t ->
  table_fields_kept proj m (update_column (update_table m k t') a f).
Proof.
  intros Hget Hp. unfold table_fields_kept. simpl.
  exact (dict_set_kept proj (tables m) k t t' Hget Hp).
Qed.

Lemma update_column_kept {X : Type} (proj : Column -> X) (m : Model) (k : string)
    (t' : Table) (a : addr) (f : Column -> Column) :
  (forall c, proj (f c) = proj c) ->
  column_fields_kept proj m (update_column (update_table m k t') a f).
Proof.
  intros Hf b.
  destruct (deref_update_column_cases (update_table m k t') a b f) as [->| ->];
    [reflexivity | apply Hf].
Qed.

(** The loops over the keys keep the tables as the first two loops left
    them, but for their constraints, ... *)
Lemma import_unique_table_static (m m' : Model) (row : UniqueRow) :
  import_unique m row = Ok m' -> table_fields_kept table_static m m'.
Proof.
  intros H. apply import_unique_inv in H as (t & a & Ht & _ & ->).
  now apply (update_table_kept table_static m (ur_table row) t).
Qed.

Lemma import_pk_table_static (m m' : Model) (row : PkRow) :
  import_pk m row = Ok m' -> table_fields_kept table_static m m'.
Proof.
  intros H. apply import_pk_inv in H as (t & a & Ht & _ & ->).
  now apply (update_table_kept table_static m (pr_table row) t _ a set_ispk).
Qed.

Lemma import_fk_table_static (m m' : Model) (row : FkRow) :
  import_fk m row = Ok m' -> table_fields_kept table_static m m'.
Proof.
  intros H.
  apply import_fk_inv in H as (pkt & fkt & a & _ & Hf & _ & [[_ ->]|[_ ->]]).
  - reflexivity.
  - now apply (update_table_kept table_static m (fr_fk_table row) fkt).
Qed.

(** ... and the columns as the second loop left them, but for their
    marks. *)
Lemma import_unique_column_static (m m' : Model) (row : UniqueRow) :
  import_unique m row = Ok m' -> column_fields_kept column_static m m'.
Proof.
  intros H. apply import_unique_inv in H as (t & a & _ & _ & ->).
  now apply update_column_kept.
Qed.

Lemma import_pk_column_static (m m' : Model) (row : PkRow) :
  import_pk m row = Ok m' -> column_fields_kept column_static m m'.
Proof.
  intros H. apply import_pk_inv in H as (t & a & _ & _ & ->).
  now apply (update_column_kept column_static m (pr_table row) _ a set_ispk).
Qed.

Lemma import_fk_column_static (m m' : Model) (row : FkRow) :
  import_fk m row = Ok m' -> column_fields_kept column_static m m'.
Proof.
  intros H.
  apply import_fk_inv in H as (pkt & fkt & a & _ & _ & _ & [[_ ->]|[_ ->]]).
  - intros b. reflexivity.
  - now apply update_column_kept.
Qed.

Lemma import_uniques_static (rows : list UniqueRow) (m m' : Model) :
  for_each import_unique rows m = Ok m' ->
  table_fields_kept table_static m m' /\ column_fields_kept column_static m m'.
Proof.
  intros H. split.
  - exact (for_each_relation import_unique (table_fields_kept table_static)
             (table_fields_kept_refl _) (table_fields_kept_trans _)
             (fun s x s' => import_unique_table_static s s' x) rows m m' H).
  - exact (for_each_relation import_unique (column_fields_kept column_static)
             (column_fields_kept_refl _) (column_fields_kept_trans _)
             (fun s x s' => import_unique_column_static s s' x) rows m m' H).
Qed.

Lemma import_pks_static (rows : list PkRow) (m m' : Model) :
  for_each import_pk rows m = Ok m' ->
  table_fields_kept table_static m m' /\ column_fields_kept column_static m m'.
Proof.
  intros H. split.
  - exact (for_each_relation import_pk (table_fields_kept table_static)
             (table_fields_kept_refl _) (table_fields_kept_trans _)
             (fun s x s' => import_pk_table_static s s' x) rows m m' H).
  - exact (for_each_relation import_pk (column_fields_kept column_static)
             (column_fields_kept_refl _) (column_fields_kept_trans _)
             (fun s x s' => import_pk_column_static s s' x) rows m m' H).
Qed.

Lemma import_fks_static (rows : list FkRow) (m m' : Model) :
  for_each import_fk rows m = Ok m' ->
  table_fields_kept table_static m m' /\ column_fields_kept column_static m m'.
Proof.
  intros H. split.
  - exact (for_each_relation import_fk (table_fields_kept table_static)
             (table_fields_kept_refl _) (table_fields_kept_trans _)
             (fun s x s' => import_fk_table_static s s' x) rows m m' H).
  - exact (for_each_relation import_fk (column_fields_kept column_static)
             (column_fields_kept_refl _) (column_fields_kept_trans _)
             (fun s x s' => import_fk_column_static s s' x) rows m m' H).
Qed.

(** ** The loop over the tables *)

Lemma dict_get_app {V : Type} (d d' : dict V) (k : string) :
  dict_get (d ++ d')%list k =
  match dict_get d k with Some v => Some v | None => dict_get d' k end.
Proof.
  induction d as [|[k0 v0] d IH]; simpl; [reflexivity|].
  destruct (String.eqb k0 k); [reflexivity | exact IH].
Qed.

Lemma dict_set_fresh {V : Type} (d : dict V) (k : string) (v : V) :
  dict_get d k = None -> dict_set d k v = (d ++ [(k, v)])%list.
Proof.
  induction d as [|[k0 v0] d IH]; simpl; [reflexivity|].
  destruct (String.eqb k0 k); [discriminate|]. intros H. now rewrite IH.
Qed.

Lemma dict_set_last {V : Type} (d : dict V) (k : string) (v v' : V) :
  dict_get d k = None -> dict_set (d ++ [(k, v)])%list k v' = (d ++ [(k, v')])%list.
Proof.
  induction d as [|[k0 v0] d IH]; simpl.
  - now rewrite String.eqb_refl.
  - destruct (String.eqb k0 k); [discriminate|]. intros H. now rewrite IH.
Qed.

(** One pass creates the table of the row, in place of the one of that
    name if there is one, and touches nothing else. *)
Lemma import_table_fresh (m : Model) (row : TableRow) :
  exists m' t,
    import_table m row = Ok m' /\ heap m' = heap m /\ stdout m' = stdout m /\
    fresh_table (tr_name row) t /\
    forall k, dict_get (tables m') k =
              if String.eqb (tr_name row) k then Some t else dict_get (tables m) k.
Proof.
  eexists.
  exists (set_label (Table_init (tr_name row) (tr_comment row))
            ("n" ++ Py.str (Z.of_nat (List.length
               (dict_set (tables m) (tr_name row)
                  (Table_init (tr_name row) (tr_comment row))))))).
  split; [reflexivity|]. split; [reflexivity|]. split; [reflexivity|].
  split; [now repeat split|].
  intros k. simpl. rewrite !dict_get_set.
  destruct (String.eqb (tr_name row) k); reflexivity.
Qed.

(** After the loop, the tables that the rows name are as created, and the
    others are as before. *)
Lemma import_tables_fresh (rows : list TableRow) (m : Model) :
  exists m',
    for_each import_table rows m = Ok m' /\ heap m' = heap m /\
    stdout m' = stdout m /\
    forall k,
      if existsb (fun r => String.eqb (tr_name r) k) rows
      then exists t, dict_get (tables m') k = Some t /\ fresh_table k t
      else dict_get (tables m') k = dict_get (tables m) k.
Proof.
  revert m. induction rows as [|r rows IH]; intros m.
  - exists m. split; [reflexivity|]. split; [reflexivity|]. split; [reflexivity|].
    intros k. reflexivity.
  - destruct (import_table_fresh m r) as (m1 & t & H1 & Hh1 & Hs1 & Hf & Hg).
    destruct (IH m1) as (m' & H & Hh & Hs & Hk).
    exists m'. split; [cbn [for_each]; now rewrite H1|].
    split; [congruence|]. split; [congruence|].
    intros k. specialize (Hk k). cbn [existsb].
    destruct (existsb (fun r0 => String.eqb (tr_name r0) k) rows).
    + now rewrite orb_true_r.
    + rewrite orb_false_r, Hk, Hg.
      destruct (String.eqb_spec (tr_name r) k) as [<-|]; [|reflexivity].
      now exists t.
Qed.

(** With names that are all different, the tables are those of the rows,
    in their order, and the label of each is its rank. *)
Lemma import_tables_numbered (rows : list TableRow) (m m' : Model) :
  NoDup (map tr_name rows) ->
  (forall r, In r rows -> dict_get (tables m) (tr_name r) = None) ->
  for_each import_table rows m = Ok m' ->
  tables m' =
  (tables m ++ map numbered_table
                   (combine (seq (S (List.length (tables m))) (List.length rows)) rows))%list.
Proof.
  revert m. induction rows as [|r rows IH]; intros m Hnd Hfresh H.
  - simpl in H. injection H as <-. simpl. now rewrite app_nil_r.
  - cbn [for_each] in H. apply bind_Ok in H as (m1 & H1 & H).
    unfold import_table in H1. injection H1 as <-.
    assert (Hr : dict_get (tables m) (tr_name r) = None) by (apply Hfresh; now left).
    rewrite (dict_set_fresh _ _ _ Hr), (dict_set_last _ _ _ _ Hr) in H.
    rewrite length_app in H. cbn [List.length] in H.
    replace (List.length (tables m) + 1)%nat with (S (List.length (tables m))) in H by lia.
    inversion Hnd as [|x l Hnotin Hnd' ]; subst.
    apply IH in H; [| exact Hnd' |].
    + rewrite H. cbn [tables]. rewrite <- app_assoc, length_app. simpl.
      replace (List.length (tables m) + 1)%nat with (S (List.length (tables m))) by lia.
      reflexivity.
    + intros r' Hr'. cbn [tables]. rewrite dict_get_app.
      rewrite (Hfresh r' (or_intror Hr')). simpl.
      destruct (String.eqb_spec (tr_name r) (tr_name r')) as [E|]; [|reflexivity].
      exfalso. apply Hnotin. rewrite E. now apply in_map.
Qed.

(** ** The loop over the columns *)

Lemma import_column_header (m m' : Model) (row : ColumnRow) :
  import_column m row = Ok m' -> table_fields_kept table_header m m'.
Proof.
  intros H. apply import_column_inv in H as (t & ty & Ht & _ & Htabs & _).
  unfold table_fields_kept. rewrite Htabs.
  now apply (dict_set_kept table_header (tables m) (cr_table row) t).
Qed.

(** The loop adds to each table, in the order of the rows, the columns
    that the rows of the table describe, and leaves the columns that exist
    as they are. *)
Lemma import_columns_spec (rows : list ColumnRow) (m m' : Model) :
  for_each import_column rows m = Ok m' ->
  (forall a, (a < List.length (heap m))%nat -> deref m' a = deref m a) /\
  (List.length (heap m) <= List.length (heap m'))%nat /\
  forall k,
    match dict_get (tables m') k with
    | Some t' =>
        exists t news,
          dict_get (tables m) k = Some t /\
          columns t' = (columns t ++ news)%list /\
          table_header t' = table_header t /\
          uniques t' = uniques t /\ pks t' = pks t /\ fks t' = fks t /\
          Forall2 (column_of_row m')
                  (filter (fun r => String.eqb (cr_table r) k) rows) news
    | None => dict_get (tables m) k = None
    end.
Proof.
  revert m. induction rows as [|r rows IH]; intros m H.
  - simpl in H. injection H as <-. split; [auto|]. split; [lia|].
    intros k. destruct (dict_get (tables m) k) as [t|]; [|reflexivity].
    exists t, []. rewrite app_nil_r. repeat split. constructor.
  - cbn [for_each] in H. apply bind_Ok in H as (m1 & H1 & H).
    apply import_column_inv in H1 as (table & ty & Ht & Hty & Htabs & Hheap & _).
    destruct (IH m1 H) as (Hold & Hlen & Hk).
    assert (Hlen1 : List.length (heap m1) = S (List.length (heap m))).
    { rewrite Hheap, length_app. simpl. lia. }
    assert (Hold1 : forall a, (a < List.length (heap m))%nat -> deref m1 a = deref m a).
    { intros a Ha. unfold deref. rewrite Hheap. now apply app_nth1. }
    split; [|split].
    + intros a Ha. rewrite Hold by lia. now apply Hold1.
    + lia.
    + intros k. specialize (Hk k). rewrite Htabs, dict_get_set in Hk.
      cbn [filter].
      destruct (String.eqb_spec (cr_table r) k) as [E|Hne].
      * destruct (dict_get (tables m') k) as [t'|]; [|discriminate].
        destruct Hk as (t1 & news & [= <-] & Hc & Hh & Hu & Hp & Hf & Hall).
        exists table, (List.length (heap m) :: news). rewrite <- E, Ht.
        split; [reflexivity|]. split.
        { rewrite Hc. cbn [columns set_columns]. now rewrite <- app_assoc. }
        split; [exact Hh|]. split; [exact Hu|]. split; [exact Hp|].
        split; [exact Hf|].
        constructor; [|now rewrite E].
        unfold column_of_row. rewrite Hold by lia.
        unfold deref. rewrite Hheap, app_nth2, Nat.sub_diag by lia.
        cbn. now repeat split.
      * exact Hk.
Qed.

(** The names of the columns of a table decide what [getColumn] finds. *)
Lemma find_column_Some_iff (m : Model) (l : list addr) (n : string) :
  (exists a, find_column m l n = Some a) <->
  In n (map (fun a => c_name (deref m a)) l).
Proof.
  induction l as [|x l IH]; simpl.
  - split; [intros [a H]; discriminate | intros []].
  - destruct (String.eqb_spec (c_name (deref m x)) n) as [He|Hne].
    + split; [now left | intros _; now exists x].
    + rewrite IH. split; [now right | intros [H|H]; [contradiction | exact H]].
Qed.

Lemma Forall2_column_names (m : Model) (rows : list ColumnRow) (l : list addr) :
  Forall2 (column_of_row m) rows l ->
  map (fun a => c_name (deref m a)) l = map cr_name rows.
Proof.
  induction 1 as [|r a rows l Hra _ IH]; simpl; [reflexivity|].
  destruct Hra as (_ & Hn & _). now rewrite Hn, IH.
Qed.

(** ** When a loop of the import succeeds *)

Lemma forallb_pointwise {A : Type} (f g : A -> bool) (l : list A) :
  (forall x, f x = g x) -> forallb f l = forallb g l.
Proof. intros H. induction l as [|x l IH]; simpl; [reflexivity | now rewrite H, IH]. Qed.

(** A loop succeeds exactly when the test of each pass holds at the start,
    when a pass changes the test of no later one. *)
Lemma for_each_Ok_iff {S A : Type} (body : S -> A -> result S) (ok : S -> A -> bool) :
  (forall st x, (exists st', body st x = Ok st') <-> ok st x = true) ->
  (forall st x st', body st x = Ok st' -> forall y, ok st' y = ok st y) ->
  forall l st, (exists st', for_each body l st = Ok st') <-> forallb (ok st) l = true.
Proof.
  intros Hok Hkept l. induction l as [|x l IH]; intros st.
  - simpl. split; [reflexivity | intros _; now exists st].
  - cbn [for_each forallb]. split.
    + intros [st' H]. apply bind_Ok in H as (st1 & H1 & H).
      apply andb_true_intro. split.
      * apply Hok. now exists st1.
      * rewrite <- (forallb_pointwise _ _ l (Hkept st x st1 H1)).
        apply IH. now exists st'.
    + intros H. apply andb_prop in H as [Hx Hl].
      apply Hok in Hx as [st1 H1]. rewrite H1. simpl.
      apply IH. now rewrite (forallb_pointwise _ _ l (Hkept st x st1 H1)).
Qed.

Lemma table_fields_kept_compose {X Y : Type} (proj : Table -> X) (g : X -> Y)
    (m m' : Model) :
  table_fields_kept proj m m' -> table_fields_kept (fun t => g (proj t)) m m'.
Proof.
  unfold table_fields_kept. intros H.
  apply (f_equal (map (fun kx => (fst kx, g (snd kx))))) in H.
  rewrite !map_map in H. exact H.
Qed.

Lemma dict_mem_kept {X : Type} (proj : Table -> X) (m m' : Model) (k : string) :
  table_fields_kept proj m m' -> dict_mem (tables m') k = dict_mem (tables m) k.
Proof.
  intros H. apply (table_fields_kept_get proj m m' k) in H. unfold dict_mem.
  destruct (dict_get (tables m') k), (dict_get (tables m) k);
    try discriminate; reflexivity.
Qed.

Lemma resolves_kept (m m' : Model) (k n : string) :
  table_fields_kept table_static m m' -> column_fields_kept column_static m m' ->
  resolves m' k n = resolves m k n.
Proof.
  intros Ht Hc. apply (table_fields_kept_get table_static m m' k) in Ht.
  unfold resolves, getColumn.
  destruct (dict_get (tables m') k) as [t'|], (dict_get (tables m) k) as [t|];
    try discriminate; [|reflexivity].
  simpl in Ht. injection Ht as _ _ _ Hcols. rewrite Hcols.
  rewrite (find_column_names m m'); [reflexivity|].
  intros a. specialize (Hc a). unfold column_static in Hc. now injection Hc.
Qed.

Lemma import_column_Ok_iff (m : Model) (row : ColumnRow) :
  (exists m', import_column m row = Ok m') <->
  (dict_mem (tables m) (cr_table row) && convertible (cr_type row))%bool = true.
Proof.
  unfold import_column, dict_index, dict_mem, convertible.
  destruct (dict_get (tables m) (cr_table row)) as [t|]; simpl.
  - destruct (convert_type (cr_type row)) as [ty|e]; simpl.
    + split; [reflexivity | intros _; eexists; reflexivity].
    + split; [intros [m' H]; discriminate | discriminate].
  - split; [intros [m' H]; discriminate | discriminate].
Qed.

Lemma import_unique_Ok_iff (m : Model) (row : UniqueRow) :
  (exists m', import_unique m row = Ok m') <->
  resolves m (ur_table row) (ur_column row) = true.
Proof.
  unfold import_unique, dict_index, resolves.
  destruct (dict_get (tables m) (ur_table row)) as [t|]; simpl.
  - destruct (getColumn m t (ur_column row)) as [a|].
    + split; [reflexivity | intros _; eexists; reflexivity].
    + split; [intros [m' H]; discriminate | discriminate].
  - split; [intros [m' H]; discriminate | discriminate].
Qed.

Lemma import_pk_Ok_iff (m : Model) (row : PkRow) :
  (exists m', import_pk m row = Ok m') <->
  (resolves m (pr_table row) (pr_column row)
   && Py.fits_ssize_t (pr_key_sequence row - 1))%bool = true.
Proof.
  unfold import_pk, dict_index, resolves, Py.insert.
  destruct (dict_get (tables m) (pr_table row)) as [t|]; simpl.
  - destruct (getColumn m t (pr_column row)) as [a|]; simpl.
    + destruct (Py.fits_ssize_t (pr_key_sequence row - 1)); simpl.
      * split; [reflexivity | intros _; eexists; reflexivity].
      * split; [intros [m' H]; discriminate | discriminate].
    + split; [intros [m' H]; discriminate | discriminate].
  - split; [intros [m' H]; discriminate | discriminate].
Qed.

Lemma import_fk_Ok_iff (m : Model) (row : FkRow) :
  (exists m', import_fk m row = Ok m') <->
  (dict_mem (tables m) (fr_pk_table row)
   && resolves m (fr_fk_table row) (fr_fk_column row))%bool = true.
Proof.
  unfold import_fk, dict_index, resolves, dict_mem.
  destruct (dict_get (tables m) (fr_pk_table row)) as [pkt|]; simpl.
  - destruct (dict_get (tables m) (fr_fk_table row)) as [fkt|]; simpl.
    + destruct (getColumn m fkt (fr_fk_column row)) as [a|].
      * split; [reflexivity|]. intros _.
        destruct (negb (String.eqb (fr_pk_schema row) (fr_fk_schema row)));
          eexists; reflexivity.
      * split; [|discriminate]. intros [m' H].
        destruct (negb (String.eqb (fr_pk_schema row) (fr_fk_schema row)));
          discriminate.
    + split; [intros [m' H]; discriminate | discriminate].
  - split; [intros [m' H]; discriminate | discriminate].
Qed.

Lemma import_columns_Ok_iff (rows : list ColumnRow) (m : Model) :
  (exists m', for_each import_column rows m = Ok m') <->
  forallb (fun r => (dict_mem (tables m) (cr_table r) && convertible (cr_type r))%bool)
          rows = true.
Proof.
  apply (for_each_Ok_iff import_column
           (fun st r => (dict_mem (tables st) (cr_table r)
                         && convertible (cr_type r))%bool)).
  - exact import_column_Ok_iff.
  - intros st x st' H y.
    now rewrite (dict_mem_kept table_header st st' _ (import_column_header st st' x H)).
Qed.

Lemma import_uniques_Ok_iff (rows : list UniqueRow) (m : Model) :
  (exists m', for_each import_unique rows m = Ok m') <->
  forallb (fun r => resolves m (ur_table r) (ur_column r)) rows = true.
Proof.
  apply (for_each_Ok_iff import_unique (fun st r => resolves st (ur_table r) (ur_column r))).
  - exact import_unique_Ok_iff.
  - intros st x st' H y. apply resolves_kept.
    + now apply (import_unique_table_static st st' x).
    + now apply (import_unique_column_static st st' x).
Qed.

Lemma import_pks_Ok_iff (rows : list PkRow) (m : Model) :
  (exists m', for_each import_pk rows m = Ok m') <->
  forallb (fun r => (resolves m (pr_table r) (pr_column r)
                     && Py.fits_ssize_t (pr_key_sequence r - 1))%bool) rows = true.
Proof.
  apply (for_each_Ok_iff import_pk
           (fun st r => (resolves st (pr_table r) (pr_column r)
                         && Py.fits_ssize_t (pr_key_sequence r - 1))%bool)).
  - exact import_pk_Ok_iff.
  - intros st x st' H y. f_equal. apply resolves_kept.
    + now apply (import_pk_table_static st st' x).
    + now apply (import_pk_column_static st st' x).
Qed.

Lemma import_fks_Ok_iff (rows : list FkRow) (m : Model) :
  (exists m', for_each import_fk rows m = Ok m') <->
  forallb (fun r => (dict_mem (tables m) (fr_pk_table r)
                     && resolves m (fr_fk_table r) (fr_fk_column r))%bool) rows = true.
Proof.
  apply (for_each_Ok_iff import_fk
           (fun st r => (dict_mem (tables st) (fr_pk_table r)
                         && resolves st (fr_fk_table r) (fr_fk_column r))%bool)).
  - exact import_fk_Ok_iff.
  - intros st x st' H y.
    rewrite (dict_mem_kept table_static st st' _ (import_fk_table_static st st' x H)).
    f_equal. apply resolves_kept.
    + now apply (import_fk_table_static st st' x).
    + now apply (import_fk_column_static st st' x).
Qed.

(** ** The model after the first two loops *)

Lemma import_tables_keys (cur : Cursor) (m1 : Model) :
  for_each import_table (show_tables cur) empty_model = Ok m1 ->
  heap m1 = [] /\
  forall k,
    if has_table cur k
    then exists t, dict_get (tables m1) k = Some t /\ fresh_table k t
    else dict_get (tables m1) k = None.
Proof.
  intros H. destruct (import_tables_fresh (show_tables cur) empty_model)
    as (m' & H' & Hh & _ & Hk).
  rewrite H in H'. injection H' as <-. split; [exact Hh|]. exact Hk.
Qed.

Lemma dict_mem_has_table (cur : Cursor) (m1 : Model) (k : string) :
  for_each import_table (show_tables cur) empty_model = Ok m1 ->
  dict_mem (tables m1) k = has_table cur k.
Proof.
  intros H. destruct (import_tables_keys cur m1 H) as [_ Hk]. specialize (Hk k).
  unfold dict_mem. destruct (has_table cur k).
  - destruct Hk as (t & -> & _). reflexivity.
  - now rewrite Hk.
Qed.

(** After the two loops, a table has the columns of its rows and no
    constraint. *)
Lemma after_columns (cur : Cursor) (m1 m2 : Model) :
  for_each import_table (show_tables cur) empty_model = Ok m1 ->
  for_each import_column (show_columns cur) m1 = Ok m2 ->
  forall k,
    match dict_get (tables m2) k with
    | Some t =>
        has_table cur k = true /\
        Forall2 (column_of_row m2)
                (filter (fun r => String.eqb (cr_table r) k) (show_columns cur))
                (columns t) /\
        t_name t = k /\ uniques t = [] /\ pks t = [] /\ fks t = []
    | None => has_table cur k = false
    end.
Proof.
  intros H1 H2 k.
  destruct (import_tables_keys cur m1 H1) as [_ Hk1]. specialize (Hk1 k).
  destruct (import_columns_spec _ _ _ H2) as (_ & _ & Hk2). specialize (Hk2 k).
  destruct (dict_get (tables m2) k) as [t'|].
  - destruct Hk2 as (t & news & Ht & Hc & Hh & Hu & Hp & Hf & Hall).
    destruct (has_table cur k); [|congruence].
    destruct Hk1 as (t0 & Ht0 & Hn & Hc0 & Hu0 & Hp0 & Hf0).
    rewrite Ht in Ht0. injection Ht0 as <-.
    rewrite Hc0 in Hc. simpl in Hc. rewrite Hc.
    unfold table_header in Hh. injection Hh as Hname _ _.
    repeat split; try congruence; try exact Hall.
  - destruct (has_table cur k); [|reflexivity].
    destruct Hk1 as (t0 & Ht0 & _). congruence.
Qed.

Lemma has_column_filter (cur : Cursor) (k n : string) :
  has_column cur k n = true <->
  In n (map cr_name (filter (fun r => String.eqb (cr_table r) k) (show_columns cur))).
Proof.
  unfold has_column. induction (show_columns cur) as [|r rows IH]; simpl.
  - split; [discriminate | intros []].
  - destruct (String.eqb (cr_table r) k); simpl.
    + destruct (String.eqb_spec (cr_name r) n) as [He|Hne].
      * split; [now left | reflexivity].
      * rewrite IH. split; [now right | intros [H|H]; [contradiction | exact H]].
    + exact IH.
Qed.

(** After the two loops, the columns that are found are those that the
    rows list. *)
Lemma resolves_has_column (cur : Cursor) (m1 m2 : Model) (k n : string) :
  for_each import_table (show_tables cur) empty_model = Ok m1 ->
  for_each import_column (show_columns cur) m1 = Ok m2 ->
  resolves m2 k n = has_column cur k n.
Proof.
  intros H1 H2. pose proof (after_columns cur m1 m2 H1 H2 k) as Hk.
  apply Bool.eq_true_iff_eq. rewrite has_column_filter. unfold resolves, getColumn.
  destruct (dict_get (tables m2) k) as [t|].
  - destruct Hk as (_ & Hall & _).
    rewrite <- (Forall2_column_names m2 _ _ Hall), <- find_column_Some_iff.
    destruct (find_column m2 (columns t) n) as [a|].
    + split; [intros _; now exists a | reflexivity].
    + split; [discriminate | intros [a H]; discriminate].
  - split; [discriminate|]. intros Hin. exfalso.
    apply in_map_iff in Hin as (r & _ & Hr). apply filter_In in Hr as [Hr Hrk].
    apply String.eqb_eq in Hrk.
    assert (Hok : exists m', for_each import_column (show_columns cur) m1 = Ok m')
      by now exists m2.
    apply import_columns_Ok_iff in Hok.
    rewrite forallb_forall in Hok. specialize (Hok r Hr).
    apply andb_prop in Hok as [Hok _].
    rewrite (dict_mem_has_table cur m1 _ H1), Hrk in Hok. congruence.
Qed.

(** ** When the import succeeds *)

(** The import succeeds exactly on a consistent catalog. *)
Lemma importMetadata_Ok_iff (cur : Cursor) :
  (exists m, importMetadata empty_model cur = Ok m) <-> catalog_consistent cur = true.
Proof.
  unfold importMetadata, catalog_consistent.
  destruct (import_tables_fresh (show_tables cur) empty_model) as (m1 & H1 & _).
  rewrite H1. cbn [bind].
  assert (Hcols : (exists m2, for_each import_column (show_columns cur) m1 = Ok m2) <->
                  forallb (fun r => (has_table cur (cr_table r)
                                     && convertible (cr_type r))%bool)
                          (show_columns cur) = true).
  { rewrite import_columns_Ok_iff.
    rewrite (forallb_pointwise _ (fun r => (has_table cur (cr_table r)
                                            && convertible (cr_type r))%bool));
      [reflexivity|].
    intros r. now rewrite (dict_mem_has_table cur m1 _ H1). }
  split.
  - intros [m H].
    apply bind_Ok in H as (m2 & H2 & H). apply bind_Ok in H as (m3 & H3 & H).
    apply bind_Ok in H as (m4 & H4 & H5).
    destruct (import_uniques_static _ _ _ H3) as [Ht3 Hc3].
    destruct (import_pks_static _ _ _ H4) as [Ht4 Hc4].
    repeat (apply andb_true_intro; split).
    + apply Hcols. now exists m2.
    + rewrite <- (forallb_pointwise
                    (fun r => resolves m2 (ur_table r) (ur_column r)) _ _
                    (fun r => resolves_has_column cur m1 m2 _ _ H1 H2)).
      apply import_uniques_Ok_iff. now exists m3.
    + rewrite <- (forallb_pointwise
                    (fun r => (resolves m3 (pr_table r) (pr_column r)
                               && Py.fits_ssize_t (pr_key_sequence r - 1))%bool) _ _
                    (fun r => f_equal (fun b => (b && _)%bool)
                                (eq_trans (resolves_kept m2 m3 _ _ Ht3 Hc3)
                                          (resolves_has_column cur m1 m2 _ _ H1 H2)))).
      apply import_pks_Ok_iff. now exists m4.
    + assert (Ht : table_fields_kept table_static m2 m4)
        by (eapply table_fields_kept_trans; eassumption).
      assert (Hc : column_fields_kept column_static m2 m4)
        by (eapply column_fields_kept_trans; eassumption).
      assert (Hok : exists m', for_each import_fk (show_imported_keys cur) m4 = Ok m')
        by now exists m.
      apply import_fks_Ok_iff in Hok.
      rewrite <- Hok. apply forallb_pointwise. intros r.
      rewrite (resolves_kept m2 m4 _ _ Ht Hc),
              (resolves_has_column cur m1 m2 _ _ H1 H2).
      rewrite (dict_mem_kept table_static m2 m4 _ Ht).
      assert (Hh : table_fields_kept table_header m1 m2).
      { exact (for_each_relation import_column (table_fields_kept table_header)
                 (table_fields_kept_refl _) (table_fields_kept_trans _)
                 (fun s x s' => import_column_header s s' x) _ _ _ H2). }
      now rewrite (dict_mem_kept table_header m1 m2 _ Hh),
                  (dict_mem_has_table cur m1 _ H1).
  - intros H. apply andb_prop in H as [H Hfk]. apply andb_prop in H as [H Hpk].
    apply andb_prop in H as [Hc Hu].
    apply Hcols in Hc as [m2 H2]. rewrite H2. cbn [bind].
    rewrite (forallb_pointwise _
               (fun r => resolves m2 (ur_table r) (ur_column r))) in Hu
      by (intros r; symmetry; exact (resolves_has_column cur m1 m2 _ _ H1 H2)).
    apply import_uniques_Ok_iff in Hu as [m3 H3]. rewrite H3. cbn [bind].
    destruct (import_uniques_static _ _ _ H3) as [Ht3 Hc3].
    rewrite (forallb_pointwise _
               (fun r => (resolves m3 (pr_table r) (pr_column r)
                          && Py.fits_ssize_t (pr_key_sequence r - 1))%bool)) in Hpk
      by (intros r; symmetry; f_equal;
          exact (eq_trans (resolves_kept m2 m3 _ _ Ht3 Hc3)
                          (resolves_has_column cur m1 m2 _ _ H1 H2))).
    apply import_pks_Ok_iff in Hpk as [m4 H4]. rewrite H4. cbn [bind].
    destruct (import_pks_static _ _ _ H4) as [Ht4 Hc4].
    assert (Ht : table_fields_kept table_static m2 m4)
      by (eapply table_fields_kept_trans; eassumption).
    assert (Hc : column_fields_kept column_static m2 m4)
      by (eapply column_fields_kept_trans; eassumption).
    assert (Hh : table_fields_kept table_header m1 m2).
    { exact (for_each_relation import_column (table_fields_kept table_header)
               (table_fields_kept_refl _) (table_fields_kept_trans _)
               (fun s x s' => import_column_header s s' x) _ _ _ H2). }
    apply import_fks_Ok_iff. rewrite <- Hfk. apply forallb_pointwise. intros r.
    rewrite (resolves_kept m2 m4 _ _ Ht Hc),
            (resolves_has_column cur m1 m2 _ _ H1 H2).
    rewrite (dict_mem_kept table_static m2 m4 _ Ht).
    now rewrite (dict_mem_kept table_header m1 m2 _ Hh),
                (dict_mem_has_table cur m1 _ H1).
Qed.

(** ** The phases of the import *)

Lemma import_phases (cur : Cursor) (m : Model) :
  importMetadata empty_model cur = Ok m ->
  exists m1 m2 m3 m4,
    for_each import_table (show_tables cur) empty_model = Ok m1 /\
    for_each import_column (show_columns cur) m1 = Ok m2 /\
    for_each import_unique (show_unique_keys cur) m2 = Ok m3 /\
    for_each import_pk (show_primary_keys cur) m3 = Ok m4 /\
    for_each import_fk (show_imported_keys cur) m4 = Ok m.
Proof.
  unfold importMetadata. intros H.
  apply bind_Ok in H as (m1 & H1 & H). apply bind_Ok in H as (m2 & H2 & H).
  apply bind_Ok in H as (m3 & H3 & H). apply bind_Ok in H as (m4 & H4 & H5).
  now exists m1, m2, m3, m4.
Qed.

(** A loop over keys keeps every attribute of the tables but the one it
    fills. *)
Lemma import_uniques_table_kept {X : Type} (proj : Table -> X)
    (rows : list UniqueRow) (m m' : Model) :
  (forall t u, proj (set_uniques t u) = proj t) ->
  for_each import_unique rows m = Ok m' -> table_fields_kept proj m m'.
Proof.
  intros Hp. apply (for_each_relation import_unique (table_fields_kept proj)
                      (table_fields_kept_refl _) (table_fields_kept_trans _)).
  intros st x st' H. apply import_unique_inv in H as (t & a & Ht & _ & ->).
  apply (update_table_kept proj st (ur_table x) t); [exact Ht | apply Hp].
Qed.

Lemma import_pks_table_kept {X : Type} (proj : Table -> X)
    (rows : list PkRow) (m m' : Model) :
  (forall t l, proj (set_pks t l) = proj t) ->
  for_each import_pk rows m = Ok m' -> table_fields_kept proj m m'.
Proof.
  intros Hp. apply (for_each_relation import_pk (table_fields_kept proj)
                      (table_fields_kept_refl _) (table_fields_kept_trans _)).
  intros st x st' H. apply import_pk_inv in H as (t & a & Ht & _ & ->).
  apply (update_table_kept proj st (pr_table x) t _ a set_ispk); [exact Ht | apply Hp].
Qed.

Lemma import_fks_table_kept {X : Type} (proj : Table -> X)
    (rows : list FkRow) (m m' : Model) :
  (forall t f, proj (set_fks t f) = proj t) ->
  for_each import_fk rows m = Ok m' -> table_fields_kept proj m m'.
Proof.
  intros Hp. apply (for_each_relation import_fk (table_fields_kept proj)
                      (table_fields_kept_refl _) (table_fields_kept_trans _)).
  intros st x st' H.
  apply import_fk_inv in H as (pkt & fkt & a & _ & Hf & _ & [[_ ->]|[_ ->]]).
  - reflexivity.
  - apply (update_table_kept proj st (fr_fk_table x) fkt); [exact Hf | apply Hp].
Qed.

Lemma import_columns_header (rows : list ColumnRow) (m m' : Model) :
  for_each import_column rows m = Ok m' -> table_fields_kept table_header m m'.
Proof.
  exact (for_each_relation import_column (table_fields_kept table_header)
           (table_fields_kept_refl _) (table_fields_kept_trans _)
           (fun s x s' => import_column_header s s' x) rows m m').
Qed.

(** After the first two loops, nothing changes the tables but for their
    constraints, nor the columns but for their marks. *)
Lemma import_static_after_columns (cur : Cursor) (m2 m3 m4 m : Model) :
  for_each import_unique (show_unique_keys cur) m2 = Ok m3 ->
  for_each import_pk (show_primary_keys cur) m3 = Ok m4 ->
  for_each import_fk (show_imported_keys cur) m4 = Ok m ->
  table_fields_kept table_static m2 m /\ column_fields_kept column_static m2 m.
Proof.
  intros H3 H4 H5.
  destruct (import_uniques_static _ _ _ H3) as [Ht3 Hc3].
  destruct (import_pks_static _ _ _ H4) as [Ht4 Hc4].
  destruct (import_fks_static _ _ _ H5) as [Ht5 Hc5].
  split.
  - eapply table_fields_kept_trans; [|exact Ht5].
    eapply table_fields_kept_trans; eassumption.
  - eapply column_fields_kept_trans; [|exact Hc5].
    eapply column_fields_kept_trans; eassumption.
Qed.

Lemma column_of_row_kept (m m' : Model) (r : ColumnRow) (a : addr) :
  column_static (deref m' a) = column_static (deref m a) ->
  column_of_row m r a -> column_of_row m' r a.
Proof.
  unfold column_static, column_of_row. intros H. injection H as -> -> -> -> -> ->.
  auto.
Qed.

(** X13: the columns of a table are those that the rows of [show columns]
    describe for it, in the order of the rows: each has the name, the
    comment, the nullability, the identity mark and the converted data type
    of its row. *)
Theorem import_columns_in_order (cur : Cursor) (m : Model) (k : string) (t : Table) :
  importMetadata empty_model cur = Ok m ->
  dict_get (tables m) k = Some t ->
  Forall2 (column_of_row m)
          (filter (fun r => String.eqb (cr_table r) k) (show_columns cur))
          (columns t).
Proof.
  intros H Hk. apply import_phases in H as (m1 & m2 & m3 & m4 & H1 & H2 & H3 & H4 & H5).
  destruct (import_static_after_columns cur m2 m3 m4 m H3 H4 H5) as [Ht Hc].
  pose proof (after_columns cur m1 m2 H1 H2 k) as H12.
  apply (table_fields_kept_get table_static m2 m k) in Ht. rewrite Hk in Ht.
  destruct (dict_get (tables m2) k) as [t2|]; [|discriminate].
  simpl in Ht. injection Ht as _ _ _ Hcols. rewrite Hcols.
  destruct H12 as (_ & Hall & _).
  eapply Forall2_impl; [|exact Hall].
  intros r a Hra. apply (column_of_row_kept m2 m); [apply Hc | exact Hra].
Qed.

Lemma import_columns_in_order_witness :
  Forall2 (column_of_row shop_model)
          (filter (fun r => String.eqb (cr_table r) "ORDER_LINES") (show_columns shop_cursor))
          (columns (table_at shop_model "ORDER_LINES")).
Proof.
  apply (import_columns_in_order shop_cursor shop_model "ORDER_LINES"
           (table_at shop_model "ORDER_LINES")); reflexivity.
Defined.

(** X12: when the names of [show tables] are all different, the tables
    are those of the rows, in their order, each with the name and the
    comment of its row and with its rank as label: n1, n2, and so on. *)
Theorem import_tables_labels (cur : Cursor) (m : Model) :
  NoDup (map tr_name (show_tables cur)) ->
  importMetadata empty_model cur = Ok m ->
  map (fun kt => (fst kt, table_header (snd kt))) (tables m) =
  map (fun ir => (tr_name (snd ir),
                  (tr_name (snd ir), tr_comment (snd ir),
                   "n" ++ Py.str (Z.of_nat (fst ir)))))
      (combine (seq 1 (List.length (show_tables cur))) (show_tables cur)).
Proof.
  intros Hnd H.
  apply import_phases in H as (m1 & m2 & m3 & m4 & H1 & H2 & H3 & H4 & H5).
  destruct (import_static_after_columns cur m2 m3 m4 m H3 H4 H5) as [Ht _].
  apply (table_fields_kept_compose table_static
           (fun x => (fst (fst (fst x)), snd (fst (fst x)), snd (fst x)))) in Ht.
  pose proof (import_columns_header _ _ _ H2) as Hh.
  change (table_fields_kept table_header m2 m) in Ht.
  pose proof (table_fields_kept_trans _ _ _ _ Hh Ht) as Hall.
  unfold table_fields_kept in Hall. rewrite Hall.
  rewrite (import_tables_numbered (show_tables cur) empty_model m1 Hnd
             (fun r _ => eq_refl) H1).
  simpl. rewrite map_map. reflexivity.
Qed.

Lemma import_tables_labels_witness :
  map (fun kt => (fst kt, label (snd kt))) (tables shop_model) =
  [("CUSTOMERS", "n1"); ("ORDERS", "n2"); ("ORDER_LINES", "n3")].
Proof.
  pose proof (import_tables_labels shop_cursor shop_model) as H.
  apply (f_equal (map (fun x => (fst x, snd (snd x))))) in H.
  - rewrite map_map in H. exact H.
  - repeat constructor; simpl; intuition discriminate.
  - reflexivity.
Defined.

(** ** The primary key of a table *)

Lemma insert_length {A : Type} (l : list A) (i : Z) (x : A) :
  List.length (Py.insert_at l i x) = S (List.length l).
Proof.
  unfold Py.insert_at.
  set (n := Z.to_nat (if i <? 0 then Z.max 0 (i + Z.of_nat (List.length l))
                      else Z.min i (Z.of_nat (List.length l)))).
  rewrite length_app. cbn [List.length].
  rewrite Nat.add_succ_r, <- length_app, firstn_skipn. reflexivity.
Qed.

(** The loop adds one entry to the primary key of a table for each of its
    rows, and leaves the other constraints. *)
Lemma import_pks_count (rows : list PkRow) (m m' : Model) :
  for_each import_pk rows m = Ok m' ->
  forall k t', dict_get (tables m') k = Some t' ->
    exists t, dict_get (tables m) k = Some t /\
      List.length (pks t') =
      (List.length (pks t)
       + List.length (filter (fun r => String.eqb (pr_table r) k) rows))%nat.
Proof.
  revert m. induction rows as [|r rows IH]; intros m H k t' Hk.
  - simpl in H. injection H as <-. exists t'. simpl. split; [exact Hk | lia].
  - cbn [for_each] in H. apply bind_Ok in H as (m1 & H1 & H).
    destruct (IH m1 H k t' Hk) as (t1 & Ht1 & Hlen).
    apply import_pk_inv in H1 as (table & a & Ht & _ & ->).
    simpl in Ht1. rewrite dict_get_set in Ht1. cbn [filter].
    destruct (String.eqb_spec (pr_table r) k) as [E|Hne].
    + injection Ht1 as <-. exists table. rewrite <- E. split; [exact Ht|].
      rewrite Hlen. cbn [pks set_pks]. rewrite insert_length. simpl.
      rewrite E. lia.
    + exists t1. split; [exact Ht1 | exact Hlen].
Qed.

(** Rows that arrive first position first are put at the end, one after
    the other. *)
Lemma import_pks_in_sequence (rows seen : list PkRow) (m m' : Model) :
  in_sequence seen rows = true ->
  (forall k t, dict_get (tables m) k = Some t ->
     List.length (pks t)
     = List.length (filter (fun r => String.eqb (pr_table r) k) seen)) ->
  for_each import_pk rows m = Ok m' ->
  forall k t', dict_get (tables m') k = Some t' ->
    exists t news,
      dict_get (tables m) k = Some t /\ pks t' = (pks t ++ news)%list /\
      Forall2 (fun r a => c_name (deref m a) = pr_column r)
              (filter (fun r => String.eqb (pr_table r) k) rows) news.
Proof.
  revert seen m. induction rows as [|r rows IH]; intros seen m Hseq Hinv H k t' Hk.
  - simpl in H. injection H as <-. exists t', []. rewrite app_nil_r.
    repeat split; [exact Hk | constructor].
  - cbn [for_each] in H. apply bind_Ok in H as (m1 & H1 & H).
    cbn [in_sequence] in Hseq. apply andb_prop in Hseq as [Hpos Hseq].
    apply Z.eqb_eq in Hpos.
    pose proof (import_pk_column_static m m1 r H1) as Hstatic.
    apply import_pk_inv in H1 as (table & a & Ht & Ha & Hm1).
    assert (Hins : Py.insert_at (pks table) (pr_key_sequence r - 1) a
                   = (pks table ++ [a])%list).
    { rewrite <- insert_at_end. f_equal.
      rewrite (Hinv _ _ Ht), Hpos. lia. }
    rewrite Hins in Hm1.
    assert (Hinv1 : forall k0 t0, dict_get (tables m1) k0 = Some t0 ->
              List.length (pks t0)
              = List.length (filter (fun r' => String.eqb (pr_table r') k0)
                                    (seen ++ [r]))).
    { intros k0 t0 Hk0. rewrite Hm1 in Hk0. simpl in Hk0.
      rewrite dict_get_set in Hk0. rewrite filter_app, length_app. cbn [filter].
      destruct (String.eqb_spec (pr_table r) k0) as [E|Hne].
      - injection Hk0 as <-. cbn [pks set_pks]. rewrite length_app. simpl.
        rewrite <- E. now rewrite (Hinv _ _ Ht).
      - simpl. rewrite (Hinv _ _ Hk0). lia. }
    destruct (IH (seen ++ [r])%list m1 Hseq Hinv1 H k t' Hk)
      as (t1 & news & Ht1 & Hpks & Hall).
    assert (Hall' : Forall2 (fun r0 a0 => c_name (deref m a0) = pr_column r0)
                      (filter (fun r0 => String.eqb (pr_table r0) k) rows) news).
    { eapply Forall2_impl; [|exact Hall]. intros r0 a0 Hn. simpl in Hn.
      rewrite <- Hn. specialize (Hstatic a0). unfold column_static in Hstatic.
      injection Hstatic as _ Hname _ _ _ _. now rewrite Hname. }
    rewrite Hm1 in Ht1. simpl in Ht1. rewrite dict_get_set in Ht1. cbn [filter].
    destruct (String.eqb_spec (pr_table r) k) as [E|Hne].
    + injection Ht1 as <-. exists table, (a :: news). rewrite <- E.
      split; [exact Ht|]. split.
      * rewrite Hpks. cbn [pks set_pks]. now rewrite <- app_assoc.
      * constructor; [|now rewrite E].
        apply find_column_In in Ha. apply Ha.
    + exists t1, news. repeat split; assumption.
Qed.

(** Before the loop over the primary keys, no table has one. *)
Lemma no_pks_before (cur : Cursor) (m1 m2 m3 : Model) (k : string) (t : Table) :
  for_each import_table (show_tables cur) empty_model = Ok m1 ->
  for_each import_column (show_columns cur) m1 = Ok m2 ->
  for_each import_unique (show_unique_keys cur) m2 = Ok m3 ->
  dict_get (tables m3) k = Some t -> pks t = [].
Proof.
  intros H1 H2 H3 Hk.
  pose proof (import_uniques_table_kept pks _ _ _ (fun t u => eq_refl) H3) as Hp.
  apply (table_fields_kept_get pks m2 m3 k) in Hp. rewrite Hk in Hp.
  pose proof (after_columns cur m1 m2 H1 H2 k) as H12.
  destruct (dict_get (tables m2) k) as [t2|]; [|discriminate].
  simpl in Hp. injection Hp as ->. apply H12.
Qed.

(** X10: a table has as many entries in [pks] as [show primary keys] has
    rows for it, in whatever order the rows arrive. *)
Theorem import_pks_length (cur : Cursor) (m : Model) (k : string) (t : Table) :
  importMetadata empty_model cur = Ok m ->
  dict_get (tables m) k = Some t ->
  List.length (pks t)
  = List.length (filter (fun r => String.eqb (pr_table r) k) (show_primary_keys cur)).
Proof.
  intros H Hk. apply import_phases in H as (m1 & m2 & m3 & m4 & H1 & H2 & H3 & H4 & H5).
  pose proof (import_fks_table_kept pks _ _ _ (fun t f => eq_refl) H5) as Hp.
  apply (table_fields_kept_get pks m4 m k) in Hp. rewrite Hk in Hp.
  destruct (dict_get (tables m4) k) as [t4|] eqn:E4; [|discriminate].
  simpl in Hp. injection Hp as Hp. rewrite Hp.
  destruct (import_pks_count _ _ _ H4 k t4 E4) as (t3 & Ht3 & Hlen).
  rewrite Hlen, (no_pks_before cur m1 m2 m3 k t3 H1 H2 H3 Ht3). reflexivity.
Qed.

Lemma import_pks_length_witness :
  List.length (pks (table_at shop_model "ORDER_LINES")) = 2%nat.
Proof.
  apply (import_pks_length shop_cursor shop_model "ORDER_LINES"
           (table_at shop_model "ORDER_LINES")); reflexivity.
Defined.

(** X11: when the primary key rows of every table arrive first position
    first, [pks] lists the columns of the key in the order of their
    positions. *)
Theorem import_pks_in_order (cur : Cursor) (m : Model) (k : string) (t : Table) :
  in_sequence [] (show_primary_keys cur) = true ->
  importMetadata empty_model cur = Ok m ->
  dict_get (tables m) k = Some t ->
  map (fun a => c_name (deref m a)) (pks t)
  = map pr_column (filter (fun r => String.eqb (pr_table r) k) (show_primary_keys cur)).
Proof.
  intros Hseq H Hk.
  apply import_phases in H as (m1 & m2 & m3 & m4 & H1 & H2 & H3 & H4 & H5).
  pose proof (import_fks_table_kept pks _ _ _ (fun t f => eq_refl) H5) as Hp.
  apply (table_fields_kept_get pks m4 m k) in Hp. rewrite Hk in Hp.
  destruct (dict_get (tables m4) k) as [t4|] eqn:E4; [|discriminate].
  simpl in Hp. injection Hp as Hp. rewrite Hp.
  assert (Hinv : forall k0 t0, dict_get (tables m3) k0 = Some t0 ->
            List.length (pks t0)
            = List.length (filter (fun r => String.eqb (pr_table r) k0) [])).
  { intros k0 t0 Hk0. now rewrite (no_pks_before cur m1 m2 m3 k0 t0 H1 H2 H3 Hk0). }
  destruct (import_pks_in_sequence _ [] m3 m4 Hseq Hinv H4 k t4 E4)
    as (t3 & news & Ht3 & Hpks & Hall).
  rewrite Hpks, (no_pks_before cur m1 m2 m3 k t3 H1 H2 H3 Ht3). simpl.
  destruct (import_pks_static _ _ _ H4) as [_ Hc4].
  destruct (import_fks_static _ _ _ H5) as [_ Hc5].
  clear - Hall Hc4 Hc5. induction Hall as [|r a rows news Hra _ IH]; simpl.
  - reflexivity.
  - rewrite IH. f_equal. rewrite <- Hra.
    specialize (Hc4 a). specialize (Hc5 a). unfold column_static in *.
    injection Hc4 as _ H4 _ _ _ _. injection Hc5 as _ H5 _ _ _ _. congruence.
Qed.

Lemma import_pks_in_order_witness :
  map (fun a => c_name (deref shop_model a)) (pks (table_at shop_model "ORDER_LINES"))
  = ["ORDER_ID"; "LINE_NO"].
Proof.
  apply (import_pks_in_order shop_cursor shop_model "ORDER_LINES"
           (table_at shop_model "ORDER_LINES")); reflexivity.
Defined.

(** ** Columns and their tables *)

Lemma import_uniques_column_kept {X : Type} (proj : Column -> X)
    (rows : list UniqueRow) (m m' : Model) :
  (forall c, proj (set_isunique c) = proj c) ->
  for_each import_unique rows m = Ok m' -> column_fields_kept proj m m'.
Proof.
  intros Hp. apply (for_each_relation import_unique (column_fields_kept proj)
                      (column_fields_kept_refl _) (column_fields_kept_trans _)).
  intros st x st' H. apply import_unique_inv in H as (t & a & _ & _ & ->).
  now apply update_column_kept.
Qed.

Lemma import_fks_column_kept {X : Type} (proj : Column -> X)
    (rows : list FkRow) (m m' : Model) :
  (forall p c, proj (set_fkof p c) = proj c) ->
  for_each import_fk rows m = Ok m' -> column_fields_kept proj m m'.
Proof.
  intros Hp. apply (for_each_relation import_fk (column_fields_kept proj)
                      (column_fields_kept_refl _) (column_fields_kept_trans _)).
  intros st x st' H.
  apply import_fk_inv in H as (pkt & fkt & a & _ & _ & _ & [[_ ->]|[_ ->]]).
  - intros b. reflexivity.
  - apply update_column_kept. apply Hp.
Qed.

(** The loops over the keys allocate nothing. *)
Lemma import_unique_heap_length (m m' : Model) (row : UniqueRow) :
  import_unique m row = Ok m' -> List.length (heap m') = List.length (heap m).
Proof.
  intros H. apply import_unique_inv in H as (t & a & _ & _ & ->).
  simpl. apply list_update_length.
Qed.

Lemma import_pk_heap_length (m m' : Model) (row : PkRow) :
  import_pk m row = Ok m' -> List.length (heap m') = List.length (heap m).
Proof.
  intros H. apply import_pk_inv in H as (t & a & _ & _ & ->).
  simpl. apply list_update_length.
Qed.

Lemma import_fk_heap_length (m m' : Model) (row : FkRow) :
  import_fk m row = Ok m' -> List.length (heap m') = List.length (heap m).
Proof.
  intros H.
  apply import_fk_inv in H as (pkt & fkt & a & _ & _ & _ & [[_ ->]|[_ ->]]).
  - reflexivity.
  - simpl. apply list_update_length.
Qed.

Lemma heap_length_after_columns (cur : Cursor) (m2 m3 m4 m : Model) :
  for_each import_unique (show_unique_keys cur) m2 = Ok m3 ->
  for_each import_pk (show_primary_keys cur) m3 = Ok m4 ->
  for_each import_fk (show_imported_keys cur) m4 = Ok m ->
  List.length (heap m) = List.length (heap m2).
Proof.
  intros H3 H4 H5.
  assert (R3 : List.length (heap m3) = List.length (heap m2)).
  { apply (for_each_relation import_unique
             (fun s s' => List.length (heap s') = List.length (heap s))
             (fun s => eq_refl) (fun s1 s2 s3 E1 E2 => eq_trans E2 E1)
             (fun s x s' => import_unique_heap_length s s' x) _ _ _ H3). }
  assert (R4 : List.length (heap m4) = List.length (heap m3)).
  { apply (for_each_relation import_pk
             (fun s s' => List.length (heap s') = List.length (heap s))
             (fun s => eq_refl) (fun s1 s2 s3 E1 E2 => eq_trans E2 E1)
             (fun s x s' => import_pk_heap_length s s' x) _ _ _ H4). }
  assert (R5 : List.length (heap m) = List.length (heap m4)).
  { apply (for_each_relation import_fk
             (fun s s' => List.length (heap s') = List.length (heap s))
             (fun s => eq_refl) (fun s1 s2 s3 E1 E2 => eq_trans E2 E1)
             (fun s x s' => import_fk_heap_length s s' x) _ _ _ H5). }
  congruence.
Qed.

Lemma columns_listed_import_column (m m' : Model) (row : ColumnRow) :
  import_column m row = Ok m' -> columns_listed m -> columns_listed m'.
Proof.
  intros H Hinv.
  apply import_column_inv in H as (table & ty & Ht & _ & Htabs & Hheap & _).
  intros a Ha. rewrite Hheap, length_app in Ha. simpl in Ha.
  rewrite Htabs. destruct (Nat.eq_dec a (List.length (heap m))) as [->|Hne].
  - unfold deref. rewrite Hheap, app_nth2, Nat.sub_diag by lia. cbn.
    rewrite dict_get_set_same. eexists. split; [reflexivity|].
    cbn. apply in_or_app. right. now left.
  - assert (Hlt : (a < List.length (heap m))%nat) by lia.
    assert (Hd : deref m' a = deref m a).
    { unfold deref. rewrite Hheap. now apply app_nth1. }
    rewrite Hd. destruct (Hinv a Hlt) as (t & Hget & Hin).
    rewrite dict_get_set.
    destruct (String.eqb_spec (cr_table row) (c_table (deref m a))) as [E|_].
    + eexists. split; [reflexivity|]. cbn. apply in_or_app. left.
      rewrite <- E, Ht in Hget. now injection Hget as ->.
    + now exists t.
Qed.

(** Every column that import allocates is listed by its table. *)
Lemma columns_listed_import (cur : Cursor) (m : Model) :
  importMetadata empty_model cur = Ok m -> columns_listed m.
Proof.
  intros H. apply import_phases in H as (m1 & m2 & m3 & m4 & H1 & H2 & H3 & H4 & H5).
  assert (L2 : columns_listed m2).
  { apply (for_each_invariant _ columns_listed
             (fun s x s' => columns_listed_import_column s s' x) _ _ _ H2).
    destruct (import_tables_keys cur m1 H1) as [Hh _].
    intros a Ha. rewrite Hh in Ha. simpl in Ha. lia. }
  destruct (import_static_after_columns cur m2 m3 m4 m H3 H4 H5) as [Ht Hc].
  intros a Ha. rewrite (heap_length_after_columns cur m2 m3 m4 m H3 H4 H5) in Ha.
  destruct (L2 a Ha) as (t2 & Hget & Hin).
  pose proof (Hc a) as Hs. unfold column_static in Hs. injection Hs as Htab _ _ _ _ _.
  rewrite Htab.
  apply (table_fields_kept_get table_static m2 m (c_table (deref m2 a))) in Ht.
  rewrite Hget in Ht.
  destruct (dict_get (tables m) (c_table (deref m2 a))) as [t|]; [|discriminate].
  simpl in Ht. injection Ht as _ _ _ Hcols. exists t. split; [reflexivity|].
  now rewrite Hcols.
Qed.

(** X8: after import, the columns of a table are exactly the allocated
    columns whose [table] is that table: the back reference of a column
    and the list of its table agree, and no column is in two tables. *)
Theorem import_columns_owned (cur : Cursor) (m : Model) (k : string) (t : Table)
    (a : addr) :
  importMetadata empty_model cur = Ok m ->
  dict_get (tables m) k = Some t ->
  (In a (columns t) <->
   (a < List.length (heap m))%nat /\ c_table (deref m a) = k).
Proof.
  intros H Hk. split.
  - intros Ha. now apply (wf_importMetadata _ _ _ H wf_empty_model k t Hk).
  - intros [Hlt Htab].
    destruct (columns_listed_import cur m H a Hlt) as (t' & Hget & Hin).
    rewrite Htab, Hk in Hget. now injection Hget as ->.
Qed.

Lemma import_columns_owned_witness :
  In 3%nat (columns (table_at shop_model "ORDERS")) <->
  (3 < List.length (heap shop_model))%nat /\ c_table (deref shop_model 3%nat) = "ORDERS".
Proof.
  apply (import_columns_owned shop_cursor shop_model "ORDERS"
           (table_at shop_model "ORDERS") 3%nat); reflexivity.
Defined.

Lemma pks_listed_kept (m m' : Model) :
  table_fields_kept pks m m' ->
  column_fields_kept (fun c => (c_table c, ispk c)) m m' ->
  pks_listed m -> pks_listed m'.
Proof.
  intros Ht Hc Hinv a Ha. specialize (Hc a). simpl in Hc. injection Hc as Htab Hpk.
  rewrite Hpk in Ha. destruct (Hinv a Ha) as (t & Hget & Hin).
  rewrite Htab. apply (table_fields_kept_get pks m m' (c_table (deref m a))) in Ht.
  rewrite Hget in Ht.
  destruct (dict_get (tables m') (c_table (deref m a))) as [t'|]; [|discriminate].
  simpl in Ht. injection Ht as Hp. exists t'. split; [reflexivity | now rewrite Hp].
Qed.

Lemma pks_listed_import_column (m m' : Model) (row : ColumnRow) :
  import_column m row = Ok m' -> pks_listed m -> pks_listed m'.
Proof.
  intros H Hinv.
  apply import_column_inv in H as (table & ty & Ht & _ & Htabs & Hheap & _).
  intros a Ha.
  assert (Hlt : (a < List.length (heap m))%nat).
  { destruct (Nat.lt_ge_cases a (List.length (heap m))) as [|Hge]; [assumption|].
    exfalso. unfold deref in Ha. rewrite Hheap, app_nth2 in Ha by exact Hge.
    destruct (a - List.length (heap m))%nat as [|[|n]]; discriminate. }
  assert (Hd : deref m' a = deref m a).
  { unfold deref. rewrite Hheap. now apply app_nth1. }
  rewrite Hd in *. destruct (Hinv a Ha) as (t & Hget & Hin).
  rewrite Htabs, dict_get_set.
  destruct (String.eqb_spec (cr_table row) (c_table (deref m a))) as [E|_].
  - eexists. split; [reflexivity|]. cbn.
    rewrite <- E, Ht in Hget. now injection Hget as ->.
  - now exists t.
Qed.

Lemma in_insert_old {A : Type} (l : list A) (i : Z) (x y : A) :
  In y l -> In y (Py.insert_at l i x).
Proof.
  unfold Py.insert_at.
  set (n := Z.to_nat (if i <? 0 then Z.max 0 (i + Z.of_nat (List.length l))
                      else Z.min i (Z.of_nat (List.length l)))).
  intros H. rewrite <- (firstn_skipn n l) in H.
  apply in_app_or in H as [H|H]; apply in_or_app; [now left | right; now right].
Qed.

Lemma in_insert_new {A : Type} (l : list A) (i : Z) (x : A) : In x (Py.insert_at l i x).
Proof. unfold Py.insert_at. apply in_or_app. right. now left. Qed.

Lemma pks_listed_import_pk (m m' : Model) (row : PkRow) :
  wf_model m -> import_pk m row = Ok m' -> pks_listed m -> pks_listed m'.
Proof.
  intros Hwf H Hinv. apply import_pk_inv in H as (table & a & Ht & Ha & ->).
  apply find_column_In in Ha as [Hin _].
  destruct (Hwf _ _ Ht) as [Hcols _]. destruct (Hcols a Hin) as [Hlt Htab].
  intros b Hb. rewrite deref_update_table in *.
  assert (Hbt : c_table (deref (update_column m a set_ispk) b) = c_table (deref m b)).
  { destruct (deref_update_column_cases m a b set_ispk) as [->| ->]; reflexivity. }
  rewrite Hbt. simpl. rewrite dict_get_set.
  destruct (Nat.eq_dec b a) as [->|Hne].
  - rewrite Htab, String.eqb_refl. eexists. split; [reflexivity|].
    cbn. apply in_insert_new.
  - assert (Hd : deref (update_column m a set_ispk) b = deref m b).
    { rewrite deref_update_column. apply Nat.eqb_neq in Hne. now rewrite Hne. }
    rewrite Hd in Hb. destruct (Hinv b Hb) as (t & Hget & Hinb).
    destruct (String.eqb_spec (pr_table row) (c_table (deref m b))) as [E|_].
    + eexists. split; [reflexivity|]. cbn. apply in_insert_old.
      rewrite <- E, Ht in Hget. now injection Hget as ->.
    + now exists t.
Qed.

(** Every column that import marks is in the primary key of its table. *)
Lemma pks_listed_import (cur : Cursor) (m : Model) :
  importMetadata empty_model cur = Ok m -> pks_listed m.
Proof.
  intros H. apply import_phases in H as (m1 & m2 & m3 & m4 & H1 & H2 & H3 & H4 & H5).
  assert (W1 : wf_model m1).
  { exact (for_each_invariant _ wf_model (fun s x s' => wf_import_table s s' x)
             _ _ _ H1 wf_empty_model). }
  assert (W2 : wf_model m2).
  { exact (for_each_invariant _ wf_model (fun s x s' => wf_import_column s s' x)
             _ _ _ H2 W1). }
  assert (W3 : wf_model m3).
  { exact (for_each_invariant _ wf_model (fun s x s' => wf_import_unique s s' x)
             _ _ _ H3 W2). }
  assert (L1 : pks_listed m1).
  { destruct (import_tables_keys cur m1 H1) as [Hh _].
    intros a Ha. unfold deref in Ha. rewrite Hh in Ha. now destruct a. }
  assert (L2 : pks_listed m2).
  { exact (for_each_invariant _ pks_listed
             (fun s x s' => pks_listed_import_column s s' x) _ _ _ H2 L1). }
  assert (L3 : pks_listed m3).
  { apply (pks_listed_kept m2 m3); [| |exact L2].
    - exact (import_uniques_table_kept pks _ _ _ (fun t u => eq_refl) H3).
    - exact (import_uniques_column_kept (fun c => (c_table c, ispk c)) _ _ _
               (fun c => eq_refl) H3). }
  assert (L4 : wf_model m4 /\ pks_listed m4).
  { apply (for_each_invariant import_pk (fun s => wf_model s /\ pks_listed s)
             (fun s x s' Hs Hinv =>
                conj (wf_import_pk s s' x Hs (proj1 Hinv))
                     (pks_listed_import_pk s s' x (proj1 Hinv) Hs (proj2 Hinv)))
             _ _ _ H4).
    now split. }
  apply (pks_listed_kept m4 m); [| |exact (proj2 L4)].
  - exact (import_fks_table_kept pks _ _ _ (fun t f => eq_refl) H5).
  - exact (import_fks_column_kept (fun c => (c_table c, ispk c)) _ _ _
             (fun p c => eq_refl) H5).
Qed.

(** X9: after import, the primary key of a table holds exactly the marked
    columns of that table: [ispk] and [pks] agree. *)
Theorem import_pks_marked_columns (cur : Cursor) (m : Model) (k : string) (t : Table)
    (a : addr) :
  importMetadata empty_model cur = Ok m ->
  dict_get (tables m) k = Some t ->
  (In a (pks t) <-> ispk (deref m a) = true /\ c_table (deref m a) = k).
Proof.
  intros H Hk. split.
  - intros Ha.
    destruct (wf_importMetadata _ _ _ H wf_empty_model k t Hk) as [Hcols Hpks].
    destruct (Hpks a Ha) as [Hin Hpk]. split; [exact Hpk | now apply Hcols].
  - intros [Hpk Htab].
    destruct (pks_listed_import cur m H a Hpk) as (t' & Hget & Hin).
    rewrite Htab, Hk in Hget. now injection Hget as ->.
Qed.

Lemma import_pks_marked_columns_witness :
  In 2%nat (pks (table_at shop_model "ORDERS")) <->
  ispk (deref shop_model 2%nat) = true /\ c_table (deref shop_model 2%nat) = "ORDERS".
Proof.
  apply (import_pks_marked_columns shop_cursor shop_model "ORDERS"
           (table_at shop_model "ORDERS") 2%nat); reflexivity.
Defined.

(** ** When the generators succeed *)

Lemma fkof_names_spec (m : Model) (l : list addr) :
  match fkof_names m l with
  | Ok _ => forallb (is_linked m) l = true
  | Raise e => forallb (is_linked m) l = false /\ exists attr, e = AttributeError attr
  end.
Proof.
  induction l as [|a l IH]; [reflexivity|].
  cbn [fkof_names forallb]. unfold fkof_column, is_linked at 1 3.
  destruct (fkof (deref m a)) as [p|]; simpl.
  - destruct (fkof_names m l) as [ns|e]; simpl; exact IH.
  - split; [reflexivity | now eexists].
Qed.

Lemma fkof_names_linked (m : Model) (l : list addr) :
  forallb (is_linked m) l = true ->
  fkof_names m l = Ok (map (fun a => getName (c_name (fkof_target m a))) l).
Proof.
  induction l as [|a l IH]; [reflexivity|].
  cbn [forallb fkof_names map]. unfold is_linked at 1, fkof_column, fkof_target at 1.
  destruct (fkof (deref m a)) as [p|]; [|discriminate].
  simpl. intros H. now rewrite (IH H).
Qed.

Lemma getFKs_cases (m : Model) (t : Table) (members : list addr) :
  match getFKs m t members with
  | Ok _ => constraint_complete m members = true
  | Raise e =>
      constraint_complete m members = false /\
      (members = [] -> e = IndexError) /\
      (members <> [] -> exists attr, e = AttributeError attr)
  end.
Proof.
  destruct members as [|fk1 rest].
  - simpl. repeat split. intros H. now contradiction H.
  - pose proof (fkof_names_spec m (fk1 :: rest)) as Hnames.
    change (constraint_complete m (fk1 :: rest))
      with (forallb (is_linked m) (fk1 :: rest)).
    unfold getFKs, fkof_column.
    remember (fkof_names m (fk1 :: rest)) as r eqn:Er.
    destruct (fkof (deref m fk1)) as [p|] eqn:E; cbn [bind].
    + destruct r as [ns|e]; cbn [bind].
      * exact Hnames.
      * destruct Hnames as [Hf Ha]. split; [exact Hf|]. split; [discriminate|].
        intros _. exact Ha.
    + split; [|split; [discriminate | intros _; now eexists]].
      cbn [forallb]. unfold is_linked at 1. now rewrite E.
Qed.

Lemma getFKs_Ok_iff (m : Model) (t : Table) (members : list addr) :
  (exists s, getFKs m t members = Ok s) <-> constraint_complete m members = true.
Proof.
  pose proof (getFKs_cases m t members) as H.
  destruct (getFKs m t members) as [s|e].
  - split; [intros _; exact H | intros _; now exists s].
  - destruct H as [H _]. split; [intros [s Hs]; discriminate | congruence].
Qed.

Lemma getFKs_complete (m : Model) (t : Table) (members : list addr) :
  constraint_complete m members = true ->
  getFKs m t members = Ok (alter_statement m t members).
Proof.
  destruct members as [|fk1 rest]; [discriminate|].
  change (constraint_complete m (fk1 :: rest))
    with (forallb (is_linked m) (fk1 :: rest)).
  intros H. pose proof (fkof_names_linked m (fk1 :: rest) H) as Hn.
  cbn [forallb] in H. apply andb_prop in H as [H1 _]. unfold is_linked in H1.
  unfold getFKs, fkof_column, alter_statement, column_names.
  remember (fkof_names m (fk1 :: rest)) as r eqn:Er.
  cbn [hd]. unfold fkof_target at 1.
  destruct (fkof (deref m fk1)) as [p|]; [|discriminate].
  cbn [bind]. rewrite Hn. reflexivity.
Qed.

(** X17: [getFKs] writes the statement of a constraint exactly when the
    constraint has a member and every member refers to a column; the
    statement then lists, for the members in their order, their names and
    the names of the columns they refer to.  It raises [IndexError] on a
    constraint without member, and [AttributeError] on a member that
    refers to nothing. *)
Theorem getFKs_succeeds_iff (m : Model) (t : Table) (members : list addr) :
  match getFKs m t members with
  | Ok s => constraint_complete m members = true /\ s = alter_statement m t members
  | Raise e =>
      constraint_complete m members = false /\
      (members = [] -> e = IndexError) /\
      (members <> [] -> exists attr, e = AttributeError attr)
  end.
Proof.
  pose proof (getFKs_cases m t members) as H.
  destruct (getFKs m t members) as [s|e] eqn:E; [|exact H].
  split; [exact H|]. rewrite (getFKs_complete m t members H) in E.
  now injection E as <-.
Qed.


Lemma dot_link_Ok_iff (m : Model) (theme : string) (t : Table) (s : string)
    (item : string * list addr) :
  (exists s', dot_link m theme t s item = Ok s') <-> fk_linked m (snd item) = true.
Proof.
  unfold dot_link, fk_linked, fkof_column.
  destruct (snd item) as [|a rest].
  - split; [intros [s' H]; discriminate | discriminate].
  - destruct (fkof (deref m a)) as [p|]; simpl.
    + split; [reflexivity | intros _; eexists; reflexivity].
    + split; [intros [s' H]; discriminate | discriminate].
Qed.

(** [getDotLinks] writes the edges of a table exactly when the first
    member of each of its constraints refers to a column. *)
Lemma getDotLinks_Ok_iff (m : Model) (theme : string) (t : Table) :
  (exists s, getDotLinks m theme t = Ok s) <->
  forallb (fun item => fk_linked m (snd item)) (fks t) = true.
Proof.
  unfold getDotLinks.
  apply (for_each_Ok_iff (dot_link m theme t) (fun _ item => fk_linked m (snd item))).
  - intros s item. apply dot_link_Ok_iff.
  - reflexivity.
Qed.

Lemma constraint_complete_linked (m : Model) (members : list addr) :
  constraint_complete m members = true -> fk_linked m members = true.
Proof.
  destruct members as [|a rest]; [discriminate|].
  cbn [constraint_complete forallb fk_linked]. unfold is_linked at 1.
  intros H. apply andb_prop in H as [H _].
  now destruct (fkof (deref m a)).
Qed.

Lemma forallb_impl {A : Type} (f g : A -> bool) (l : list A) :
  (forall x, f x = true -> g x = true) -> forallb f l = true -> forallb g l = true.
Proof.
  intros H. induction l as [|x l IH]; simpl; [reflexivity|].
  intros Hl. apply andb_prop in Hl as [Hx Hl]. now rewrite (H x Hx), (IH Hl).
Qed.

Lemma model_complete_linked (m : Model) :
  model_complete m = true -> model_linked m = true.
Proof.
  apply forallb_impl. intros item. apply forallb_impl. intros c.
  apply constraint_complete_linked.
Qed.

Lemma dump_table_fks_Ok_iff (m : Model) (s : string) (item : string * Table) :
  (exists s', dump_table_fks m s item = Ok s') <->
  forallb (fun c => constraint_complete m (snd c)) (fks (snd item)) = true.
Proof.
  unfold dump_table_fks.
  apply (for_each_Ok_iff
           (fun s0 c => x <- getFKs m (snd item) (snd c) ;; Ok (s0 ++ x))
           (fun _ c => constraint_complete m (snd c))).
  - intros s0 c. rewrite <- (getFKs_Ok_iff m (snd item) (snd c)).
    destruct (getFKs m (snd item) (snd c)) as [x|e]; simpl.
    + split; intros _; eexists; reflexivity.
    + split; intros [s' H]; discriminate.
  - reflexivity.
Qed.

(** The script is written exactly when every constraint is complete. *)
Lemma create_script_Ok_iff (s : string) (m : Model) :
  (exists text, create_script s m = Ok text) <-> model_complete m = true.
Proof.
  unfold create_script, model_complete.
  apply (for_each_Ok_iff (dump_table_fks m)
           (fun _ item => forallb (fun c => constraint_complete m (snd c))
                                  (fks (snd item)))).
  - intros s0 item. apply dump_table_fks_Ok_iff.
  - reflexivity.
Qed.

Lemma dot_links_all_Ok_iff (m : Model) (theme s0 : string) :
  (exists s, for_each (fun s item => x <- getDotLinks m theme (snd item) ;; Ok (s ++ x))
                      (tables m) s0 = Ok s) <->
  model_linked m = true.
Proof.
  unfold model_linked.
  apply (for_each_Ok_iff
           (fun s item => x <- getDotLinks m theme (snd item) ;; Ok (s ++ x))
           (fun _ item => forallb (fun c => fk_linked m (snd c)) (fks (snd item)))).
  - intros s item. rewrite <- (getDotLinks_Ok_iff m theme (snd item)).
    destruct (getDotLinks m theme (snd item)) as [x|e]; simpl.
    + split; intros _; eexists; reflexivity.
    + split; intros [s' H]; discriminate.
  - reflexivity.
Qed.

(** A diagram is written exactly when every constraint is linked,
    whatever the theme and the name of the file. *)
Lemma dot_text_Ok_iff (m : Model) (theme filename : string) :
  (exists text, dot_text m theme filename = Ok text) <-> model_linked m = true.
Proof.
  rewrite <- (dot_links_all_Ok_iff m theme
                (dump_shapes m theme (endswith "-full" filename)
                   (endswith "-relationships" filename) (tables m)
                   (dot_banner theme) ++ Py.nl)).
  unfold dot_text.
  destruct (for_each _ (tables m) _) as [s|e]; simpl.
  - split; intros _; eexists; reflexivity.
  - split; intros [x H]; discriminate.
Qed.

(** ** A whole run *)

Lemma dumpCreateScript_complete (s : string) (m : Model) (filename : string) :
  model_complete m = true ->
  exists text, dumpCreateScript s m filename = Ok (mkOutput text [(filename, text)]).
Proof.
  intros H. apply (create_script_Ok_iff s m) in H as [text H].
  exists text. unfold dumpCreateScript. now rewrite H.
Qed.

Lemma dumpCreateScript_incomplete (s : string) (m : Model) (filename : string) :
  model_complete m = false -> exists e, dumpCreateScript s m filename = Raise e.
Proof.
  intros H. unfold dumpCreateScript.
  destruct (create_script s m) as [text|e] eqn:E; [|now exists e].
  assert (Hc : model_complete m = true) by (apply (create_script_Ok_iff s m); now exists text).
  congruence.
Qed.

Lemma dumpDotERD_linked (m : Model) (theme filename : string) :
  model_linked m = true ->
  exists text,
    dumpDotERD m theme filename =
    Ok (mkOutput text [(filename ++ ".dot", text); (filename ++ ".html", html_text text)]).
Proof.
  intros H. apply (dot_text_Ok_iff m theme filename) in H as [text H].
  exists text. unfold dumpDotERD. now rewrite H.
Qed.

(** The run on a model whose constraints are all complete. *)
Lemma main_complete (cur : Cursor) (database schema : string)
    (configured : option string) (m : Model) :
  importMetadata empty_model cur = Ok m -> model_complete m = true ->
  exists o1 o2 o3 o4,
    main cur database schema configured = ([o1; o2; o3; o4], None) /\
    map fst (files o1 ++ files o2 ++ files o3 ++ files o4)%list
      = main_files database schema.
Proof.
  intros Himp Hc. unfold main. rewrite Himp.
  pose proof (model_complete_linked m Hc) as Hl.
  destruct (dumpCreateScript_complete
              ("use schema " ++ getName database ++ "." ++ getName schema) m
              (("output/" ++ database ++ "." ++ schema) ++ ".sql") Hc) as [t1 E1].
  destruct (dumpDotERD_linked m (main_theme configured)
              (("output/" ++ database ++ "." ++ schema) ++ "-relationships") Hl)
    as [t2 E2].
  destruct (dumpDotERD_linked m (main_theme configured)
              (("output/" ++ database ++ "." ++ schema) ++ "-full") Hl)
    as [t3 E3].
  destruct (dumpDotERD_linked m (main_theme configured)
              (("output/" ++ database ++ "." ++ schema) ++ "-columns") Hl)
    as [t4 E4].
  do 4 eexists. cbv zeta. rewrite E1, E2, E3, E4. split; reflexivity.
Qed.

(** X18: a run writes all of its seven files or none.  When the import
    succeeds and every foreign key constraint is complete, it writes the
    script and the three diagrams, each with its page; in every other case
    it ends on an exception before the first file is written. *)
Theorem main_all_or_nothing (cur : Cursor) (database schema : string)
    (configured : option string) :
  (exists m o1 o2 o3 o4,
     importMetadata empty_model cur = Ok m /\ model_complete m = true /\
     main cur database schema configured = ([o1; o2; o3; o4], None) /\
     map fst (files o1 ++ files o2 ++ files o3 ++ files o4)%list
       = main_files database schema) \/
  (exists e,
     main cur database schema configured = ([], Some e) /\
     (importMetadata empty_model cur = Raise e \/
      exists m, importMetadata empty_model cur = Ok m /\ model_complete m = false)).
Proof.
  destruct (importMetadata empty_model cur) as [m|e] eqn:Himp.
  - destruct (model_complete m) eqn:Hc.
    + left.
      destruct (main_complete cur database schema configured m Himp Hc)
        as (o1 & o2 & o3 & o4 & Hmain & Hfiles).
      exists m, o1, o2, o3, o4. repeat split; assumption.
    + right. unfold main. rewrite Himp.
      destruct (dumpCreateScript_incomplete
                  ("use schema " ++ getName database ++ "." ++ getName schema) m
                  (("output/" ++ database ++ "." ++ schema) ++ ".sql") Hc) as [e E1].
      exists e. cbv zeta. rewrite E1. split; [reflexivity|]. right. exists m.
      split; [reflexivity | exact Hc].
  - right. exists e. unfold main. rewrite Himp. split; [reflexivity | now left].
Qed.

(** X16: a dump of the diagram is written exactly when the first member of
    every foreign key constraint refers to a column, whatever the theme and
    the name of the file; it then prints the graph and writes it to the
    [.dot] file, and writes the page around it to the [.html] file. *)
Theorem dumpDotERD_succeeds_iff (m : Model) (theme filename : string) :
  match dumpDotERD m theme filename with
  | Ok o =>
      model_linked m = true /\
      files o = [(filename ++ ".dot", printed o);
                 (filename ++ ".html", html_text (printed o))]
  | Raise _ => model_linked m = false
  end.
Proof.
  destruct (model_linked m) eqn:Hl.
  - destruct (dumpDotERD_linked m theme filename Hl) as [text ->]. now split.
  - unfold dumpDotERD. destruct (dot_text m theme filename) as [text|e] eqn:E.
    + assert (H : model_linked m = true)
        by (apply (dot_text_Ok_iff m theme filename); now exists text).
      congruence.
    + reflexivity.
Qed.

(** ** Import builds complete constraints *)

Lemma In_dict_set {V : Type} (d : dict V) (k k' : string) (v v' : V) :
  In (k', v') (dict_set d k v) -> In (k', v') d \/ (k' = k /\ v' = v).
Proof.
  induction d as [|[k0 v0] d IH]; simpl.
  - intros [[= <- <-]|[]]. now right.
  - destruct (String.eqb_spec k0 k) as [->|Hne]; simpl.
    + intros [[= <- <-]|H]; [now right | left; now right].
    + intros [H|H]; [left; now left|].
      destruct (IH H) as [H'|H']; [left; now right | now right].
Qed.

Lemma dict_get_In {V : Type} (d : dict V) (k : string) (v : V) :
  dict_get d k = Some v -> In (k, v) d.
Proof.
  induction d as [|[k0 v0] d IH]; simpl; [discriminate|].
  destruct (String.eqb_spec k0 k) as [->|Hne].
  - intros [= ->]. now left.
  - intros H. right. now apply IH.
Qed.

(** What is in a dictionary of constraints after a column is added to one
    of them: the constraints that were there, and the one of the column. *)
Lemma constraint_append_In (d : dict (list addr)) (c c' : string) (a : addr)
    (l' : list addr) :
  In (c', l') (constraint_append d c a) ->
  In (c', l') d \/ l' = [a] \/ exists l, In (c', l) d /\ l' = (l ++ [a])%list.
Proof.
  unfold constraint_append, dict_mem.
  destruct (dict_get d c) as [l|] eqn:G.
  - rewrite G. intros H. apply In_dict_set in H as [H|[-> ->]]; [now left|].
    right. right. exists l. split; [now apply dict_get_In | reflexivity].
  - rewrite (dict_set_fresh d c [] G), dict_get_app, G. simpl.
    rewrite String.eqb_refl, (dict_set_last d c [] _ G).
    intros H. apply in_app_or in H as [H|[[= <- <-]|[]]]; [now left|].
    right. now left.
Qed.

Lemma model_complete_iff (m : Model) :
  model_complete m = true <->
  forall k t c members,
    In (k, t) (tables m) -> In (c, members) (fks t) ->
    constraint_complete m members = true.
Proof.
  unfold model_complete. rewrite forallb_forall. split.
  - intros H k t c members Ht Hc. specialize (H (k, t) Ht). simpl in H.
    rewrite forallb_forall in H. exact (H (c, members) Hc).
  - intros H [k t] Ht. simpl. apply forallb_forall. intros [c members] Hc.
    exact (H k t c members Ht Hc).
Qed.

Lemma table_fields_kept_In {X : Type} (proj : Table -> X) (m m' : Model)
    (k : string) (t' : Table) :
  table_fields_kept proj m m' -> In (k, t') (tables m') ->
  exists t, In (k, t) (tables m) /\ proj t = proj t'.
Proof.
  unfold table_fields_kept. intros H Hin.
  apply (in_map (fun kt => (fst kt, proj (snd kt)))) in Hin. rewrite H in Hin.
  apply in_map_iff in Hin as ([k0 t0] & E & Hin0). simpl in E.
  injection E as -> Hp. now exists t0.
Qed.

Lemma import_columns_table_kept {X : Type} (proj : Table -> X)
    (rows : list ColumnRow) (m m' : Model) :
  (forall t l, proj (set_columns t l) = proj t) ->
  for_each import_column rows m = Ok m' -> table_fields_kept proj m m'.
Proof.
  intros Hp. apply (for_each_relation import_column (table_fields_kept proj)
                      (table_fields_kept_refl _) (table_fields_kept_trans _)).
  intros st x st' H. apply import_column_inv in H as (t & ty & Ht & _ & Htabs & _).
  unfold table_fields_kept. rewrite Htabs.
  apply (dict_set_kept proj (tables st) (cr_table x) t); [exact Ht | apply Hp].
Qed.

Lemma import_table_no_fks (m m' : Model) (row : TableRow) :
  import_table m row = Ok m' ->
  (forall k t, In (k, t) (tables m) -> fks t = []) ->
  forall k t, In (k, t) (tables m') -> fks t = [].
Proof.
  unfold import_table. intros [= <-] Hinv k t Hin. simpl in Hin.
  apply In_dict_set in Hin as [Hin|[_ ->]]; [|reflexivity].
  apply In_dict_set in Hin as [Hin|[_ ->]]; [|reflexivity].
  now apply (Hinv k t).
Qed.

(** Before the loop over the foreign keys, no table has one. *)
Lemma no_fks_before (cur : Cursor) (m1 m2 m3 m4 : Model) :
  for_each import_table (show_tables cur) empty_model = Ok m1 ->
  for_each import_column (show_columns cur) m1 = Ok m2 ->
  for_each import_unique (show_unique_keys cur) m2 = Ok m3 ->
  for_each import_pk (show_primary_keys cur) m3 = Ok m4 ->
  forall k t, In (k, t) (tables m4) -> fks t = [].
Proof.
  intros H1 H2 H3 H4 k t Hin.
  pose proof (import_columns_table_kept fks _ _ _ (fun t l => eq_refl) H2) as K2.
  pose proof (import_uniques_table_kept fks _ _ _ (fun t u => eq_refl) H3) as K3.
  pose proof (import_pks_table_kept fks _ _ _ (fun t l => eq_refl) H4) as K4.
  pose proof (table_fields_kept_trans _ _ _ _ (table_fields_kept_trans _ _ _ _ K2 K3) K4)
    as K.
  destruct (table_fields_kept_In fks m1 m4 k t K Hin) as (t1 & Hin1 & <-).
  apply (for_each_invariant import_table
           (fun s => forall k t, In (k, t) (tables s) -> fks t = [])
           (fun s x s' => import_table_no_fks s s' x) _ _ _ H1 (fun k t H => match H with end)
           k t1 Hin1).
Qed.

Lemma is_linked_update (m : Model) (k : string) (t : Table) (a b p : addr) :
  is_linked m b = true ->
  is_linked (update_column (update_table m k t) a (set_fkof (Some p))) b = true.
Proof.
  unfold is_linked.
  destruct (deref_update_column_cases (update_table m k t) a b (set_fkof (Some p)))
    as [->| ->]; [auto | reflexivity].
Qed.

Lemma constraint_complete_app (m : Model) (l : list addr) (a : addr) :
  (l = [] \/ constraint_complete m l = true) -> is_linked m a = true ->
  constraint_complete m (l ++ [a])%list = true.
Proof.
  intros Hl Ha. destruct l as [|x l].
  - simpl. now rewrite Ha.
  - destruct Hl as [Hl|Hl]; [discriminate|].
    change (forallb (is_linked m) (x :: l) = true) in Hl.
    change (forallb (is_linked m) ((x :: l) ++ [a]) = true).
    rewrite forallb_app, Hl. simpl. now rewrite Ha.
Qed.

Lemma constraint_complete_update (m : Model) (k : string) (t : Table) (a p : addr)
    (l : list addr) :
  constraint_complete m l = true ->
  constraint_complete (update_column (update_table m k t) a (set_fkof (Some p))) l = true.
Proof.
  destruct l as [|x l]; [discriminate|]. cbn [constraint_complete].
  apply forallb_impl. intros b. apply is_linked_update.
Qed.

(** One pass of the loop over the foreign keys keeps the constraints
    complete, when the parent column of its row is found. *)
Lemma import_fk_complete (m m' : Model) (row : FkRow) :
  wf_model m ->
  (negb (String.eqb (fr_pk_schema row) (fr_fk_schema row))
   || resolves m (fr_pk_table row) (fr_pk_column row))%bool = true ->
  import_fk m row = Ok m' ->
  (forall k t c members, In (k, t) (tables m) -> In (c, members) (fks t) ->
     constraint_complete m members = true) ->
  forall k t c members, In (k, t) (tables m') -> In (c, members) (fks t) ->
    constraint_complete m' members = true.
Proof.
  intros Hwf Hrow H Hinv.
  apply import_fk_inv in H as (pkt & fkt & a & Hp & Hf & Ha & [[_ ->]|[He ->]]).
  - exact Hinv.
  - apply String.eqb_eq in He. rewrite He in Hrow. simpl in Hrow.
    unfold resolves in Hrow. rewrite Hp in Hrow.
    destruct (getColumn m pkt (fr_pk_column row)) as [p|]; [|discriminate].
    apply find_column_In in Ha as [Hin _].
    destruct (Hwf _ _ Hf) as [Hcols _]. destruct (Hcols a Hin) as [Hlt _].
    set (t' := set_fks fkt (constraint_append (fks fkt) (fr_constraint row) a)).
    assert (Hnew : is_linked (update_column (update_table m (fr_fk_table row) t') a
                                            (set_fkof (Some p))) a = true).
    { unfold is_linked. rewrite deref_update_column, Nat.eqb_refl.
      apply Nat.ltb_lt in Hlt. simpl. now rewrite Hlt. }
    intros k t c members Ht Hc. simpl in Ht.
    apply In_dict_set in Ht as [Ht|[-> ->]].
    + apply constraint_complete_update. now apply (Hinv k t c members).
    + cbn [fks t' set_fks] in Hc.
      apply constraint_append_In in Hc as [Hc|[->|(l & Hl & ->)]].
      * apply constraint_complete_update.
        apply (Hinv (fr_fk_table row) fkt c members); [now apply dict_get_In | exact Hc].
      * simpl. now rewrite Hnew.
      * apply constraint_complete_app; [right | exact Hnew].
        apply constraint_complete_update.
        apply (Hinv (fr_fk_table row) fkt c l); [now apply dict_get_In | exact Hl].
Qed.

Lemma import_fks_complete (rows : list FkRow) (m m' : Model) :
  wf_model m ->
  forallb (fun r => (negb (String.eqb (fr_pk_schema r) (fr_fk_schema r))
                     || resolves m (fr_pk_table r) (fr_pk_column r))%bool) rows = true ->
  for_each import_fk rows m = Ok m' ->
  (forall k t c members, In (k, t) (tables m) -> In (c, members) (fks t) ->
     constraint_complete m members = true) ->
  forall k t c members, In (k, t) (tables m') -> In (c, members) (fks t) ->
    constraint_complete m' members = true.
Proof.
  revert m. induction rows as [|r rows IH]; intros m Hwf Hrows H Hinv.
  - simpl in H. now injection H as <-.
  - cbn [for_each] in H. apply bind_Ok in H as (m1 & H1 & H).
    cbn [forallb] in Hrows. apply andb_prop in Hrows as [Hr Hrows].
    apply (IH m1); [now apply (wf_import_fk m m1 r) | | exact H |].
    + rewrite <- Hrows. apply forallb_pointwise. intros x. f_equal.
      apply resolves_kept; [now apply (import_fk_table_static m m1 r)
                           | now apply (import_fk_column_static m m1 r)].
    + now apply (import_fk_complete m m1 r).
Qed.

Lemma import_constraints_complete (cur : Cursor) (m : Model) :
  fk_parents_exist cur = true ->
  importMetadata empty_model cur = Ok m ->
  forall k t c members,
    In (k, t) (tables m) -> In (c, members) (fks t) ->
    constraint_complete m members = true.
Proof.
  intros Hpar H.
  pose proof (wf_importMetadata _ _ _ H wf_empty_model) as Hwf.
  apply import_phases in H as (m1 & m2 & m3 & m4 & H1 & H2 & H3 & H4 & H5).
  assert (W4 : wf_model m4).
  { apply (for_each_invariant _ wf_model (fun s x s' => wf_import_pk s s' x) _ _ _ H4).
    apply (for_each_invariant _ wf_model (fun s x s' => wf_import_unique s s' x) _ _ _ H3).
    apply (for_each_invariant _ wf_model (fun s x s' => wf_import_column s s' x) _ _ _ H2).
    exact (for_each_invariant _ wf_model (fun s x s' => wf_import_table s s' x)
             _ _ _ H1 wf_empty_model). }
  destruct (import_uniques_static _ _ _ H3) as [Ht3 Hc3].
  destruct (import_pks_static _ _ _ H4) as [Ht4 Hc4].
  apply (import_fks_complete (show_imported_keys cur) m4 m W4); [| exact H5 |].
  - unfold fk_parents_exist in Hpar. rewrite <- Hpar.
    apply forallb_pointwise. intros r. f_equal.
    rewrite (resolves_kept m3 m4 _ _ Ht4 Hc4), (resolves_kept m2 m3 _ _ Ht3 Hc3).
    apply (resolves_has_column cur m1 m2 _ _ H1 H2).
  - intros k t c members Ht Hc.
    rewrite (no_fks_before cur m1 m2 m3 m4 H1 H2 H3 H4 k t Ht) in Hc. contradiction.
Qed.

(** X19: when the parent column of every foreign key row that is linked
    is a listed column, every foreign key constraint of the model that
    import returns is complete: it has a member, and each member refers to
    a column.  [getFKs] and [getDotLinks] then raise on none of them. *)
Theorem import_complete (cur : Cursor) (m : Model) :
  fk_parents_exist cur = true ->
  importMetadata empty_model cur = Ok m ->
  model_complete m = true /\ model_linked m = true.
Proof.
  intros Hpar H.
  assert (Hc : model_complete m = true).
  { apply model_complete_iff. now apply (import_constraints_complete cur). }
  split; [exact Hc | now apply model_complete_linked].
Qed.

Lemma import_complete_witness :
  model_complete shop_model = true /\ model_linked shop_model = true.
Proof. apply (import_complete shop_cursor shop_model); reflexivity. Defined.

(** X20: on a consistent catalog, of rows that have the types of the
    model, in which the parent column of every foreign key row within one
    schema is listed, a run that can open its files ends without exception
    and writes the seven of them. *)
Theorem main_succeeds (cur : Cursor) (database schema : string)
    (configured : option string) :
  catalog_consistent cur = true -> fk_parents_exist cur = true ->
  exists o1 o2 o3 o4,
    main cur database schema configured = ([o1; o2; o3; o4], None) /\
    map fst (files o1 ++ files o2 ++ files o3 ++ files o4)%list
      = main_files database schema.
Proof.
  intros Hcons Hpar. apply importMetadata_Ok_iff in Hcons as [m Hm].
  apply (main_complete cur database schema configured m Hm).
  apply model_complete_iff. now apply (import_constraints_complete cur).
Qed.

Lemma main_succeeds_witness :
  exists o1 o2 o3 o4,
    main shop_cursor "DEMO" "SHOP" None = ([o1; o2; o3; o4], None) /\
    map fst (files o1 ++ files o2 ++ files o3 ++ files o4)%list
      = main_files "DEMO" "SHOP".
Proof. apply (main_succeeds shop_cursor "DEMO" "SHOP" None); reflexivity. Defined.

(** ** The exceptions of the import *)

(** A position beyond the indexes of a list: the catalog is not
    consistent, and the import and the run end on [OverflowError]. *)
Example import_pk_overflow :
  map pr_key_sequence (show_primary_keys overflow_cursor) = [9223372036854775809] /\
  catalog_consistent overflow_cursor = false /\
  importMetadata empty_model overflow_cursor = Raise OverflowError /\
  main overflow_cursor "DB" "S" None = ([], Some OverflowError).
Proof. repeat split; vm_compute; reflexivity. Qed.

Lemma for_each_Raise {S A : Type} (body : S -> A -> result S) (P : exn -> Prop) :
  (forall st x e, body st x = Raise e -> P e) ->
  forall l st e, for_each body l st = Raise e -> P e.
Proof.
  intros Hstep l. induction l as [|x l IH]; intros st e H; [discriminate|].
  cbn [for_each] in H. destruct (body st x) as [st1|e1] eqn:E; simpl in H.
  - now apply (IH st1).
  - injection H as <-. now apply (Hstep st x).
Qed.

Lemma dict_index_Raise {V : Type} (d : dict V) (k : string) (e : exn) :
  dict_index d k = Raise e -> e = KeyError k.
Proof. unfold dict_index. destruct (dict_get d k); [discriminate | now intros [= <-]]. Qed.

Lemma convert_type_Raise (d : TypeDesc) (e : exn) :
  convert_type d = Raise e -> e = KeyError "precision".
Proof.
  unfold convert_type, size_type.
  destruct (td_length d); [discriminate|].
  destruct (td_scale d) as [s|]; [|discriminate].
  destruct (td_precision d) as [p|]; [|now intros [= <-]].
  destruct (p =? 0); [discriminate|]. destruct (s =? 0); discriminate.
Qed.

Lemma import_column_Raise (m : Model) (row : ColumnRow) (e : exn) :
  import_column m row = Raise e -> lookup_error e.
Proof.
  unfold import_column. intros H.
  destruct (dict_index (tables m) (cr_table row)) as [t|e1] eqn:E1; simpl in H.
  - destruct (convert_type (cr_type row)) as [ty|e2] eqn:E2; [discriminate|].
    simpl in H. injection H as <-. apply convert_type_Raise in E2. left. subst; eexists; reflexivity.
  - injection H as <-. apply dict_index_Raise in E1. left. subst; eexists; reflexivity.
Qed.

Lemma import_unique_Raise (m : Model) (row : UniqueRow) (e : exn) :
  import_unique m row = Raise e -> lookup_error e.
Proof.
  unfold import_unique. intros H.
  destruct (dict_index (tables m) (ur_table row)) as [t|e1] eqn:E1; simpl in H.
  - destruct (getColumn m t (ur_column row)); [discriminate|].
    injection H as <-. right. subst; eexists; reflexivity.
  - injection H as <-. apply dict_index_Raise in E1. left. subst; eexists; reflexivity.
Qed.

Lemma import_pk_Raise (m : Model) (row : PkRow) (e : exn) :
  import_pk m row = Raise e -> import_error e.
Proof.
  unfold import_pk, Py.insert. intros H.
  destruct (dict_index (tables m) (pr_table row)) as [t|e1] eqn:E1; simpl in H.
  - destruct (getColumn m t (pr_column row)).
    + destruct (Py.fits_ssize_t (pr_key_sequence row - 1)); [discriminate|].
      simpl in H. injection H as <-. now right.
    + injection H as <-. left. right. eexists; reflexivity.
  - injection H as <-. apply dict_index_Raise in E1. left. left. subst; eexists; reflexivity.
Qed.

Lemma import_fk_Raise (m : Model) (row : FkRow) (e : exn) :
  import_fk m row = Raise e -> lookup_error e.
Proof.
  unfold import_fk. intros H.
  destruct (dict_index (tables m) (fr_pk_table row)) as [pkt|e1] eqn:E1; simpl in H.
  - destruct (dict_index (tables m) (fr_fk_table row)) as [fkt|e2] eqn:E2; simpl in H.
    + destruct (negb (String.eqb (fr_pk_schema row) (fr_fk_schema row)));
        destruct (getColumn m fkt (fr_fk_column row)); try discriminate;
        injection H as <-; right; subst; eexists; reflexivity.
    + injection H as <-. apply dict_index_Raise in E2. left. subst; eexists; reflexivity.
  - injection H as <-. apply dict_index_Raise in E1. left. subst; eexists; reflexivity.
Qed.

Lemma importMetadata_Raise (cur : Cursor) (e : exn) :
  importMetadata empty_model cur = Raise e -> import_error e.
Proof.
  unfold importMetadata.
  destruct (import_tables_fresh (show_tables cur) empty_model) as (m1 & -> & _).
  cbn [bind].
  destruct (for_each import_column (show_columns cur) m1) as [m2|e2] eqn:E2; cbn [bind].
  - destruct (for_each import_unique (show_unique_keys cur) m2) as [m3|e3] eqn:E3;
      cbn [bind].
    + destruct (for_each import_pk (show_primary_keys cur) m3) as [m4|e4] eqn:E4;
        cbn [bind].
      * intros H. left.
        exact (for_each_Raise import_fk lookup_error import_fk_Raise _ _ _ H).
      * intros [= <-].
        apply (for_each_Raise import_pk import_error import_pk_Raise _ _ _ E4).
    + intros [= <-]. left.
      apply (for_each_Raise import_unique lookup_error import_unique_Raise _ _ _ E3).
  - intros [= <-]. left.
    apply (for_each_Raise import_column lookup_error import_column_Raise _ _ _ E2).
Qed.

(** X14: for a catalog whose rows have the types of the model (names that
    are strings, key positions that are integers, descriptors with a type,
    a nullable flag and integer sizes), the import succeeds exactly when
    the catalog is consistent: every row names a listed table, every key
    row a listed column of its table, every data type can be converted,
    and the position of every primary key row, less one, is an index that
    [list.insert] takes.  On every other such catalog it raises [KeyError]
    or [AttributeError], the exceptions of a failed lookup, or
    [OverflowError]. *)
Theorem import_succeeds_iff (cur : Cursor) :
  match importMetadata empty_model cur with
  | Ok _ => catalog_consistent cur = true
  | Raise e => catalog_consistent cur = false /\ import_error e
  end.
Proof.
  destruct (importMetadata empty_model cur) as [m|e] eqn:E.
  - apply importMetadata_Ok_iff. now exists m.
  - split; [|now apply (importMetadata_Raise cur)].
    destruct (catalog_consistent cur) eqn:Hc; [|reflexivity].
    apply importMetadata_Ok_iff in Hc as [m Hm]. congruence.
Qed.

(** ** The data types of a model *)

Lemma all_ascii_append (s t : string) :
  all_ascii (s ++ t) = (all_ascii s && all_ascii t)%bool.
Proof.
  induction s as [|c s IH]; simpl; [reflexivity|]. now rewrite IH, andb_assoc.
Qed.

Lemma all_ascii_string_of_uint (d : Decimal.uint) :
  all_ascii (NilEmpty.string_of_uint d) = true.
Proof. induction d; simpl; try rewrite IHd; reflexivity. Qed.

Lemma all_ascii_str (z : Z) : all_ascii (Py.str z) = true.
Proof.
  unfold Py.str. destruct (Z.to_int z) as [d|d]; simpl;
    apply all_ascii_string_of_uint.
Qed.

(** Lowering an ASCII text leaves no capital letter in it. *)
Lemma lowercase_lower (s : string) :
  all_ascii s = true -> lowercase_ascii (Py.lower s) = true.
Proof.
  induction s as [|c s IH]; [reflexivity|].
  cbn [all_ascii Py.lower lowercase_ascii]. intros H.
  apply andb_prop in H as [Hc Hs]. rewrite (IH Hs), andb_true_r.
  unfold plain_char, ascii_char in *. rewrite lower_char_code.
  apply Nat.ltb_lt in Hc.
  destruct (Nat.leb_spec 65 (nat_of_ascii c)) as [E1|E1];
    destruct (Nat.leb_spec (nat_of_ascii c) 90) as [E2|E2]; cbn [andb].
  - apply andb_true_intro. split; [apply Nat.ltb_lt; lia|].
    apply negb_true_iff, andb_false_iff. right. apply Nat.leb_gt. lia.
  - apply andb_true_intro. split; [now apply Nat.ltb_lt|].
    apply negb_true_iff, andb_false_iff. right. apply Nat.leb_gt. lia.
  - apply andb_true_intro. split; [now apply Nat.ltb_lt|].
    apply negb_true_iff, andb_false_iff. left. apply Nat.leb_gt. lia.
  - apply andb_true_intro. split; [now apply Nat.ltb_lt|].
    apply negb_true_iff, andb_false_iff. left. apply Nat.leb_gt. lia.
Qed.

Lemma rename_type_ascii (d : TypeDesc) :
  all_ascii (td_type d) = true -> all_ascii (rename_type d) = true.
Proof.
  unfold rename_type. intros H.
  destruct (String.eqb (td_type d) "FIXED"); [reflexivity|].
  destruct (td_fixed d) as [[|]|]; [| |exact H];
    (destruct (String.eqb (td_type d) "TEXT"); [reflexivity | exact H]).
Qed.

Lemma size_type_ascii (d : TypeDesc) (ty0 ty : string) :
  all_ascii ty0 = true -> size_type d ty0 = Ok ty -> all_ascii ty = true.
Proof.
  unfold size_type. intros H0.
  assert (Hp : forall z, all_ascii (ty0 ++ "(" ++ Py.str z ++ ")") = true).
  { intros z. now rewrite !all_ascii_append, H0, all_ascii_str. }
  assert (Hq : forall y z,
            all_ascii (ty0 ++ "(" ++ Py.str y ++ "," ++ Py.str z ++ ")") = true).
  { intros y z. now rewrite !all_ascii_append, H0, !all_ascii_str. }
  assert (Hi : forall z, all_ascii ("INT(" ++ Py.str z ++ ")") = true).
  { intros z. now rewrite !all_ascii_append, all_ascii_str. }
  destruct (td_length d) as [len|]; [intros [= <-]; apply Hp|].
  destruct (td_scale d) as [s|]; [|now intros [= <-]].
  destruct (td_precision d) as [p|]; [|discriminate].
  destruct (p =? 0).
  - destruct (String.eqb _ "TIMESTAMP_NTZ(9)"); intros [= <-]; [reflexivity | apply Hp].
  - destruct (s =? 0).
    + destruct (String.eqb _ "NUMBER(38)"); [now intros [= <-]|].
      destruct (Py.startswith "NUMBER(" _); intros [= <-]; [apply Hi | apply Hp].
    + intros [= <-]. apply Hq.
Qed.

Lemma convert_type_lowercase (d : TypeDesc) (ty : string) :
  all_ascii (td_type d) = true -> convert_type d = Ok ty -> lowercase_ascii ty = true.
Proof.
  unfold convert_type. intros Ha.
  destruct (size_type d (rename_type d)) as [x|e] eqn:E; [|discriminate].
  simpl. intros [= <-]. apply lowercase_lower.
  exact (size_type_ascii d _ _ (rename_type_ascii d Ha) E).
Qed.

Lemma import_column_lowercase (m m' : Model) (row : ColumnRow) :
  all_ascii (td_type (cr_type row)) = true ->
  import_column m row = Ok m' ->
  (forall a, lowercase_ascii (datatype (deref m a)) = true) ->
  forall a, lowercase_ascii (datatype (deref m' a)) = true.
Proof.
  intros Hrow H Hinv a.
  apply import_column_inv in H as (table & ty & _ & Hty & _ & Hheap & _).
  unfold deref. rewrite Hheap.
  destruct (Nat.lt_ge_cases a (List.length (heap m))) as [Hlt|Hge].
  - rewrite app_nth1 by exact Hlt. apply Hinv.
  - rewrite app_nth2 by exact Hge.
    destruct (a - List.length (heap m))%nat as [|[|n]]; [|reflexivity|reflexivity].
    cbn. now apply (convert_type_lowercase (cr_type row)).
Qed.

(** An invariant of a loop whose steps keep it on the elements of the
    list. *)
Lemma for_each_invariant_on {S A : Type} (body : S -> A -> result S)
    (ok : A -> bool) (P : S -> Prop) :
  (forall st x st', ok x = true -> body st x = Ok st' -> P st -> P st') ->
  forall l st st',
    forallb ok l = true -> for_each body l st = Ok st' -> P st -> P st'.
Proof.
  intros Hstep l. induction l as [|x l IH]; intros st st' Hok Hrun HP; simpl in Hrun.
  - now injection Hrun as <-.
  - cbn [forallb] in Hok. apply andb_prop in Hok as [Hx Hl].
    destruct (body st x) as [st1|e] eqn:E; simpl in Hrun; [|discriminate].
    apply (IH st1 st' Hl Hrun). exact (Hstep st x st1 Hx E HP).
Qed.

(** X6: when the type names of the catalog are ASCII, the data type of
    every column of an imported model is in lowercase: it consists of
    ASCII characters, none of which is a capital letter. *)
Theorem import_datatypes_lowercase (cur : Cursor) (m : Model) (a : addr) :
  ascii_types cur = true ->
  importMetadata empty_model cur = Ok m ->
  lowercase_ascii (datatype (deref m a)) = true.
Proof.
  intros Hascii H.
  apply import_phases in H as (m1 & m2 & m3 & m4 & H1 & H2 & H3 & H4 & H5).
  destruct (import_static_after_columns cur m2 m3 m4 m H3 H4 H5) as [_ Hc].
  specialize (Hc a). unfold column_static in Hc. injection Hc as _ _ _ _ Hd _.
  rewrite Hd.
  apply (for_each_invariant_on import_column
           (fun r => all_ascii (td_type (cr_type r)))
           (fun s => forall a, lowercase_ascii (datatype (deref s a)) = true)
           (fun s x s' Hx => import_column_lowercase s s' x Hx) _ _ _ Hascii H2).
  destruct (import_tables_keys cur m1 H1) as [Hh _].
  intros b. unfold deref. rewrite Hh. now destruct b.
Qed.

Lemma import_datatypes_lowercase_witness :
  map (fun r => td_type (cr_type r)) (show_columns shop_cursor)
    = ["FIXED"; "TEXT"; "FIXED"; "FIXED"; "FIXED"; "FIXED"; "FIXED"] /\
  datatype (deref shop_model 1%nat) = "varchar(100)" /\
  lowercase_ascii (datatype (deref shop_model 1%nat)) = true.
Proof.
  split; [reflexivity|]. split; [reflexivity|].
  apply (import_datatypes_lowercase shop_cursor shop_model 1%nat); reflexivity.
Defined.

(** ** What the import prints *)

Lemma stdout_before_fks (cur : Cursor) (m1 m2 m3 m4 : Model) :
  for_each import_table (show_tables cur) empty_model = Ok m1 ->
  for_each import_column (show_columns cur) m1 = Ok m2 ->
  for_each import_unique (show_unique_keys cur) m2 = Ok m3 ->
  for_each import_pk (show_primary_keys cur) m3 = Ok m4 ->
  stdout m4 = [].
Proof.
  intros H1 H2 H3 H4.
  assert (R1 : stdout m1 = stdout empty_model).
  { apply (for_each_relation import_table (fun s s' => stdout s' = stdout s)
             (fun s => eq_refl) (fun s1 s2 s3 E1 E2 => eq_trans E2 E1)
             (fun s x s' H => proj1 (proj2 (import_table_inv s s' x H))) _ _ _ H1). }
  assert (S2 : forall s x s', import_column s x = Ok s' -> stdout s' = stdout s).
  { intros s x s' H. apply import_column_inv in H as (t & ty & _ & _ & _ & _ & Hs).
    exact Hs. }
  assert (S3 : forall s x s', import_unique s x = Ok s' -> stdout s' = stdout s).
  { intros s x s' H. apply import_unique_inv in H as (t & a & _ & _ & ->).
    reflexivity. }
  assert (S4 : forall s x s', import_pk s x = Ok s' -> stdout s' = stdout s).
  { intros s x s' H. apply import_pk_inv in H as (t & a & _ & _ & ->).
    reflexivity. }
  pose proof (for_each_relation import_column (fun s s' => stdout s' = stdout s)
                (fun s => eq_refl) (fun s1 s2 s3 E1 E2 => eq_trans E2 E1) S2 _ _ _ H2)
    as R2.
  pose proof (for_each_relation import_unique (fun s s' => stdout s' = stdout s)
                (fun s => eq_refl) (fun s1 s2 s3 E1 E2 => eq_trans E2 E1) S3 _ _ _ H3)
    as R3.
  pose proof (for_each_relation import_pk (fun s s' => stdout s' = stdout s)
                (fun s => eq_refl) (fun s1 s2 s3 E1 E2 => eq_trans E2 E1) S4 _ _ _ H4)
    as R4.
  simpl in R2, R3, R4. rewrite R4, R3, R2, R1. reflexivity.
Qed.

(** The loop over the foreign keys prints the warning of each row across
    schemas, in the order of the rows, when the tables are named as their
    keys. *)
Lemma import_fks_stdout (rows : list FkRow) (m m' : Model) :
  (forall k t, dict_get (tables m) k = Some t -> t_name t = k) ->
  for_each import_fk rows m = Ok m' ->
  stdout m' = (stdout m ++ map warning_of (filter across_schemas rows))%list.
Proof.
  revert m. induction rows as [|r rows IH]; intros m Hnames H.
  - simpl in H. injection H as <-. simpl. now rewrite app_nil_r.
  - cbn [for_each] in H. apply bind_Ok in H as (m1 & H1 & H).
    assert (Hnames1 : forall k t, dict_get (tables m1) k = Some t -> t_name t = k).
    { intros k t Hk.
      pose proof (table_fields_kept_get table_static m m1 k
                    (import_fk_table_static m m1 r H1)) as Hs.
      rewrite Hk in Hs. destruct (dict_get (tables m) k) as [t0|] eqn:E; [|discriminate].
      simpl in Hs. injection Hs as Hn _ _ _. rewrite Hn. now apply Hnames. }
    rewrite (IH m1 Hnames1 H). cbn [filter]. unfold across_schemas at 2.
    apply import_fk_inv in H1 as (pkt & fkt & a & _ & Hf & Ha & [[Hne ->]|[He ->]]).
    + apply String.eqb_neq in Hne. rewrite Hne. cbn [negb map stdout print].
      rewrite <- app_assoc. cbn [app]. do 2 f_equal.
      unfold cross_schema_warning, warning_of.
      apply find_column_In in Ha as [_ ->]. now rewrite (Hnames _ _ Hf).
    + apply String.eqb_eq in He. rewrite He. reflexivity.
Qed.

(** X24: all that the import prints is one warning for every foreign key
    row whose two schemas differ, with the names of the child table and of
    the child column, in the order of the rows. *)
Theorem import_warnings (cur : Cursor) (m : Model) :
  importMetadata empty_model cur = Ok m ->
  stdout m = map warning_of (filter across_schemas (show_imported_keys cur)).
Proof.
  intros H. apply import_phases in H as (m1 & m2 & m3 & m4 & H1 & H2 & H3 & H4 & H5).
  assert (Hn4 : forall k t, dict_get (tables m4) k = Some t -> t_name t = k).
  { intros k t Hk.
    destruct (import_uniques_static _ _ _ H3) as [Ht3 _].
    destruct (import_pks_static _ _ _ H4) as [Ht4 _].
    pose proof (table_fields_kept_get table_static m2 m4 k
                  (table_fields_kept_trans _ _ _ _ Ht3 Ht4)) as Hs.
    rewrite Hk in Hs. pose proof (after_columns cur m1 m2 H1 H2 k) as H12.
    destruct (dict_get (tables m2) k) as [t2|]; [|discriminate].
    simpl in Hs. injection Hs as Hn _ _ _. rewrite Hn. apply H12. }
  rewrite (import_fks_stdout (show_imported_keys cur) m4 m Hn4 H5).
  now rewrite (stdout_before_fks cur m1 m2 m3 m4 H1 H2 H3 H4).
Qed.

Lemma import_warnings_witness :
  map (fun r => (fr_pk_schema r, fr_fk_schema r)) (show_imported_keys shop_crm_cursor)
    = [("SHOP", "SHOP"); ("SHOP", "SHOP"); ("CRM", "SHOP")] /\
  stdout shop_crm_model = ["??? Relationship accross schemas, for ORDERS.CUSTOMER_ID!"].
Proof.
  split; [reflexivity|].
  apply (import_warnings shop_crm_cursor shop_crm_model). reflexivity.
Defined.

(** ** The mode of a diagram *)

Lemma string_rev_append (s t : string) :
  string_rev (s ++ t) = string_rev t ++ string_rev s.
Proof.
  induction s as [|c s IH]; simpl.
  - now rewrite append_nil_r.
  - now rewrite IH, append_assoc.
Qed.

Lemma endswith_append (suffix base : string) : endswith suffix (base ++ suffix) = true.
Proof.
  induction base as [|c base IH].
  - destruct suffix; simpl; [reflexivity|].
    now rewrite Ascii.eqb_refl, String.eqb_refl.
  - change (endswith suffix (String c base ++ suffix))
      with (String.eqb (String c (base ++ suffix)) suffix
            || endswith suffix (base ++ suffix))%bool.
    rewrite IH. apply orb_true_r.
Qed.

(** A string that ends with a suffix is something followed by it. *)
Lemma endswith_split (suffix s : string) :
  endswith suffix s = true -> exists pre, s = pre ++ suffix.
Proof.
  induction s as [|c s IH].
  - change (endswith suffix "") with (String.eqb "" suffix || false)%bool.
    rewrite orb_false_r. intros H. apply String.eqb_eq in H.
    exists "". now rewrite <- H.
  - change (endswith suffix (String c s))
      with (String.eqb (String c s) suffix || endswith suffix s)%bool.
    intros H. apply orb_prop in H as [H|H].
    + apply String.eqb_eq in H. exists "". now rewrite <- H.
    + destruct (IH H) as [pre ->]. now exists (String c pre).
Qed.

Ltac differ_at_end H :=
  apply endswith_split in H as [? H];
  apply (f_equal string_rev) in H; rewrite !string_rev_append in H;
  simpl in H; discriminate H.

(** X21: the name of the file of a diagram picks its mode, whatever the
    names of the database and of the schema before the suffix: the
    [-relationships] file is collapsed and not full, the [-full] file is
    full and not collapsed, the [-columns] file is neither. *)
Theorem diagram_modes (base : string) :
  (endswith "-relationships" (base ++ "-relationships") = true /\
   endswith "-full" (base ++ "-relationships") = false) /\
  (endswith "-relationships" (base ++ "-full") = false /\
   endswith "-full" (base ++ "-full") = true) /\
  (endswith "-relationships" (base ++ "-columns") = false /\
   endswith "-full" (base ++ "-columns") = false).
Proof.
  repeat split; try apply endswith_append;
    match goal with
    | |- endswith ?x ?y = false =>
        destruct (endswith x y) eqn:E; [exfalso; differ_at_end E | reflexivity]
    end.
Qed.

(** ** The theme of a run *)

(** X23: the theme that [main] works with is one of the five themes: a
    known theme is kept, and any other one, like none at all, gives
    "Common Gray".  The nodes are boxes for "Common Gray Box" only, and
    every theme has colours of its own. *)
Theorem main_theme_known (configured : option string) :
  In (main_theme configured) themes /\
  (forall t, In t themes -> main_theme (Some t) = t) /\
  (forall t, ~ In t themes -> main_theme (Some t) = "Common Gray") /\
  main_theme None = "Common Gray" /\
  (contains " Box" (main_theme configured) = true <->
   main_theme configured = "Common Gray Box") /\
  (forall isCollapsed,
     p_color (palette (main_theme configured) isCollapsed) <> "transparent").
Proof.
  assert (Hin : In (main_theme configured) themes).
  { unfold main_theme.
    destruct (existsb _ themes) eqn:E; simpl; [|now left].
    apply existsb_exists in E as (x & Hx & He). apply String.eqb_eq in He.
    now rewrite He. }
  split; [exact Hin|]. split; [|split; [|split; [reflexivity|split]]].
  - intros t Ht. unfold main_theme.
    assert (E : existsb (String.eqb t) themes = true).
    { apply existsb_exists. exists t. split; [exact Ht | apply String.eqb_refl]. }
    now rewrite E.
  - intros t Ht. unfold main_theme.
    destruct (existsb (String.eqb t) themes) eqn:E; [|reflexivity].
    exfalso. apply Ht. apply existsb_exists in E as (x & Hx & He).
    apply String.eqb_eq in He. now rewrite He.
  - simpl in Hin.
    destruct Hin as [<-|[<-|[<-|[<-|[<-|[]]]]]];
      (split; [intros H; try reflexivity; discriminate H
              | intros H; try reflexivity; discriminate H]).
  - intros isCollapsed. simpl in Hin.
    destruct Hin as [<-|[<-|[<-|[<-|[<-|[]]]]]]; discriminate.
Qed.

(** ** The text of the script *)

Lemma concat_lines_app (l1 l2 : list string) : concat_lines (l1 ++ l2) = concat_lines l1 ++ concat_lines l2.
Proof.
  induction l1 as [|x l1 IH]; simpl; [reflexivity|].
  now rewrite IH, append_assoc.
Qed.

Lemma dump_creates_texts (m : Model) (ts : dict Table) (s : string) :
  dump_creates m ts s = s ++ concat_lines (map (fun item => getCreateTable m (snd item)) ts).
Proof.
  revert s. induction ts as [|[k t] ts IH]; intros s; simpl.
  - now rewrite append_nil_r.
  - now rewrite IH, append_assoc.
Qed.

Lemma dump_table_fks_texts (m : Model) (s : string) (item : string * Table) :
  forallb (fun c => constraint_complete m (snd c)) (fks (snd item)) = true ->
  dump_table_fks m s item =
  Ok (s ++ concat_lines (map (fun c => alter_statement m (snd item) (snd c)) (fks (snd item)))).
Proof.
  unfold dump_table_fks. generalize (fks (snd item)) as cs. intros cs. revert s.
  induction cs as [|c cs IH]; intros s H; cbn [for_each forallb map concat_lines fold_right].
  - now rewrite append_nil_r.
  - cbn [forallb] in H. apply andb_prop in H as [Hc H].
    rewrite (getFKs_complete m (snd item) (snd c) Hc). cbn [bind].
    rewrite (IH _ H). now rewrite append_assoc.
Qed.

Lemma dump_fks_texts (m : Model) (ts : dict Table) (s : string) :
  forallb (fun item => forallb (fun c => constraint_complete m (snd c))
                               (fks (snd item))) ts = true ->
  for_each (dump_table_fks m) ts s =
  Ok (s ++ concat_lines (map (fun c => alter_statement m (fst c) (snd c))
                      (flat_map (fun item => map (fun c => (snd item, snd c))
                                                 (fks (snd item))) ts))).
Proof.
  revert s. induction ts as [|item ts IH]; intros s H; cbn [for_each forallb flat_map].
  - simpl. now rewrite append_nil_r.
  - cbn [forallb] in H. apply andb_prop in H as [Hi H].
    rewrite (dump_table_fks_texts m s item Hi). cbn [bind].
    rewrite (IH _ H), map_app, concat_lines_app, map_map, append_assoc. reflexivity.
Qed.

(** X22: [dumpCreateScript] writes exactly when every foreign key
    constraint of every table has a member and all its members refer to a
    column.  It then prints, and writes to the one file it is given, the
    same text: the heading, the CREATE TABLE statement of every table in
    the order of the tables, and after all of them the ALTER TABLE
    statement of every constraint.  Otherwise it raises and nothing is
    printed or written. *)
Theorem dumpCreateScript_writes (s : string) (m : Model) (filename : string) :
  match dumpCreateScript s m filename with
  | Ok out =>
      model_complete m = true /\
      printed out = script_text s m /\
      files out = [(filename, script_text s m)]
  | Raise e =>
      model_complete m = false /\
      (e = IndexError \/ exists attr, e = AttributeError attr)
  end.
Proof.
  unfold dumpCreateScript.
  destruct (model_complete m) eqn:Hc.
  - unfold create_script. rewrite dump_creates_texts.
    rewrite (dump_fks_texts m (tables m) _ Hc). cbn [bind printed files].
    unfold script_text, all_fks. rewrite !append_assoc.
    split; [reflexivity|]. split; reflexivity.
  - destruct (create_script s m) as [text|e] eqn:E; cbn [bind].
    + assert (H : model_complete m = true)
        by (apply (create_script_Ok_iff s m); now exists text).
      congruence.
    + split; [reflexivity|].
      unfold create_script in E.
      apply (for_each_Raise (dump_table_fks m)
               (fun e => e = IndexError \/ exists attr, e = AttributeError attr))
        in E; [exact E|].
      intros st item e0 H0. unfold dump_table_fks in H0.
      apply (for_each_Raise
               (fun s0 c => x <- getFKs m (snd item) (snd c) ;; Ok (s0 ++ x))
               (fun e => e = IndexError \/ exists attr, e = AttributeError attr))
        in H0; [exact H0|].
      intros st0 c e1 H1.
      pose proof (getFKs_cases m (snd item) (snd c)) as Hg.
      destruct (getFKs m (snd item) (snd c)) as [x|e2]; [discriminate|].
      cbn [bind] in H1. injection H1 as <-.
      destruct Hg as (_ & Hnil & Hcons).
      destruct (snd c) as [|a rest].
      * left. now apply Hnil.
      * right. apply Hcons. discriminate.
Qed.

(** ** Unique constraints and marks *)

Lemma In_dict_set_old {V : Type} (d : dict V) (k k' : string) (v v' : V) :
  In (k', v') d ->
  In (k', v') (dict_set d k v) \/ (k' = k /\ dict_get d k = Some v').
Proof.
  induction d as [|[k0 v0] d IH]; simpl; [intros []|].
  destruct (String.eqb_spec k0 k) as [->|Hne]; simpl.
  - intros [[= <- <-]|H]; [right; now split | left; now right].
  - intros [H|H]; [left; now left|].
    destruct (IH H) as [H'|H']; [left; now right | now right].
Qed.

Lemma constraint_append_new (d : dict (list addr)) (c : string) (a : addr) :
  constrained (constraint_append d c a) a.
Proof.
  unfold constraint_append, dict_mem.
  destruct (dict_get d c) as [l|] eqn:G.
  - rewrite G. exists c, (l ++ [a])%list. split.
    + apply dict_get_In, dict_get_set_same.
    + apply in_or_app. right. now left.
  - rewrite dict_get_set_same. exists c, ([] ++ [a])%list. split.
    + apply dict_get_In, dict_get_set_same.
    + now left.
Qed.

Lemma constraint_append_old (d : dict (list addr)) (c : string) (a b : addr) :
  constrained d b -> constrained (constraint_append d c a) b.
Proof.
  intros (c' & l & Hin & Hb).
  assert (Hset : forall d0 l0, In (c', l) d0 -> dict_get d0 c = Some l0 ->
            constrained (dict_set d0 c (l0 ++ [a])%list) b).
  { intros d0 l0 H0 G0.
    destruct (In_dict_set_old d0 c c' (l0 ++ [a])%list l H0) as [H|[-> H]].
    - now exists c', l.
    - rewrite G0 in H. injection H as ->. exists c, (l ++ [a])%list. split.
      + apply dict_get_In, dict_get_set_same.
      + apply in_or_app. now left. }
  unfold constraint_append, dict_mem.
  destruct (dict_get d c) as [l0|] eqn:G.
  - rewrite G. now apply Hset.
  - rewrite dict_get_set_same. apply Hset; [|apply dict_get_set_same].
    destruct (In_dict_set_old d c c' [] l Hin) as [H|[_ H]]; [exact H|].
    rewrite G in H. discriminate.
Qed.

Lemma constraint_append_constrained (d : dict (list addr)) (c : string) (a b : addr) :
  constrained (constraint_append d c a) b -> b = a \/ constrained d b.
Proof.
  intros (c' & l' & Hin & Hb).
  apply constraint_append_In in Hin as [H|[->|(l & H & ->)]].
  - right. now exists c', l'.
  - left. destruct Hb as [<-|[]]. reflexivity.
  - apply in_app_or in Hb as [Hb|[<-|[]]]; [right; now exists c', l | now left].
Qed.

Lemma import_pks_column_kept {X : Type} (proj : Column -> X)
    (rows : list PkRow) (m m' : Model) :
  (forall c, proj (set_ispk c) = proj c) ->
  for_each import_pk rows m = Ok m' -> column_fields_kept proj m m'.
Proof.
  intros Hp. apply (for_each_relation import_pk (column_fields_kept proj)
                      (column_fields_kept_refl _) (column_fields_kept_trans _)).
  intros st x st' H. apply import_pk_inv in H as (t & a & _ & _ & ->).
  now apply (update_column_kept proj st (pr_table x) _ a set_ispk).
Qed.

(** No column is marked before the unique keys are read. *)
Lemma import_table_unmarked (m m' : Model) (row : TableRow) :
  import_table m row = Ok m' ->
  (forall a, isunique (deref m a) = false) -> forall a, isunique (deref m' a) = false.
Proof.
  intros H Hinv a. apply import_table_inv in H as (Hheap & _).
  unfold deref in *. rewrite Hheap. apply Hinv.
Qed.

Lemma import_column_unmarked (m m' : Model) (row : ColumnRow) :
  import_column m row = Ok m' ->
  (forall a, isunique (deref m a) = false) -> forall a, isunique (deref m' a) = false.
Proof.
  intros H Hinv a. apply import_column_inv in H as (t & ty & _ & _ & _ & Hheap & _).
  unfold deref in *. rewrite Hheap.
  destruct (Nat.lt_ge_cases a (List.length (heap m))) as [Hlt|Hge].
  - rewrite app_nth1 by exact Hlt. apply Hinv.
  - rewrite app_nth2 by exact Hge.
    destruct (a - List.length (heap m))%nat as [|[|n]]; reflexivity.
Qed.

Lemma uniques_marked_import_unique (m m' : Model) (row : UniqueRow) :
  wf_model m -> import_unique m row = Ok m' -> uniques_marked m -> uniques_marked m'.
Proof.
  intros Hwf H [Hmem Hmark]. apply import_unique_inv in H as (t0 & a & Ht0 & Ha & ->).
  apply find_column_In in Ha as [Hina _].
  destruct (Hwf _ _ Ht0) as [Hcols _]. destruct (Hcols a Hina) as [Hlt Htab].
  set (t0' := set_uniques t0 (constraint_append (uniques t0) (ur_constraint row) a)).
  set (m' := update_column (update_table m (ur_table row) t0') a set_isunique).
  assert (Hd : forall b, deref m' b = if Nat.eqb b a then set_isunique (deref m a)
                                      else deref m b).
  { intros b. unfold m'. rewrite deref_update_column. simpl.
    apply Nat.ltb_lt in Hlt. rewrite Hlt, andb_true_r. reflexivity. }
  assert (Hg : forall k, dict_get (tables m') k =
                         if String.eqb (ur_table row) k then Some t0'
                         else dict_get (tables m) k).
  { intros k. unfold m'. simpl. apply dict_get_set. }
  split.
  - intros k t b Hk Hc. rewrite Hg in Hk. rewrite Hd.
    destruct (String.eqb_spec (ur_table row) k) as [<-|Hne].
    + injection Hk as <-. simpl in Hc.
      apply constraint_append_constrained in Hc as [->|Hc].
      * rewrite Nat.eqb_refl. split; [exact Hina | reflexivity].
      * destruct (Hmem _ _ b Ht0 Hc) as [Hin Hu]. split; [exact Hin|].
        destruct (Nat.eqb b a); [reflexivity | exact Hu].
    + destruct (Hmem _ _ b Hk Hc) as [Hin Hu]. split; [exact Hin|].
      destruct (Nat.eqb b a); [reflexivity | exact Hu].
  - intros b Hb. rewrite Hd in Hb. rewrite Hd.
    destruct (Nat.eqb_spec b a) as [Eb|Hne].
    + subst b. simpl. rewrite Htab, Hg, String.eqb_refl. exists t0'. split; [reflexivity|].
      apply constraint_append_new.
    + destruct (Hmark b Hb) as (t & Hget & Hc). rewrite Hg.
      destruct (String.eqb_spec (ur_table row) (c_table (deref m b))) as [E|_].
      * exists t0'. split; [reflexivity|]. simpl.
        apply constraint_append_old. rewrite <- E, Ht0 in Hget. now injection Hget as ->.
      * now exists t.
Qed.

Lemma uniques_marked_kept (m m' : Model) :
  table_fields_kept (fun t => (columns t, uniques t)) m m' ->
  column_fields_kept (fun c => (c_table c, isunique c)) m m' ->
  uniques_marked m -> uniques_marked m'.
Proof.
  intros Ht Hc [Hmem Hmark]. split.
  - intros k t a Hk Hin.
    apply (table_fields_kept_get (fun t => (columns t, uniques t)) m m' k) in Ht.
    rewrite Hk in Ht. destruct (dict_get (tables m) k) as [t1|] eqn:G; [|discriminate].
    simpl in Ht. injection Ht as Hcols Huniq. rewrite Huniq in Hin.
    destruct (Hmem k t1 a G Hin) as [Hin1 Hu]. split; [now rewrite Hcols|].
    specialize (Hc a). simpl in Hc. injection Hc as _ Hq. now rewrite Hq.
  - intros a Ha. specialize (Hc a). simpl in Hc. injection Hc as Htab Hq.
    rewrite Hq in Ha. destruct (Hmark a Ha) as (t & Hget & Hin). rewrite Htab.
    apply (table_fields_kept_get (fun t => (columns t, uniques t)) m m'
             (c_table (deref m a))) in Ht.
    rewrite Hget in Ht.
    destruct (dict_get (tables m') (c_table (deref m a))) as [t'|]; [|discriminate].
    simpl in Ht. injection Ht as _ Huniq. exists t'. split; [reflexivity|].
    now rewrite Huniq.
Qed.

Lemma uniques_marked_import (cur : Cursor) (m : Model) :
  importMetadata empty_model cur = Ok m -> uniques_marked m.
Proof.
  intros H. apply import_phases in H as (m1 & m2 & m3 & m4 & H1 & H2 & H3 & H4 & H5).
  assert (W1 : wf_model m1).
  { exact (for_each_invariant _ wf_model (fun s x s' => wf_import_table s s' x)
             _ _ _ H1 wf_empty_model). }
  assert (W2 : wf_model m2).
  { exact (for_each_invariant _ wf_model (fun s x s' => wf_import_column s s' x)
             _ _ _ H2 W1). }
  assert (Q1 : forall a, isunique (deref m1 a) = false).
  { apply (for_each_invariant _ (fun s => forall a, isunique (deref s a) = false)
             (fun s x s' => import_table_unmarked s s' x) _ _ _ H1).
    intros a. unfold deref. simpl. now destruct a. }
  assert (Q2 : forall a, isunique (deref m2 a) = false).
  { exact (for_each_invariant _ (fun s => forall a, isunique (deref s a) = false)
             (fun s x s' => import_column_unmarked s s' x) _ _ _ H2 Q1). }
  assert (U2 : uniques_marked m2).
  { split.
    - intros k t a Hk (c & l & Hin & _).
      pose proof (after_columns cur m1 m2 H1 H2 k) as Hafter. rewrite Hk in Hafter.
      destruct Hafter as (_ & _ & _ & Hu & _). rewrite Hu in Hin. contradiction.
    - intros a Ha. rewrite Q2 in Ha. discriminate. }
  assert (U3 : wf_model m3 /\ uniques_marked m3).
  { apply (for_each_invariant import_unique (fun s => wf_model s /\ uniques_marked s)
             (fun s x s' Hs Hinv =>
                conj (wf_import_unique s s' x Hs (proj1 Hinv))
                     (uniques_marked_import_unique s s' x (proj1 Hinv) Hs (proj2 Hinv)))
             _ _ _ H3).
    now split. }
  assert (U4 : uniques_marked m4).
  { apply (uniques_marked_kept m3 m4); [| |exact (proj2 U3)].
    - exact (import_pks_table_kept (fun t => (columns t, uniques t)) _ _ _
               (fun t l => eq_refl) H4).
    - exact (import_pks_column_kept (fun c => (c_table c, isunique c)) _ _ _
               (fun c => eq_refl) H4). }
  apply (uniques_marked_kept m4 m); [| |exact U4].
  - exact (import_fks_table_kept (fun t => (columns t, uniques t)) _ _ _
             (fun t f => eq_refl) H5).
  - exact (import_fks_column_kept (fun c => (c_table c, isunique c)) _ _ _
             (fun p c => eq_refl) H5).
Qed.

(** X15: after import, the members of the unique constraints of a table
    are exactly the columns of that table that are marked [isunique]: the
    mark that the diagram shows and the constraints that the script writes
    agree. *)
Theorem import_uniques_marked_columns (cur : Cursor) (m : Model) (k : string)
    (t : Table) (a : addr) :
  importMetadata empty_model cur = Ok m ->
  dict_get (tables m) k = Some t ->
  (constrained (uniques t) a <->
   isunique (deref m a) = true /\ c_table (deref m a) = k).
Proof.
  intros H Hk. destruct (uniques_marked_import cur m H) as [Hmem Hmark]. split.
  - intros Hc. destruct (Hmem k t a Hk Hc) as [Hin Hu]. split; [exact Hu|].
    destruct (wf_importMetadata _ _ _ H wf_empty_model k t Hk) as [Hcols _].
    now apply Hcols.
  - intros [Hu Htab]. destruct (Hmark a Hu) as (t' & Hget & Hc).
    rewrite Htab, Hk in Hget. now injection Hget as ->.
Qed.

Lemma import_uniques_marked_columns_witness :
  constrained (uniques (table_at shop_model "CUSTOMERS")) 1%nat <->
  isunique (deref shop_model 1%nat) = true /\
  c_table (deref shop_model 1%nat) = "CUSTOMERS".
Proof.
  apply (import_uniques_marked_columns shop_cursor shop_model "CUSTOMERS"
           (table_at shop_model "CUSTOMERS") 1%nat); reflexivity.
Defined.

(** ** The rows of a node *)

Lemma shape_rows_lines (m : Model) (isFull : bool) (l : list addr) (s : string) :
  shape_rows m isFull l s =
  s ++ concat_lines (map (fun a => shape_row isFull (deref m a)) l).
Proof.
  revert s. induction l as [|a l IH]; intros s;
    cbn [shape_rows map concat_lines fold_right].
  - now rewrite append_nil_r.
  - rewrite IH, append_assoc. reflexivity.
Qed.

(** X25: the node of a table is the node of the same table without
    columns, with one row for each column that is shown, in the order of
    the columns, put before the two closing lines.  The columns are all
    shown in the full diagram and in the diagram of the columns, and none
    is in the diagram of the relationships, where the node is that of the
    table without columns. *)
Theorem getDotShape_rows (m : Model) (t : Table) (theme : string)
    (isFull isCollapsed : bool) :
  exists head,
    getDotShape m (set_columns t []) theme isFull isCollapsed = head ++ shape_close /\
    getDotShape m t theme isFull isCollapsed =
      head ++ concat_lines (map (fun a => shape_row isFull (deref m a))
                                (shown_columns t isFull isCollapsed))
           ++ shape_close /\
    shown_columns t true false = columns t /\
    shown_columns t false false = columns t /\
    shown_columns t false true = [].
Proof.
  unfold getDotShape, shown_columns, set_columns.
  cbn [label t_name columns].
  destruct (isFull || negb isCollapsed)%bool.
  - eexists. split; [reflexivity|]. split; [|repeat split].
    cbn [shape_rows]. rewrite shape_rows_lines, append_assoc. reflexivity.
  - eexists. split; [reflexivity|]. split; [|repeat split].
    cbn [map concat_lines fold_right]. reflexivity.
Qed.
